(** * lgi.c: the marshalling core of the dynamic Lua binding to GObject

    A shallow embedding of [src/lgi.c].  The C functions become functions
    over an explicit machine state (the Lua stack and heap, the native heap
    and the two C globals of the file) in a small state-and-error monad.
    The Lua C API, GLib and the introspection catalog are not part of the
    sources; the operations of those libraries that [lgi.c] calls are modelled
    in the first half of the file, each from its documented behaviour. *)

From stdpp Require Import gmap strings list fin_maps pretty.
From Stdlib Require Import ZArith Lia.

Local Open Scope Z_scope.
Local Set Warnings "-register-all".

(** ** Introspection metadata (girepository) *)

Inductive GITypeTag :=
| GI_TYPE_TAG_VOID | GI_TYPE_TAG_BOOLEAN
| GI_TYPE_TAG_INT8 | GI_TYPE_TAG_UINT8
| GI_TYPE_TAG_INT16 | GI_TYPE_TAG_UINT16
| GI_TYPE_TAG_INT32 | GI_TYPE_TAG_UINT32
| GI_TYPE_TAG_INT64 | GI_TYPE_TAG_UINT64
| GI_TYPE_TAG_FLOAT | GI_TYPE_TAG_DOUBLE
| GI_TYPE_TAG_GTYPE | GI_TYPE_TAG_UTF8 | GI_TYPE_TAG_FILENAME
| GI_TYPE_TAG_ARRAY | GI_TYPE_TAG_INTERFACE
| GI_TYPE_TAG_GLIST | GI_TYPE_TAG_GSLIST | GI_TYPE_TAG_GHASH
| GI_TYPE_TAG_ERROR.

Inductive GIInfoType :=
| GI_INFO_TYPE_INVALID | GI_INFO_TYPE_FUNCTION | GI_INFO_TYPE_CALLBACK
| GI_INFO_TYPE_STRUCT | GI_INFO_TYPE_BOXED | GI_INFO_TYPE_ENUM
| GI_INFO_TYPE_FLAGS | GI_INFO_TYPE_OBJECT | GI_INFO_TYPE_INTERFACE
| GI_INFO_TYPE_CONSTANT | GI_INFO_TYPE_ERROR_DOMAIN | GI_INFO_TYPE_UNION
| GI_INFO_TYPE_VALUE | GI_INFO_TYPE_SIGNAL | GI_INFO_TYPE_VFUNC
| GI_INFO_TYPE_PROPERTY | GI_INFO_TYPE_FIELD | GI_INFO_TYPE_ARG
| GI_INFO_TYPE_TYPE | GI_INFO_TYPE_UNRESOLVED.

(** The numeric value of the enumerators, in declaration order: [compound_gc]
    reads the kind of a compound back from a Lua number. *)
Definition GIInfoType_to_Z (t : GIInfoType) : Z :=
  match t with
  | GI_INFO_TYPE_INVALID => 0 | GI_INFO_TYPE_FUNCTION => 1
  | GI_INFO_TYPE_CALLBACK => 2 | GI_INFO_TYPE_STRUCT => 3
  | GI_INFO_TYPE_BOXED => 4 | GI_INFO_TYPE_ENUM => 5
  | GI_INFO_TYPE_FLAGS => 6 | GI_INFO_TYPE_OBJECT => 7
  | GI_INFO_TYPE_INTERFACE => 8 | GI_INFO_TYPE_CONSTANT => 9
  | GI_INFO_TYPE_ERROR_DOMAIN => 10 | GI_INFO_TYPE_UNION => 11
  | GI_INFO_TYPE_VALUE => 12 | GI_INFO_TYPE_SIGNAL => 13
  | GI_INFO_TYPE_VFUNC => 14 | GI_INFO_TYPE_PROPERTY => 15
  | GI_INFO_TYPE_FIELD => 16 | GI_INFO_TYPE_ARG => 17
  | GI_INFO_TYPE_TYPE => 18 | GI_INFO_TYPE_UNRESOLVED => 19
  end.

Inductive GITransfer :=
| GI_TRANSFER_NOTHING | GI_TRANSFER_CONTAINER | GI_TRANSFER_EVERYTHING.

Inductive GIDirection :=
| GI_DIRECTION_IN | GI_DIRECTION_OUT | GI_DIRECTION_INOUT.

Inductive GIArrayType :=
| GI_ARRAY_TYPE_C | GI_ARRAY_TYPE_ARRAY
| GI_ARRAY_TYPE_PTR_ARRAY | GI_ARRAY_TYPE_BYTE_ARRAY.

#[global] Instance GITypeTag_eq_dec : EqDecision GITypeTag.
Proof. solve_decision. Defined.
#[global] Instance GIInfoType_eq_dec : EqDecision GIInfoType.
Proof. solve_decision. Defined.
#[global] Instance GITransfer_eq_dec : EqDecision GITransfer.
Proof. solve_decision. Defined.
#[global] Instance GIDirection_eq_dec : EqDecision GIDirection.
Proof. solve_decision. Defined.
#[global] Instance GIArrayType_eq_dec : EqDecision GIArrayType.
Proof. solve_decision. Defined.

(** A [GArgument] is a C union of eight bytes.  The model keeps the bytes
    that are addressable behind the pointer, least significant first: eight
    for a slot of the invoker, and as many as are mapped (at most eight) for
    an element inside a native array. *)
Definition GArgument := list Z.

(** A node of the catalog.  [bi_addr] is the address of the node itself: the
    program stores such pointers inside compounds.  The accessors of
    girepository that the program uses are the projections. *)
Inductive GIBaseInfo := mkGIBaseInfo {
  bi_addr : Z;
  g_base_info_get_type : GIInfoType;
  g_base_info_get_namespace : string;
  g_base_info_get_name : string;
  g_base_info_get_container : option GIBaseInfo;
  g_registered_type_info_get_g_type : Z;
  g_enum_info_get_storage_type : GITypeTag;
  g_struct_info_get_size : Z;
  bi_methods : list GIBaseInfo;
  bi_constant : option (GITypeInfo * GArgument)
}
with GITypeInfo := mkGITypeInfo {
  g_type_info_get_tag : GITypeTag;
  g_type_info_get_interface : option GIBaseInfo;
  g_type_info_get_param_type0 : option GITypeInfo;
  g_type_info_get_array_type : GIArrayType;
  g_type_info_get_array_fixed_size : Z;
  g_type_info_is_zero_terminated : bool
}.

Record GIArgInfo := mkGIArgInfo {
  g_arg_info_get_type : GITypeInfo;
  g_arg_info_get_direction : GIDirection;
  g_arg_info_is_optional : bool;
  g_arg_info_may_be_null : bool;
  g_arg_info_is_caller_allocates : bool;
  g_arg_info_get_ownership_transfer : GITransfer
}.

Record GIFunctionInfo := mkGIFunctionInfo {
  fi_base : GIBaseInfo;
  g_function_info_get_flags : Z;
  fi_args : list GIArgInfo;
  g_callable_info_get_return_type : GITypeInfo;
  g_callable_info_get_caller_owns : GITransfer
}.

Definition GI_FUNCTION_IS_METHOD : Z := 1.
Definition GI_FUNCTION_IS_CONSTRUCTOR : Z := 2.
Definition GI_FUNCTION_THROWS : Z := 32.

(** [g_object_info_find_method] and its siblings for interfaces and
    structures: the first method of that name. *)
Definition find_method (info : GIBaseInfo) (name : string) : option GIBaseInfo :=
  List.find (fun m => bool_decide (g_base_info_get_name m = name)) (bi_methods info).

(** ** Native words and bytes *)

Definition wrap_unsigned (w : Z) (x : Z) : Z := x mod 2 ^ (8 * w).

Definition wrap_signed (w : Z) (x : Z) : Z :=
  let u := wrap_unsigned w x in
  if u <? 2 ^ (8 * w - 1) then u else u - 2 ^ (8 * w).

Fixpoint le_decode (bs : list Z) : Z :=
  match bs with
  | [] => 0
  | b :: r => b mod 256 + 256 * le_decode r
  end.

Fixpoint le_encode (w : nat) (x : Z) : list Z :=
  match w with
  | O => []
  | S w' => x mod 256 :: le_encode w' (x / 256)
  end.

(** Read of a member of the union that is [w] bytes wide.  [None] when fewer
    than [w] bytes are addressable there. *)
Definition garg_get (w : nat) (val : GArgument) : option Z :=
  if (w <=? length val)%nat then Some (le_decode (take w val)) else None.

(** Write of a member: the other bytes of the union keep their value. *)
Definition garg_set (w : nat) (x : Z) (val : GArgument) : GArgument :=
  le_encode w x ++ drop w val.

Definition v_pointer (val : GArgument) : option Z := garg_get 8 val.

(** ** Lua values and tables *)

Inductive lua_value :=
| LNil
| LBool (b : bool)
| LNum (n : Z)
| LStr (s : string)
| LLight (p : Z)
| LTable (t : nat)
| LUdata (p : Z)
| LFun (f : string).

#[global] Instance lua_value_eq_dec : EqDecision lua_value.
Proof. solve_decision. Defined.

(** A table is kept as the list of its non-nil entries. *)
Definition table := list (lua_value * lua_value).

Fixpoint tbl_get (k : lua_value) (t : table) : lua_value :=
  match t with
  | [] => LNil
  | (k', v) :: r => if decide (k' = k) then v else tbl_get k r
  end.

Fixpoint tbl_del (k : lua_value) (t : table) : table :=
  match t with
  | [] => []
  | (k', v) :: r => if decide (k' = k) then tbl_del k r else (k', v) :: tbl_del k r
  end.

Definition tbl_set (k v : lua_value) (t : table) : table :=
  match v with
  | LNil => tbl_del k t
  | _ => tbl_del k t ++ [(k, v)]
  end.

(** The length operator: the border found by counting up from 1. *)
Fixpoint tbl_border (fuel : nat) (n : Z) (t : table) : Z :=
  match fuel with
  | O => n
  | S fuel' =>
      match tbl_get (LNum (n + 1)) t with
      | LNil => n
      | _ => tbl_border fuel' (n + 1) t
      end
  end.

Definition tbl_len (t : table) : Z := tbl_border (length t) 0 t.

(** ** The machine state *)

(** The userdata of [lgi.c].  A member holds [None] until the program has
    assigned it: [lua_newuserdata] hands out raw memory. *)
Record ud_compound := mk_ud_compound {
  addr : option Z;
  ref_repo : option Z;
  owns : option bool
}.

Record GIFunctionInvoker := mkInvoker { native_address : Z }.

Record ud_function := mk_ud_function {
  invoker : GIFunctionInvoker;
  info : GIFunctionInfo
}.

Inductive ud_payload :=
| UdRaw
| UdCompound (c : ud_compound)
| UdFunction (f : ud_function).

Record udata_block := mk_udata {
  ud_size : Z;
  ud_meta : option nat;
  ud_payload_of : ud_payload
}.

(** A node of the GType system: its name and the types it conforms to
    (ancestors and implemented interfaces), itself excluded. *)
Record type_node := mk_type_node {
  tn_name : string;
  tn_conforms : list Z
}.

Record GError := mkGError {
  err_addr : Z;
  message : string;
  code : Z
}.

(** What the program does to the native side, in order. *)
Inductive event :=
| EvFree (p : Z)
| EvObjectRef (p : Z)
| EvObjectUnref (p : Z)
| EvArrayUnref (p : Z)
| EvErrorFree (p : Z)
| EvLuaCall (f : string) (args : list lua_value)
| EvWarning (msg : string).

#[global] Instance event_eq_dec : EqDecision event.
Proof. solve_decision. Defined.

Record State := mkState {
  (* Lua: the stack of the running C function, top first, and the heap *)
  stack : list lua_value;
  tables : gmap nat table;
  next_table : nat;
  udata : gmap Z udata_block;
  next_block : Z;
  (* native heap: bytes, live GObject instances and the GType system *)
  mem : gmap Z Z;
  instances : gmap Z Z;
  gtypes : gmap Z type_node;
  trace : list event;
  (* globals of lgi.c *)
  lgi_regkey : Z;
  lgi_baseinfo_info : option GIBaseInfo
}.

Definition set_stack (s : list lua_value) (L : State) : State :=
  mkState s (tables L) (next_table L) (udata L) (next_block L)
          (mem L) (instances L) (gtypes L) (trace L)
          (lgi_regkey L) (lgi_baseinfo_info L).

Definition set_table (t : nat) (c : table) (L : State) : State :=
  mkState (stack L) (<[t := c]> (tables L)) (next_table L) (udata L) (next_block L)
          (mem L) (instances L) (gtypes L) (trace L)
          (lgi_regkey L) (lgi_baseinfo_info L).

Definition set_udata (p : Z) (b : udata_block) (L : State) : State :=
  mkState (stack L) (tables L) (next_table L) (<[p := b]> (udata L)) (next_block L)
          (mem L) (instances L) (gtypes L) (trace L)
          (lgi_regkey L) (lgi_baseinfo_info L).

Definition log_event (e : event) (L : State) : State :=
  mkState (stack L) (tables L) (next_table L) (udata L) (next_block L)
          (mem L) (instances L) (gtypes L) (trace L ++ [e])
          (lgi_regkey L) (lgi_baseinfo_info L).

(** ** Outcomes *)

Inductive lua_error :=
| ErrMsg (msg : string)
| ErrArg (narg : Z) (extramsg : string)
| ErrIndex (v : lua_value)
| ErrCall (v : lua_value)
| ErrConcat (v : lua_value)
| ErrNilKey.

(** A C function either returns, or leaves through [lua_error] (a long jump
    to the protected call), or the process does not survive it: a failed
    [g_assert], a read through a pointer that is not mapped, a call of the Lua
    API outside of its contract.  [Unmodelled] marks behaviour that the model
    leaves out; [OutOfFuel] a loop that was cut. *)
Inductive outcome (A : Type) :=
| Ok (a : A) (L : State)
| Raise (e : lua_error) (L : State)
| Crash (why : string)
| Unmodelled (why : string)
| OutOfFuel.

Arguments Ok {A} a L.
Arguments Raise {A} e L.
Arguments Crash {A} why.
Arguments Unmodelled {A} why.
Arguments OutOfFuel {A}.

Definition M (A : Type) := State -> outcome A.

Definition ret {A} (a : A) : M A := fun L => Ok a L.

Definition bind {A B} (m : M A) (k : A -> M B) : M B :=
  fun L =>
    match m L with
    | Ok a L' => k a L'
    | Raise e L' => Raise e L'
    | Crash w => Crash w
    | Unmodelled w => Unmodelled w
    | OutOfFuel => OutOfFuel
    end.

Declare Scope lua_scope.
Delimit Scope lua_scope with lua.
Notation "x <- m ;; k" := (bind m (fun x => k))
  (at level 100, m at next level, right associativity) : lua_scope.
Notation "m ;;; k" := (bind m (fun _ => k))
  (at level 100, right associativity) : lua_scope.
Local Open Scope lua_scope.

Definition raise {A} (e : lua_error) : M A := fun L => Raise e L.
Definition crash {A} (w : string) : M A := fun _ => Crash w.
Definition unmodelled {A} (w : string) : M A := fun _ => Unmodelled w.
Definition get_state : M State := fun L => Ok L L.
Definition modify (f : State -> State) : M unit := fun L => Ok tt (f L).

(** The results of a C function that returned [n]: the [n] topmost values,
    the first result deepest. *)
Definition results {A} (n : nat) (o : outcome A) : option (list lua_value) :=
  match o with
  | Ok _ L => if (n <=? length (stack L))%nat then Some (rev (take n (stack L))) else None
  | _ => None
  end.

(** ** The Lua C API (Lua 5.1), as far as [lgi.c] uses it

    Tables carry no metatable in the model and a Lua function is opaque: a
    call of one is recorded in the trace and yields no value.  Numbers are the
    integer-valued ones. *)

Definition LUA_REGISTRYINDEX : Z := -10000.
Definition LUA_REFNIL : Z := -1.
Definition FREELIST_REF : Z := 0.

(** The registry is the table with id 0. *)
Definition registry : nat := 0%nat.

(** Depth below the top of the slot that a valid index denotes. *)
Definition index_depth (stk : list lua_value) (idx : Z) : option nat :=
  match idx with
  | Z0 => None
  | Zpos p =>
      if (Pos.to_nat p <=? length stk)%nat then Some (length stk - Pos.to_nat p)%nat else None
  | Zneg p =>
      match stk !! (Pos.to_nat p - 1)%nat with
      | Some _ => Some (Pos.to_nat p - 1)%nat
      | None => None
      end
  end.

(** A positive index above the top is acceptable and denotes no value. *)
Definition is_none (stk : list lua_value) (idx : Z) : bool :=
  match idx with
  | Zpos p => (length stk <? Pos.to_nat p)%nat
  | _ => false
  end.

(** The value at an acceptable index; "none" reads as nil. *)
Definition index2adr (stk : list lua_value) (idx : Z) : option lua_value :=
  match idx with
  | Z0 => None
  | Zpos p =>
      if (length stk <? Pos.to_nat p)%nat then Some LNil
      else stk !! (length stk - Pos.to_nat p)%nat
  | Zneg p =>
      if idx =? LUA_REGISTRYINDEX then Some (LTable registry)
      else stk !! (Pos.to_nat p - 1)%nat
  end.

Definition lua_typename (v : lua_value) : string :=
  match v with
  | LNil => "nil" | LBool _ => "boolean" | LNum _ => "number"
  | LStr _ => "string" | LLight _ => "userdata" | LUdata _ => "userdata"
  | LTable _ => "table" | LFun _ => "function"
  end.

Definition is_nil (v : lua_value) : bool :=
  match v with
  | LNil => true
  | _ => false
  end.

Definition push (v : lua_value) : M unit :=
  modify (fun L => set_stack (v :: stack L) L).

Definition value_at (idx : Z) : M lua_value :=
  fun L => match index2adr (stack L) idx with
           | Some v => Ok v L
           | None => Crash "unacceptable stack index"
           end.

Definition table_at (idx : Z) : M nat :=
  v <- value_at idx ;;
  match v with
  | LTable t => ret t
  | _ => crash "raw table access on a value that is not a table"
  end.

Definition table_content (t : nat) : M table :=
  fun L => match tables L !! t with
           | Some c => Ok c L
           | None => Crash "dangling table"
           end.

Definition lua_gettop : M Z := fun L => Ok (Z.of_nat (length (stack L))) L.

(** Removal of [n] values from the top. *)
Fixpoint pop_values (n : nat) (stk : list lua_value) : option (list lua_value) :=
  match n with
  | O => Some stk
  | S n' =>
      match stk with
      | [] => None
      | _ :: rest => pop_values n' rest
      end
  end.

Definition lua_settop (idx : Z) : M unit :=
  fun L =>
    match idx with
    | Zneg p =>
        match pop_values (Pos.to_nat p - 1) (stack L) with
        | Some rest => Ok tt (set_stack rest L)
        | None => Crash "lua_settop below the base"
        end
    | _ =>
        let n := Z.of_nat (length (stack L)) in
        if idx <=? n then Ok tt (set_stack (drop (Z.to_nat (n - idx)) (stack L)) L)
        else Ok tt (set_stack (replicate (Z.to_nat (idx - n)) LNil ++ stack L) L)
    end.

Definition lua_pop (n : Z) : M unit := lua_settop (- n - 1).

Definition lua_pushnil : M unit := push LNil.
Definition lua_pushboolean (b : Z) : M unit := push (LBool (negb (b =? 0))).
(** Numbers of Lua are modelled by the integers.  [lua_pushinteger] is the
    identity, as the conversion of a [lua_Integer] to a [lua_Number] is on
    the integers that both hold exactly. *)
Definition lua_pushinteger (n : Z) : M unit := push (LNum n).
Definition lua_pushlightuserdata (p : Z) : M unit := push (LLight p).
Definition lua_pushvalue (idx : Z) : M unit := v <- value_at idx ;; push v.
Definition lua_pushliteral (s : string) : M unit := push (LStr s).

Definition lua_replace (idx : Z) : M unit :=
  fun L =>
    match stack L, index_depth (stack L) idx with
    | v :: _, Some d => Ok tt (set_stack (drop 1 (<[d := v]> (stack L))) L)
    | _, _ => Crash "lua_replace"
    end.

Definition lua_insert (idx : Z) : M unit :=
  fun L =>
    match stack L, index_depth (stack L) idx with
    | v :: rest, Some d => Ok tt (set_stack (take d rest ++ v :: drop d rest) L)
    | _, _ => Crash "lua_insert"
    end.

Definition lua_isnil (idx : Z) : M bool :=
  fun L =>
    if is_none (stack L) idx then Ok false L
    else (v <- value_at idx ;; ret (is_nil v)) L.

Definition lua_isnoneornil (idx : Z) : M bool :=
  v <- value_at idx ;; ret (is_nil v).

Definition lua_rawgeti (idx n : Z) : M unit :=
  t <- table_at idx ;; c <- table_content t ;; push (tbl_get (LNum n) c).

Definition lua_rawget (idx : Z) : M unit :=
  t <- table_at idx ;; c <- table_content t ;;
  fun L =>
    match stack L with
    | k :: rest => Ok tt (set_stack (tbl_get k c :: rest) L)
    | [] => Crash "lua_rawget on an empty stack"
    end.

Definition lua_rawset (idx : Z) : M unit :=
  t <- table_at idx ;; c <- table_content t ;;
  fun L =>
    match stack L with
    | v :: k :: rest =>
        if is_nil k then Raise ErrNilKey L
        else Ok tt (set_stack rest (set_table t (tbl_set k v c) L))
    | _ => Crash "lua_rawset needs a key and a value"
    end.

Definition lua_rawseti (idx n : Z) : M unit :=
  t <- table_at idx ;; c <- table_content t ;;
  fun L =>
    match stack L with
    | v :: rest => Ok tt (set_stack rest (set_table t (tbl_set (LNum n) v c) L))
    | [] => Crash "lua_rawseti on an empty stack"
    end.

Definition lua_getfield (idx : Z) (k : string) : M unit :=
  v <- value_at idx ;;
  match v with
  | LTable t => c <- table_content t ;; push (tbl_get (LStr k) c)
  | LUdata _ => unmodelled "__index of a userdata"
  | LStr _ => unmodelled "__index of the string metatable"
  | _ => raise (ErrIndex v)
  end.

Definition lua_createtable : M unit :=
  fun L =>
    let t := next_table L in
    Ok tt (mkState (LTable t :: stack L) (<[t := []]> (tables L)) (S t) (udata L)
                   (next_block L) (mem L) (instances L) (gtypes L) (trace L)
                   (lgi_regkey L) (lgi_baseinfo_info L)).

(** Blocks are handed out by a bump allocator, sixteen bytes apart at least. *)
Definition lua_newuserdata (size : Z) : M Z :=
  fun L =>
    let p := next_block L in
    Ok p (mkState (LUdata p :: stack L) (tables L) (next_table L)
                  (<[p := mk_udata size None UdRaw]> (udata L))
                  (p + 16 * (1 + size / 16)) (mem L) (instances L) (gtypes L) (trace L)
                  (lgi_regkey L) (lgi_baseinfo_info L)).

Definition udata_at (p : Z) : M udata_block :=
  fun L => match udata L !! p with
           | Some b => Ok b L
           | None => Crash "pointer to a userdata that does not exist"
           end.

Definition lua_setmetatable (idx : Z) : M unit :=
  v <- value_at idx ;;
  fun L =>
    match stack L, v with
    | LTable mt :: rest, LUdata p =>
        (b <- udata_at p ;;
         modify (fun L => set_stack rest (set_udata p (mk_udata (ud_size b) (Some mt) (ud_payload_of b)) L))) L
    | LNil :: rest, LUdata p =>
        (b <- udata_at p ;;
         modify (fun L => set_stack rest (set_udata p (mk_udata (ud_size b) None (ud_payload_of b)) L))) L
    | _ :: _, LUdata _ => Crash "lua_setmetatable: table or nil expected"
    | _, _ => Unmodelled "metatable of a value that is not a userdata"
    end.

Definition luaL_getmetatable (tname : string) : M unit :=
  lua_getfield LUA_REGISTRYINDEX tname.

Definition lua_getmetatable (idx : Z) : M Z :=
  v <- value_at idx ;;
  match v with
  | LUdata p =>
      b <- udata_at p ;;
      match ud_meta b with
      | Some mt => push (LTable mt) ;;; ret 1
      | None => ret 0
      end
  | _ => ret 0
  end.

Definition lua_rawequal (i1 i2 : Z) : M bool :=
  v1 <- value_at i1 ;; v2 <- value_at i2 ;; ret (bool_decide (v1 = v2)).

(** The block address of a full userdata, the pointer of a light one, else
    NULL. *)
Definition lua_touserdata (idx : Z) : M Z :=
  v <- value_at idx ;;
  ret (match v with LUdata p => p | LLight p => p | _ => 0 end).

(** Conversions between strings and numbers.  Only decimal integer literals
    are recognised as numbers. *)
Fixpoint digits_value (s : string) (acc : Z) : option Z :=
  match s with
  | EmptyString => Some acc
  | String c r =>
      let n := Z.of_nat (Ascii.nat_of_ascii c) in
      if (48 <=? n) && (n <=? 57) then digits_value r (10 * acc + (n - 48)) else None
  end.

Definition str2number (s : string) : option Z :=
  match s with
  | EmptyString => None
  | String c r =>
      if (Ascii.nat_of_ascii c =? 45)%nat
      then (if bool_decide (r = EmptyString) then None else Z.opp <$> digits_value r 0)
      else digits_value s 0
  end.

Definition number2str (n : Z) : string := pretty n.

Definition tonumber (v : lua_value) : option Z :=
  match v with
  | LNum n => Some n
  | LStr s => str2number s
  | _ => None
  end.

Definition lua_tointeger (idx : Z) : M Z :=
  v <- value_at idx ;; ret (default 0 (tonumber v)).

Definition lua_toboolean (idx : Z) : M Z :=
  v <- value_at idx ;;
  ret (match v with LNil => 0 | LBool false => 0 | _ => 1 end).

(** [lua_tolstring]: a number is converted to a string in place; [None] is
    the NULL result. *)
Definition lua_tostring (idx : Z) : M (option string) :=
  v <- value_at idx ;;
  match v with
  | LStr s => ret (Some s)
  | LNum n =>
      fun L =>
        match index_depth (stack L) idx with
        | Some d => Ok (Some (number2str n))
                       (set_stack (<[d := LStr (number2str n)]> (stack L)) L)
        | None => Crash "lua_tolstring"
        end
  | _ => ret None
  end.

Definition luaL_error {A} (msg : string) : M A := raise (ErrMsg msg).

Definition luaL_argerror {A} (narg : Z) (extramsg : string) : M A :=
  raise (ErrArg narg extramsg).

Definition luaL_typerror {A} (narg : Z) (tname : string) : M A :=
  fun L =>
    let got := if is_none (stack L) narg then "no value"
               else match index2adr (stack L) narg with
                    | Some v => lua_typename v
                    | None => "no value"
                    end in
    luaL_argerror narg (tname +:+ " expected, got " +:+ got) L.

(** As for [lua_pushinteger], the conversion of the number to a
    [lua_Integer] is the identity. *)
Definition luaL_checkinteger (narg : Z) : M Z :=
  v <- value_at narg ;;
  match tonumber v with
  | Some n => ret n
  | None => luaL_typerror narg "number"
  end.

Definition luaL_checkstring (narg : Z) : M string :=
  s <- lua_tostring narg ;;
  match s with
  | Some s => ret s
  | None => luaL_typerror narg "string"
  end.

Definition luaL_optstring (narg : Z) : M (option string) :=
  b <- lua_isnoneornil narg ;;
  if b then ret None else (s <- luaL_checkstring narg ;; ret (Some s)).

Definition luaL_checkudata (ud : Z) (tname : string) : M Z :=
  p <- lua_touserdata ud ;;
  if p =? 0 then luaL_typerror ud tname
  else
    has <- lua_getmetatable ud ;;
    if has =? 0 then luaL_typerror ud tname
    else
      lua_getfield LUA_REGISTRYINDEX tname ;;;
      same <- lua_rawequal (-1) (-2) ;;
      if same then lua_pop 2 ;;; ret p
      else luaL_typerror ud tname.

Definition lua_objlen (idx : Z) : M Z :=
  v <- value_at idx ;;
  match v with
  | LTable t => c <- table_content t ;; ret (tbl_len c)
  | LStr s => ret (Z.of_nat (String.length s))
  | LUdata p => b <- udata_at p ;; ret (ud_size b)
  | _ => ret 0
  end.

(** [abs_index] of lauxlib. *)
Definition abs_index (t : Z) : M Z :=
  if (0 <? t) || (t <=? LUA_REGISTRYINDEX) then ret t
  else (n <- lua_gettop ;; ret (n + t + 1)).

Definition luaL_ref (t : Z) : M Z :=
  t <- abs_index t ;;
  isnil <- lua_isnil (-1) ;;
  if isnil then lua_pop 1 ;;; ret LUA_REFNIL
  else
    lua_rawgeti t FREELIST_REF ;;;
    ref <- lua_tointeger (-1) ;;
    lua_pop 1 ;;;
    ref <- (if negb (ref =? 0)
            then lua_rawgeti t ref ;;; lua_rawseti t FREELIST_REF ;;; ret ref
            else (n <- lua_objlen t ;; ret (n + 1))) ;;
    lua_rawseti t ref ;;;
    ret ref.

Definition luaL_unref (t ref : Z) : M unit :=
  if 0 <=? ref then
    t <- abs_index t ;;
    lua_rawgeti t FREELIST_REF ;;;
    lua_rawseti t ref ;;;
    lua_pushinteger ref ;;;
    lua_rawseti t FREELIST_REF
  else ret tt.

Definition concat_operand (v : lua_value) : option string :=
  match v with
  | LStr s => Some s
  | LNum n => Some (number2str n)
  | _ => None
  end.

(** The [n] topmost values, top first, and what lies below them. *)
Fixpoint split_values (n : nat) (stk : list lua_value)
  : option (list lua_value * list lua_value) :=
  match n with
  | O => Some ([], stk)
  | S n' =>
      match stk with
      | [] => None
      | v :: rest =>
          match split_values n' rest with
          | Some (vs, below) => Some (v :: vs, below)
          | None => None
          end
      end
  end.

(** Concatenation of operands given in order. *)
Fixpoint concat_strings (vs : list lua_value) : string :=
  match vs with
  | [] => ""
  | [v] => default "" (concat_operand v)
  | v :: r => default "" (concat_operand v) +:+ concat_strings r
  end.

Definition lua_concat (n : Z) : M unit :=
  fun L =>
    match n with
    | Z0 => push (LStr "") L
    | Zpos p =>
        match split_values (Pos.to_nat p) (stack L) with
        | Some (vs, below) =>
            if (Pos.to_nat p =? 1)%nat then Ok tt L
            else match List.find (fun v => bool_decide (concat_operand v = None)) vs with
                 | Some v => Raise (ErrConcat v) L
                 | None => Ok tt (set_stack (LStr (concat_strings (rev vs)) :: below) L)
                 end
        | None => Crash "lua_concat"
        end
    | Zneg _ => Crash "lua_concat"
    end.

(** [lua_call]: the callee sits below its [nargs] arguments.  The callee is
    opaque: the call is logged and the [nresults] results are nil. *)
Definition lua_call (nargs nresults : Z) : M unit :=
  fun L =>
    if (0 <=? nargs) && (0 <=? nresults) then
      match split_values (Z.to_nat nargs) (stack L) with
      | Some (args, LFun f :: rest) =>
          Ok tt (log_event (EvLuaCall f (rev args))
                   (set_stack (replicate (Z.to_nat nresults) LNil ++ rest) L))
      | Some (_, (LTable _ | LUdata _) :: _) => Unmodelled "__call metamethod"
      | Some (_, v :: _) => Raise (ErrCall v) L
      | _ => Crash "lua_call"
      end
    else Crash "lua_call".

(** ** Native memory and GLib *)

(** The [w] bytes at [a], if all of them are mapped. *)
Fixpoint bytes_at (m : gmap Z Z) (a : Z) (w : nat) : option (list Z) :=
  match w with
  | O => Some []
  | S w' =>
      match m !! a, bytes_at m (a + 1) w' with
      | Some b, Some r => Some (b :: r)
      | _, _ => None
      end
  end.

Definition load_bytes (m : gmap Z Z) (w : nat) (a : Z) : option Z :=
  le_decode <$> bytes_at m a w.

Definition mem_load (w : nat) (a : Z) (L : State) : option Z := load_bytes (mem L) w a.

(** The bytes of the union behind a pointer into native memory. *)
Fixpoint mapped_prefix (m : gmap Z Z) (a : Z) (n : nat) : list Z :=
  match n with
  | O => []
  | S n' =>
      match m !! a with
      | Some b => b :: mapped_prefix m (a + 1) n'
      | None => []
      end
  end.

Definition garg_at (a : Z) (L : State) : GArgument := mapped_prefix (mem L) a 8.

Fixpoint cstring_from (m : gmap Z Z) (fuel : nat) (a : Z) : option string :=
  match fuel with
  | O => None
  | S fuel' =>
      match m !! a with
      | None => None
      | Some b =>
          if b =? 0 then Some EmptyString
          else String (Ascii.ascii_of_nat (Z.to_nat b)) <$> cstring_from m fuel' (a + 1)
      end
  end.

(** The NUL-terminated string at [a]; it cannot be longer than what is
    mapped. *)
Definition cstring_at (m : gmap Z Z) (a : Z) : option string :=
  cstring_from m (S (size m)) a.

Definition read_cstring (a : Z) (L : State) : option string := cstring_at (mem L) a.

(** [lua_pushstring]: NULL pushes nil. *)
Definition lua_pushstring (p : Z) : M unit :=
  if p =? 0 then lua_pushnil
  else fun L => match read_cstring p L with
                | Some s => push (LStr s) L
                | None => Crash "string pointer that is not mapped"
                end.

Definition G_TYPE_FUNDAMENTAL_MAX : Z := 1020.
Definition G_TYPE_IS_DERIVED (type : Z) : bool := G_TYPE_FUNDAMENTAL_MAX <? type.

Definition g_type_is_a (L : State) (type is_a_type : Z) : bool :=
  match gtypes L !! type, gtypes L !! is_a_type with
  | Some node, Some _ =>
      bool_decide (type = is_a_type) || bool_decide (is_a_type ∈ tn_conforms node)
  | _, _ => false
  end.

(** NULL, printed as "(null)" by the formatter of Lua, for an unknown type. *)
Definition g_type_name (L : State) (type : Z) : string :=
  match gtypes L !! type with
  | Some node => tn_name node
  | None => "(null)"
  end.

Definition G_TYPE_FROM_INSTANCE (p : Z) : M Z :=
  fun L => match instances L !! p with
           | Some t => Ok t L
           | None => Crash "not a GTypeInstance"
           end.

Definition g_free (p : Z) : M unit := modify (log_event (EvFree p)).
Definition g_object_ref (p : Z) : M unit := modify (log_event (EvObjectRef p)).
Definition g_object_unref (p : Z) : M unit := modify (log_event (EvObjectUnref p)).
Definition g_array_unref (p : Z) : M unit := modify (log_event (EvArrayUnref p)).
Definition g_error_free (e : GError) : M unit := modify (log_event (EvErrorFree (err_addr e))).
Definition g_warning (msg : string) : M unit := modify (log_event (EvWarning msg)).

Definition g_assert (b : bool) (what : string) : M unit :=
  if b then ret tt else crash ("assertion failed: " +:+ what).

(** ** Declarations of the headers that [lgi.c] includes *)

(** Modelled from the spec: [lgi.h] is not among the sources.  It names the
    slots of the private registry table of the module: the identity cache,
    the type-binding table and the repo table, three distinct integer keys. *)
Definition LGI_REG_CACHE : Z := 1.
Definition LGI_REG_TYPEINFO : Z := 2.
Definition LGI_REG_REPO : Z := 3.

Definition UD_COMPOUND : string := "lgi.compound".
Definition UD_FUNCTION : string := "lgi.function".

(** [G_STRUCT_OFFSET (struct ud_compound, data)] where pointers have eight
    bytes: the pointer, then the word of the two bit-fields. *)
Definition ud_compound_data_offset : Z := 12.

Inductive scalar_kind :=
| SBoolean
| SInteger (signed : bool)
| SFloating
| SString.

Record decltype := mk_decltype {
  ctype_size : nat;
  kind : scalar_kind
}.

(** Modelled from the spec: [decltype.h] is not among the sources.  It is the
    table of the scalar codec, one [DECLTYPE] line per primitive type
    ("integer widths, floats, strings, booleans"): the C type of the member of
    the union, how it is pushed, checked and released.  Booleans go through
    [lua_pushboolean] and [lua_toboolean], integers through [lua_pushinteger]
    and [luaL_checkinteger], strings through [lua_pushstring] and
    [luaL_checkstring] and are released with [g_free]; the other kinds have
    nothing to release. *)
Definition DECLTYPE (tag : GITypeTag) : option decltype :=
  match tag with
  | GI_TYPE_TAG_BOOLEAN => Some (mk_decltype 4 SBoolean)
  | GI_TYPE_TAG_INT8 => Some (mk_decltype 1 (SInteger true))
  | GI_TYPE_TAG_UINT8 => Some (mk_decltype 1 (SInteger false))
  | GI_TYPE_TAG_INT16 => Some (mk_decltype 2 (SInteger true))
  | GI_TYPE_TAG_UINT16 => Some (mk_decltype 2 (SInteger false))
  | GI_TYPE_TAG_INT32 => Some (mk_decltype 4 (SInteger true))
  | GI_TYPE_TAG_UINT32 => Some (mk_decltype 4 (SInteger false))
  | GI_TYPE_TAG_INT64 => Some (mk_decltype 8 (SInteger true))
  | GI_TYPE_TAG_UINT64 => Some (mk_decltype 8 (SInteger false))
  | GI_TYPE_TAG_FLOAT => Some (mk_decltype 4 SFloating)
  | GI_TYPE_TAG_DOUBLE => Some (mk_decltype 8 SFloating)
  | GI_TYPE_TAG_UTF8 => Some (mk_decltype 8 SString)
  | GI_TYPE_TAG_FILENAME => Some (mk_decltype 8 SString)
  | _ => None
  end.

(** [val->argf]: the member of the union, read with its C type. *)
Definition read_member (d : decltype) (val : GArgument) : M Z :=
  match garg_get (ctype_size d) val with
  | None => crash "read outside of mapped memory"
  | Some x =>
      ret (match kind d with
           | SBoolean | SInteger true => wrap_signed (Z.of_nat (ctype_size d)) x
           | _ => x
           end)
  end.

(** The [push] column. *)
Definition decl_push (d : decltype) (x : Z) : M unit :=
  match kind d with
  | SBoolean => lua_pushboolean x
  | SInteger _ => lua_pushinteger x
  | SFloating => unmodelled "floating point"
  | SString => lua_pushstring x
  end.

(** The [dtor] column. *)
Definition decl_dtor (d : decltype) (x : Z) : M unit :=
  match kind d with
  | SString => g_free x
  | _ => ret tt
  end.

(** A Lua string handed to C: its bytes lie in memory owned by Lua.  The
    model stores a copy at the next free address. *)
Fixpoint store_bytes (a : Z) (bs : list Z) (m : gmap Z Z) : gmap Z Z :=
  match bs with
  | [] => m
  | b :: r => store_bytes (a + 1) r (<[a := b]> m)
  end.

Fixpoint string_bytes (s : string) : list Z :=
  match s with
  | EmptyString => [0]
  | String c r => Z.of_nat (Ascii.nat_of_ascii c) :: string_bytes r
  end.

Definition string_pointer (s : string) : M Z :=
  fun L =>
    let p := next_block L in
    let bs := string_bytes s in
    Ok p (mkState (stack L) (tables L) (next_table L) (udata L)
                  (p + 16 * (1 + Z.of_nat (length bs) / 16))
                  (store_bytes p bs (mem L)) (instances L) (gtypes L) (trace L)
                  (lgi_regkey L) (lgi_baseinfo_info L)).

(** The [check] column, followed by the cast to the C type. *)
Definition decl_check (d : decltype) (index : Z) : M Z :=
  match kind d with
  | SBoolean => lua_toboolean index
  | SInteger true => n <- luaL_checkinteger index ;; ret (wrap_signed (Z.of_nat (ctype_size d)) n)
  | SInteger false => n <- luaL_checkinteger index ;; ret (wrap_unsigned (Z.of_nat (ctype_size d)) n)
  | SFloating => unmodelled "floating point"
  | SString => s <- luaL_checkstring index ;; string_pointer s
  end.

(** ** The program: [lgi.c] *)

Definition get_lgi_regkey : M Z := fun L => Ok (lgi_regkey L) L.

Definition lgi_error (err : option GError) : M Z :=
  lua_pushboolean 0 ;;;
  match err with
  | Some err =>
      push (LStr (message err)) ;;;
      lua_pushinteger (code err) ;;;
      g_error_free err ;;;
      ret 3
  | None => ret 1
  end.

Definition lgi_get_cached (obj : Z) : M Z :=
  regkey <- get_lgi_regkey ;;
  lua_rawgeti LUA_REGISTRYINDEX regkey ;;;
  lua_rawgeti (-1) LGI_REG_CACHE ;;;
  lua_pushlightuserdata obj ;;;
  lua_rawget (-2) ;;;
  lua_replace (-3) ;;;
  lua_pop 1 ;;;
  isnil <- lua_isnil (-1) ;;
  if isnil then lua_pop 1 ;;; ret 0
  else ret 1.

Definition lgi_set_cached (obj : Z) : M unit :=
  regkey <- get_lgi_regkey ;;
  lua_rawgeti LUA_REGISTRYINDEX regkey ;;;
  lua_rawgeti (-1) LGI_REG_CACHE ;;;
  lua_pushlightuserdata obj ;;;
  lua_pushvalue (-4) ;;;
  lua_rawset (-3) ;;;
  lua_pop 2.

Definition lgi_type_get_size (tag : GITypeTag) : Z :=
  match DECLTYPE tag with
  | Some d => Z.of_nat (ctype_size d)
  | None => 0
  end.

Definition lgi_simple_val_to_lua (tag : GITypeTag) (transfer : GITransfer)
    (val : GArgument) : M Z :=
  match DECLTYPE tag with
  | Some d =>
      x <- read_member d val ;;
      decl_push d x ;;;
      (if bool_decide (transfer ≠ GI_TRANSFER_NOTHING) then decl_dtor d x else ret tt) ;;;
      ret 1
  | None => ret 0
  end.

(** Access to the members of a [struct ud_compound] behind a block pointer. *)
Definition compound_update (p : Z) (f : ud_compound -> ud_compound) : M unit :=
  b <- udata_at p ;;
  match ud_payload_of b with
  | UdRaw =>
      modify (set_udata p (mk_udata (ud_size b) (ud_meta b)
                                    (UdCompound (f (mk_ud_compound None None None)))))
  | UdCompound c =>
      modify (set_udata p (mk_udata (ud_size b) (ud_meta b) (UdCompound (f c))))
  | UdFunction _ => crash "a function userdata used as a compound"
  end.

Definition compound_member {A} (p : Z) (proj : ud_compound -> option A) : M A :=
  b <- udata_at p ;;
  match ud_payload_of b with
  | UdCompound c =>
      match proj c with
      | Some x => ret x
      | None => crash "member read before it was assigned"
      end
  | UdRaw => crash "member read before it was assigned"
  | UdFunction _ => crash "a function userdata used as a compound"
  end.

Definition function_at (p : Z) : M ud_function :=
  b <- udata_at p ;;
  match ud_payload_of b with
  | UdFunction f => ret f
  | _ => crash "a userdata that holds no function"
  end.

Definition compound_prepare (arg : Z) : M Z :=
  compound <- luaL_checkudata arg UD_COMPOUND ;;
  regkey <- get_lgi_regkey ;;
  lua_rawgeti LUA_REGISTRYINDEX regkey ;;;
  lua_rawgeti (-1) LGI_REG_TYPEINFO ;;;
  lua_replace (-2) ;;;
  ref <- compound_member compound ref_repo ;;
  lua_rawgeti (-1) ref ;;;
  isnil <- lua_isnil (-1) ;;
  g_assert (negb isnil) "!lua_isnil(L, -1)" ;;;
  ret compound.

Definition compound_callmeta (metaname : string) (nargs nrets : Z) : M bool :=
  lua_rawgeti (- nargs - 1) 0 ;;;
  lua_getfield (-1) metaname ;;;
  lua_replace (-2) ;;;
  isnil <- lua_isnil (-1) ;;
  if negb isnil then
    lua_insert (- nargs - 1) ;;;
    lua_call nargs nrets ;;;
    ret true
  else
    lua_pop (nargs + 1) ;;;
    (if negb (nrets =? 0)
     then (top <- lua_gettop ;; lua_settop (top + nrets))
     else ret tt) ;;;
    ret false.

(** [compound_store (L, info, addr, transfer)].  [a] is the pointer that
    [addr] points to on entry; the result is the returned count together with
    the pointer that [addr] points to on exit. *)
Definition compound_store (info : GIBaseInfo) (a : Z) (transfer : GITransfer) : M (Z * Z) :=
  vals <- (if bool_decide (transfer ≠ GI_TRANSFER_CONTAINER) && (a =? 0)
           then lua_pushnil ;;; ret 1
           else lgi_get_cached a) ;;
  if negb (vals =? 0) then ret (vals, a)
  else
    let size := ud_compound_data_offset +
                (if decide (transfer = GI_TRANSFER_CONTAINER)
                 then g_struct_info_get_size info else 0) in
    compound <- lua_newuserdata size ;;
    luaL_getmetatable UD_COMPOUND ;;;
    lua_setmetatable (-2) ;;;
    compound_update compound (fun c => mk_ud_compound (addr c) (Some LUA_REFNIL) (owns c)) ;;;
    regkey <- get_lgi_regkey ;;
    lua_rawgeti LUA_REGISTRYINDEX regkey ;;;
    lua_rawgeti (-1) LGI_REG_REPO ;;;
    lua_getfield (-1) (g_base_info_get_namespace info) ;;;
    lua_getfield (-1) (g_base_info_get_name info) ;;;
    lua_replace (-3) ;;;
    lua_pop 1 ;;;
    lua_rawgeti (-2) LGI_REG_TYPEINFO ;;;
    lua_pushvalue (-2) ;;;
    ref <- luaL_ref (-2) ;;
    compound_update compound (fun c => mk_ud_compound (addr c) (Some ref) (owns c)) ;;;
    r <- (match transfer with
          | GI_TRANSFER_CONTAINER => ret (compound + ud_compound_data_offset, transfer)
          | GI_TRANSFER_NOTHING =>
              match g_base_info_get_type info with
              | GI_INFO_TYPE_OBJECT =>
                  g_object_ref a ;;;
                  ret (a, GI_TRANSFER_EVERYTHING)
              | GI_INFO_TYPE_STRUCT =>
                  lua_pushvalue (-2) ;;;
                  called <- compound_callmeta "acquire" 1 0 ;;
                  ret (a, if called then GI_TRANSFER_EVERYTHING else transfer)
              | _ => ret (a, transfer)
              end
          | GI_TRANSFER_EVERYTHING => ret (a, transfer)
          end) ;;
    let '(a, transfer) := r in
    compound_update compound
      (fun c => mk_ud_compound (Some a) (ref_repo c)
                               (Some (bool_decide (transfer = GI_TRANSFER_EVERYTHING)))) ;;;
    lua_pop 3 ;;;
    lgi_set_cached compound ;;;
    ret (1, a).

Definition lgi_compound_create (ii : GIBaseInfo) (a : Z) (transfer : GITransfer) : M Z :=
  r <- compound_store ii a transfer ;; ret (fst r).

Definition compound_gc : M Z :=
  compound <- compound_prepare 1 ;;
  o <- compound_member compound owns ;;
  (if o : bool then
     lua_rawgeti (-1) 0 ;;;
     lua_getfield (-1) "type" ;;;
     type <- lua_tointeger (-1) ;;
     lua_pop 2 ;;;
     if type =? GIInfoType_to_Z GI_INFO_TYPE_STRUCT then
       lua_pushvalue 1 ;;;
       compound_callmeta "dispose" 1 0 ;;;
       ret tt
     else if type =? GIInfoType_to_Z GI_INFO_TYPE_OBJECT then
       a <- compound_member compound addr ;;
       g_object_unref a
     else
       g_warning "Incorrect type in compound_gc"
   else ret tt) ;;;
  ref <- compound_member compound ref_repo ;;
  luaL_unref (-2) ref ;;;
  ret 0.

(** [g_strcmp0] on strings that may be NULL, as a test for equality. *)
Definition g_strcmp0_eq (s1 s2 : option string) : bool := bool_decide (s1 = s2).

Definition compound_load (index : Z) (ii : GIBaseInfo) (optional : bool) : M Z :=
  found <- (if optional then
              compound <- lua_touserdata index ;;
              if compound =? 0 then ret None
              else
                has <- lua_getmetatable index ;;
                if has =? 0 then ret None
                else
                  lua_getfield LUA_REGISTRYINDEX UD_COMPOUND ;;;
                  same <- lua_rawequal (-1) (-2) ;;
                  lua_pop 2 ;;;
                  ret (if same : bool then Some compound else None)
            else
              compound <- luaL_checkudata index UD_COMPOUND ;;
              ret (Some compound)) ;;
  match found with
  | None => ret 0
  | Some compound =>
      let type := g_registered_type_info_get_g_type ii in
      if G_TYPE_IS_DERIVED type then
        a <- compound_member compound addr ;;
        real <- G_TYPE_FROM_INSTANCE a ;;
        L <- get_state ;;
        if negb (g_type_is_a L real type) then
          if negb optional then luaL_argerror index (g_type_name L real)
          else ret 0
        else ret a
      else
        compound <- compound_prepare index ;;
        lua_rawgeti (-1) 0 ;;;
        lua_getfield (-1) "name" ;;;
        push (LStr (g_base_info_get_namespace ii)) ;;;
        push (LStr ".") ;;;
        push (LStr (g_base_info_get_name ii)) ;;;
        lua_concat 3 ;;;
        requested <- lua_tostring (-1) ;;
        actual <- lua_tostring (-2) ;;
        kept <- (if negb (g_strcmp0_eq requested actual) then
                   if negb optional
                   then luaL_argerror index (default "(null)" requested)
                   else ret None
                 else ret (Some compound)) ;;
        lua_pop 5 ;;;
        match kept with
        | Some compound => compound_member compound addr
        | None => ret 0
        end
  end.

Definition lgi_compound_get (arg : Z) (ii : GIBaseInfo) (optional : bool) : M Z :=
  compound_load arg ii optional.

Definition load (w : nat) (a : Z) : M Z :=
  fun L => match mem_load w a L with
           | Some x => Ok x L
           | None => Crash "read of memory that is not mapped"
           end.

Definition deref_pointer (val : GArgument) : M Z :=
  match v_pointer val with
  | Some p => ret p
  | None => crash "read outside of mapped memory"
  end.

(** A [GArray] is the pointer to the data followed by the length. *)
Definition GArray_data (p : Z) : M Z := load 8 p.
Definition GArray_len (p : Z) : M Z := load 4 (p + 8).

(** The loop of [lgi_array_to_lua].  [elem] is the marshaller of one element,
    [ptr] the non-NULL [val->v_pointer]; one unit of fuel per iteration. *)
Fixpoint array_loop (elem : GArgument -> M Z) (atype : GIArrayType)
    (zero_terminated : bool) (size len ptr : Z) (fuel : nat) (index : Z) : M unit :=
  if (len <? 0) || (index <? len) then
    match fuel with
    | O => fun _ => OutOfFuel
    | S fuel' =>
        let offset := wrap_signed 4 (index * size) in
        ea <- (match atype with
               | GI_ARRAY_TYPE_C => ret (ptr + offset)
               | GI_ARRAY_TYPE_ARRAY => data <- GArray_data ptr ;; ret (data + offset)
               | _ => crash "eval is used before it was assigned"
               end) ;;
        eval <- (fun L => Ok (garg_at ea L) L) ;;
        stop <- (if zero_terminated : bool
                 then (p <- deref_pointer eval ;; ret (p =? 0))
                 else ret false) ;;
        if stop : bool then ret tt
        else
          vals <- elem eval ;;
          (if vals =? 1 then lua_rawseti (-2) (index + 1) else ret tt) ;;;
          array_loop elem atype zero_terminated size len ptr fuel' (index + 1)
    end
  else ret tt.

Definition lgi_array_to_lua (elem : GITransfer -> GArgument -> M Z) (etag : GITypeTag)
    (ti : GITypeInfo) (transfer : GITransfer) (val : GArgument) (fuel : nat) : M Z :=
  let atype := g_type_info_get_array_type ti in
  let size := lgi_type_get_size etag in
  let zero_terminated := g_type_info_is_zero_terminated ti in
  ptr <- deref_pointer val ;;
  len <- (if decide (atype = GI_ARRAY_TYPE_ARRAY)
          then (n <- GArray_len ptr ;; ret (wrap_signed 4 n))
          else ret (g_type_info_get_array_fixed_size ti)) ;;
  (if ptr =? 0 then lua_pushnil
   else
     let realTransfer := if decide (transfer = GI_TRANSFER_EVERYTHING)
                         then GI_TRANSFER_EVERYTHING else GI_TRANSFER_NOTHING in
     lua_createtable ;;;
     array_loop (elem realTransfer) atype zero_terminated size len ptr fuel 0 ;;;
     if bool_decide (transfer ≠ GI_TRANSFER_NOTHING) then
       match atype with
       | GI_ARRAY_TYPE_C => g_free ptr
       | GI_ARRAY_TYPE_ARRAY => g_array_unref ptr
       | _ => ret tt
       end
     else ret tt) ;;;
  ret 1.

Fixpoint lgi_val_to_lua (fuel : nat) (ti : GITypeInfo) (transfer : GITransfer)
    (val : GArgument) {struct ti} : M Z :=
  let tag := g_type_info_get_tag ti in
  vals <- lgi_simple_val_to_lua tag transfer val ;;
  if vals =? 0 then
    match tag with
    | GI_TYPE_TAG_INTERFACE =>
        match g_type_info_get_interface ti with
        | None => crash "g_type_info_get_interface returned NULL"
        | Some ii =>
            match g_base_info_get_type ii with
            | GI_INFO_TYPE_ENUM | GI_INFO_TYPE_FLAGS =>
                lgi_simple_val_to_lua (g_enum_info_get_storage_type ii)
                                      GI_TRANSFER_NOTHING val
            | GI_INFO_TYPE_STRUCT | GI_INFO_TYPE_OBJECT =>
                a <- deref_pointer val ;;
                r <- compound_store ii a transfer ;;
                ret (fst r)
            | _ => ret 0
            end
        end
    | GI_TYPE_TAG_ARRAY =>
        match g_type_info_get_param_type0 ti with
        | None => crash "g_type_info_get_param_type returned NULL"
        | Some eti =>
            lgi_array_to_lua (lgi_val_to_lua fuel eti) (g_type_info_get_tag eti)
                             ti transfer val fuel
        end
    | _ => ret 0
    end
  else ret vals.

Definition lgi_simple_val_from_lua (index : Z) (tag : GITypeTag) (val : GArgument)
    (optional : bool) : M (Z * GArgument) :=
  match DECLTYPE tag with
  | Some d =>
      absent <- (if optional then lua_isnoneornil index else ret false) ;;
      x <- (if absent : bool then ret 0 else decl_check d index) ;;
      ret (1, garg_set (ctype_size d) x val)
  | None => ret (0, val)
  end.

Definition lgi_val_from_lua (index : Z) (ti : GITypeInfo) (val : GArgument)
    (optional : bool) : M (Z * GArgument) :=
  let tag := g_type_info_get_tag ti in
  r <- lgi_simple_val_from_lua index tag val optional ;;
  if (fst r =? 0) && bool_decide (tag = GI_TYPE_TAG_INTERFACE) then
    match g_type_info_get_interface ti with
    | None => crash "g_type_info_get_interface returned NULL"
    | Some ii =>
        match g_base_info_get_type ii with
        | GI_INFO_TYPE_ENUM | GI_INFO_TYPE_FLAGS =>
            lgi_simple_val_from_lua index (g_enum_info_get_storage_type ii) (snd r) optional
        | GI_INFO_TYPE_STRUCT | GI_INFO_TYPE_OBJECT =>
            p <- compound_load index ii optional ;;
            ret (1, garg_set 8 p (snd r))
        | _ => ret r
        end
    end
  else ret r.

(** A [GValue]: its type and the word it holds.  A string is held through a
    pointer to a copy of it; the run-time type checks of the accessors are
    left out. *)
Record GValue := mkGValue {
  g_type : Z;
  gv_data : Z
}.

(** The [val_set] column applied to the result of the [check] column. *)
Definition decl_val_set (d : decltype) (val : GValue) (narg : Z) : M GValue :=
  x <- decl_check d narg ;;
  ret (mkGValue (g_type val) x).

Definition value_load (val : GValue) (narg : Z) (ti : GITypeInfo) : M (Z * GValue) :=
  match DECLTYPE (g_type_info_get_tag ti) with
  | Some d => val <- decl_val_set d val narg ;; ret (1, val)
  | None =>
      match g_type_info_get_tag ti with
      | GI_TYPE_TAG_INTERFACE =>
          match g_type_info_get_interface ti with
          | None => crash "g_type_info_get_interface returned NULL"
          | Some ii =>
              match g_base_info_get_type ii with
              | GI_INFO_TYPE_ENUM =>
                  n <- luaL_checkinteger narg ;;
                  ret (1, mkGValue (g_type val) (wrap_signed 4 n))
              | GI_INFO_TYPE_FLAGS =>
                  n <- luaL_checkinteger narg ;;
                  ret (1, mkGValue (g_type val) (wrap_unsigned 4 n))
              | GI_INFO_TYPE_OBJECT =>
                  p <- compound_load narg ii false ;;
                  (if p =? 0 then ret tt else g_object_ref p) ;;;
                  ret (1, mkGValue (g_type val) p)
              | GI_INFO_TYPE_STRUCT =>
                  luaL_error "don't know how to handle struct->GValue"
              | _ => ret (0, val)
              end
          end
      | _ => ret (0, val)
      end
  end.

Definition value_store (val : GValue) (ti : GITypeInfo) : M Z :=
  match DECLTYPE (g_type_info_get_tag ti) with
  | Some d => decl_push d (gv_data val) ;;; ret 1
  | None =>
      match g_type_info_get_tag ti with
      | GI_TYPE_TAG_INTERFACE =>
          match g_type_info_get_interface ti with
          | None => crash "g_type_info_get_interface returned NULL"
          | Some ii =>
              match g_base_info_get_type ii with
              | GI_INFO_TYPE_ENUM =>
                  lua_pushinteger (gv_data val) ;;; ret 1
              | GI_INFO_TYPE_FLAGS =>
                  lua_pushinteger (gv_data val) ;;; ret 1
              | GI_INFO_TYPE_OBJECT =>
                  let a := gv_data val in
                  (if a =? 0 then ret tt else g_object_ref a) ;;;
                  r <- compound_store ii a GI_TRANSFER_EVERYTHING ;;
                  ret (fst r)
              | GI_INFO_TYPE_STRUCT =>
                  luaL_error "don't know how to handle GValue->struct"
              | _ => ret 0
              end
          end
      | _ => ret 0
      end
  end.

Section Invoker.

(** What [lgi.c] calls and does not define: the constructor of callables of
    another file of the binding, the call primitive of libffi and the lookup
    of the catalog.  [g_newa_garbage i] is what the [i]-th slot of the array
    taken from the C stack holds before anything is stored there, and
    [addr_of_err] the address of the local [err]. *)
Variable lgi_callable_create : GIBaseInfo -> M Z.
Variable ffi_call :
  ud_function -> list GArgument -> State -> list GArgument * option GError * State.
Variable g_irepository_find_by_name : string -> string -> option GIBaseInfo.
Variable g_newa_garbage : nat -> GArgument.
Variable addr_of_err : Z.

Definition lgi_type_new (fuel : nat) (ii : GIBaseInfo) (val : GArgument) : M (Z * GArgument) :=
  match g_base_info_get_type ii with
  | GI_INFO_TYPE_FUNCTION =>
      vals <- lgi_callable_create ii ;; ret (vals, val)
  | GI_INFO_TYPE_STRUCT | GI_INFO_TYPE_OBJECT =>
      a <- deref_pointer val ;;
      r <- compound_store ii a GI_TRANSFER_CONTAINER ;;
      ret (fst r, garg_set 8 (snd r) val)
  | GI_INFO_TYPE_CONSTANT =>
      match bi_constant ii with
      | Some (ti, cval) =>
          vals <- lgi_val_to_lua fuel ti GI_TRANSFER_NOTHING cval ;; ret (vals, val)
      | None => crash "a constant without type and value"
      end
  | _ => ret (0, val)
  end.

(** The first loop of [function_call]: [args] are the slots, [todo] the
    declared arguments that are left, the first of them for slot [ffi_argi]. *)
Fixpoint marshal_in (fuel : nat) (todo : list GIArgInfo) (ffi_argi : nat) (lua_argi : Z)
    (args : list GArgument) : M (Z * list GArgument) :=
  match todo with
  | [] => ret (lua_argi, args)
  | ai :: todo' =>
      let ti := g_arg_info_get_type ai in
      let slot := default [] (args !! ffi_argi) in
      r <- (match g_arg_info_get_direction ai with
            | GI_DIRECTION_IN | GI_DIRECTION_INOUT =>
                r <- lgi_val_from_lua lua_argi ti slot
                       (g_arg_info_is_optional ai || g_arg_info_may_be_null ai) ;;
                ret (lua_argi + fst r, snd r)
            | GI_DIRECTION_OUT =>
                if g_arg_info_is_caller_allocates ai then
                  match g_type_info_get_interface ti with
                  | None => crash "g_type_info_get_interface returned NULL"
                  | Some ii =>
                      r <- lgi_type_new fuel ii slot ;;
                      ret (lua_argi, snd r)
                  end
                else ret (lua_argi, slot)
            end) ;;
      marshal_in fuel todo' (S ffi_argi) (fst r) (<[ffi_argi := snd r]> args)
  end.

(** The last loop of [function_call]. *)
Fixpoint marshal_out (fuel : nat) (todo : list GIArgInfo) (ffi_argi : nat) (lua_argi : Z)
    (args : list GArgument) : M Z :=
  match todo with
  | [] => ret lua_argi
  | ai :: todo' =>
      n <- (match g_arg_info_get_direction ai with
            | GI_DIRECTION_OUT | GI_DIRECTION_INOUT =>
                lgi_val_to_lua fuel (g_arg_info_get_type ai)
                               (g_arg_info_get_ownership_transfer ai)
                               (default [] (args !! ffi_argi))
            | GI_DIRECTION_IN => ret 0
            end) ;;
      marshal_out fuel todo' (S ffi_argi) (lua_argi + n) args
  end.

Definition function_call (fuel : nat) : M Z :=
  p <- luaL_checkudata 1 UD_FUNCTION ;;
  function <- function_at p ;;
  let flags := g_function_info_get_flags (info function) in
  let has_self := negb (Z.land flags GI_FUNCTION_IS_METHOD =? 0)
                  && (Z.land flags GI_FUNCTION_IS_CONSTRUCTOR =? 0) in
  let throws := negb (Z.land flags GI_FUNCTION_THROWS =? 0) in
  let argc := length (fi_args (info function)) in
  let argffi := (argc + 1 + (if has_self then 1 else 0) + (if throws then 1 else 0))%nat in
  let args := map g_newa_garbage (seq 0 argffi) in
  let lua_argi := 2 in
  let ffi_argi := 1%nat in
  r <- (if has_self then
          match g_base_info_get_container (fi_base (info function)) with
          | None => crash "a method without a container"
          | Some pi =>
              self <- compound_load lua_argi pi true ;;
              ret (lua_argi + 1, S ffi_argi,
                   <[1%nat := garg_set 8 self (default [] (args !! 1%nat))]> args)
          end
        else ret (lua_argi, ffi_argi, args)) ;;
  let '(lua_argi, ffi_argi, args) := r in
  r <- marshal_in fuel (fi_args (info function)) ffi_argi lua_argi args ;;
  let args := snd r in
  let ffi_argi := (ffi_argi + argc)%nat in
  let args := if throws
              then <[ffi_argi := garg_set 8 addr_of_err (default [] (args !! ffi_argi))]> args
              else args in
  called <- (fun L => Ok (ffi_call function args L) L) ;;
  let '(args, reported, after) := called in
  (fun _ => Ok tt after) ;;;
  let err := if throws then reported else None in
  match err with
  | Some _ => lgi_error err
  | None =>
      let ffi_argi := if has_self then 2%nat else 1%nat in
      n <- lgi_val_to_lua fuel (g_callable_info_get_return_type (info function))
                          (g_callable_info_get_caller_owns (info function))
                          (default [] (args !! 0%nat)) ;;
      marshal_out fuel (fi_args (info function)) ffi_argi n args
  end.

Definition lgi_find : M Z :=
  symbol <- luaL_checkstring 1 ;;
  container <- luaL_optstring 2 ;;
  let found := g_irepository_find_by_name "GIRepository" (default symbol container) in
  let found :=
    match container, found with
    | Some _, Some found =>
        match g_base_info_get_type found with
        | GI_INFO_TYPE_OBJECT | GI_INFO_TYPE_INTERFACE | GI_INFO_TYPE_STRUCT =>
            find_method found symbol
        | _ => None
        end
    | _, _ => found
    end in
  match found with
  | None =>
      lua_pushboolean 0 ;;;
      push (LStr ("unable to resolve GIRepository." +:+ default "" container
                  +:+ match container with Some _ => ":" | None => "" end +:+ symbol)) ;;;
      ret 2
  | Some found =>
      L <- get_state ;;
      match lgi_baseinfo_info L with
      | None => crash "lgi_baseinfo_info is NULL"
      | Some baseinfo =>
          r <- compound_store baseinfo (bi_addr found) GI_TRANSFER_EVERYTHING ;;
          ret (fst r)
      end
  end.

End Invoker.

(** * Verification *)

(** ** Symbolic execution

    A monadic function unfolds only once it is applied to a state, so that
    [cbn] runs a program from its first statement and stops where a fact
    about the state is needed. *)

Arguments bind {A B} m k L /.
Arguments ret {A} a L /.
Arguments raise {A} e L /.
Arguments crash {A} w L /.
Arguments unmodelled {A} w L /.
Arguments get_state L /.
Arguments modify f L /.
Arguments push v L /.
Arguments value_at idx L /.
Arguments table_at idx L /.
Arguments table_content t L /.
Arguments udata_at p L /.
Arguments lua_gettop L /.
Arguments lua_settop idx L /.
Arguments lua_pop n L /.
Arguments lua_pushnil L /.
Arguments lua_pushboolean b L /.
Arguments lua_pushinteger n L /.
Arguments lua_pushlightuserdata p L /.
Arguments lua_pushvalue idx L /.
Arguments lua_pushliteral s L /.
Arguments lua_pushstring p L /.
Arguments lua_replace idx L /.
Arguments lua_insert idx L /.
Arguments lua_isnil idx L /.
Arguments lua_isnoneornil idx L /.
Arguments lua_rawgeti idx n L /.
Arguments lua_rawget idx L /.
Arguments lua_rawset idx L /.
Arguments lua_rawseti idx n L /.
Arguments lua_getfield idx k L /.
Arguments lua_createtable L /.
Arguments lua_newuserdata size L /.
Arguments lua_setmetatable idx L /.
Arguments luaL_getmetatable tname L /.
Arguments lua_getmetatable idx L /.
Arguments lua_rawequal i1 i2 L /.
Arguments lua_touserdata idx L /.
Arguments lua_tointeger idx L /.
Arguments lua_toboolean idx L /.
Arguments lua_tostring idx L /.
Arguments lua_objlen idx L /.
Arguments lua_concat n L /.
Arguments lua_call nargs nresults L /.
Arguments luaL_error {A} msg L /.
Arguments luaL_argerror {A} narg extramsg L /.
Arguments luaL_typerror {A} narg tname L /.
Arguments luaL_checkinteger narg L /.
Arguments luaL_checkstring narg L /.
Arguments luaL_optstring narg L /.
Arguments luaL_checkudata ud tname L /.
Arguments abs_index t L /.
Arguments mem_load w a L /.
Arguments garg_at a L /.
Arguments read_cstring a L /.
Arguments v_pointer val /.
Arguments load w a L /.
Arguments deref_pointer val L /.
Arguments GArray_data p L /.
Arguments GArray_len p L /.
Arguments G_TYPE_FROM_INSTANCE p L /.
Arguments g_free p L /.
Arguments g_object_ref p L /.
Arguments g_object_unref p L /.
Arguments g_array_unref p L /.
Arguments g_error_free e L /.
Arguments g_warning msg L /.
Arguments g_assert b what L /.
Arguments read_member d val L /.
Arguments decl_push d x L /.
Arguments decl_dtor d x L /.
Arguments decl_check d index L /.
Arguments decl_val_set d val narg L /.
Arguments string_pointer s L /.
Arguments get_lgi_regkey L /.
Arguments lgi_error err L /.
Arguments lgi_get_cached obj L /.
Arguments lgi_set_cached obj L /.
Arguments lgi_simple_val_to_lua tag transfer val L /.
Arguments lgi_simple_val_from_lua index tag val optional L /.
Arguments lgi_val_from_lua index ti val optional L /.
Arguments lgi_array_to_lua elem etag ti transfer val fuel L /.
Arguments compound_update p f L /.
Arguments compound_member {A} p proj L /.
Arguments function_at p L /.
Arguments compound_prepare arg L /.
Arguments compound_callmeta metaname nargs nrets L /.
Arguments compound_store info a transfer L /.
Arguments compound_gc L /.
Arguments compound_load index ii optional L /.
Arguments value_load val narg ti L /.
Arguments value_store val ti L /.

#[local] Arguments Z.eqb : simpl nomatch.
#[local] Arguments Z.ltb : simpl nomatch.
#[local] Arguments Z.leb : simpl nomatch.
#[local] Arguments Z.add : simpl nomatch.
#[local] Arguments Z.sub : simpl nomatch.
#[local] Arguments Z.mul : simpl nomatch.
#[local] Arguments Z.opp : simpl nomatch.
#[local] Arguments Z.land : simpl nomatch.
#[local] Arguments Z.of_nat : simpl nomatch.
#[local] Arguments Z.to_nat : simpl nomatch.
#[local] Arguments Z.div : simpl nomatch.
#[local] Arguments Z.modulo : simpl nomatch.
#[local] Arguments Pos.to_nat : simpl nomatch.
#[local] Arguments Pos.add : simpl nomatch.
#[local] Arguments Pos.sub : simpl nomatch.
#[local] Arguments Pos.succ : simpl nomatch.
#[local] Arguments Pos.pred : simpl nomatch.
#[local] Arguments Pos.mul : simpl nomatch.

Arguments set_stack s !L /.
Arguments set_table t c !L /.
Arguments set_udata p b !L /.
Arguments log_event e !L /.
Arguments index2adr stk !idx /.
Arguments index_depth stk !idx /.
Arguments is_none stk !idx /.

Ltac lsimpl :=
  cbn -[gmap_lookup gmap_partial_alter gmap_empty map_insert
        tbl_get tbl_set tbl_len pretty String.append
        bool_decide garg_get garg_set
        wrap_signed wrap_unsigned cstring_at load_bytes mapped_prefix
        g_type_is_a g_type_name G_TYPE_IS_DERIVED luaL_ref luaL_unref].

(** Settles the tests of equality between constructors. *)
Ltac ldecide :=
  repeat match goal with
         | |- context [decide (?x = ?y)] =>
             destruct (decide (x = y)); [try discriminate | try congruence]
         | |- context [bool_decide (?x = ?x)] =>
             rewrite (bool_decide_true (x = x)) by reflexivity
         | |- context [bool_decide (?x = ?y)] =>
             rewrite (bool_decide_false (x = y)) by discriminate
         | |- context [bool_decide (?x <> ?x)] =>
             rewrite (bool_decide_false (x <> x)) by congruence
         | |- context [bool_decide (?x <> ?y)] =>
             rewrite (bool_decide_true (x <> y)) by discriminate
         end.

(** Runs the program, using the hypotheses that tell what a lookup yields. *)
Ltac lrun :=
  repeat (lsimpl;
          try match goal with
              | H : ?l = _ |- context [?l] => rewrite H
              | |- context [bool_decide (?x = ?x)] =>
                  rewrite (bool_decide_true (x = x)) by reflexivity
              | |- context [bool_decide (?x = ?y)] =>
                  rewrite (bool_decide_false (x = y)) by discriminate
              | |- context [bool_decide (?x <> ?x)] =>
                  rewrite (bool_decide_false (x <> x)) by congruence
              | |- context [bool_decide (?x <> ?y)] =>
                  rewrite (bool_decide_true (x <> y)) by discriminate
              | |- context [<[?i := _]> _ !! ?i] => rewrite lookup_insert_eq
              | |- context [<[?i := _]> _ !! ?j] =>
                  rewrite lookup_insert_ne by (assumption || congruence)
              end).

(** ** C8: generic values of structure type *)

(** C8.  Loading a Lua value into a [GValue] whose type is a structure, and
    storing such a [GValue] to Lua, both leave through a raised error that
    says what is not handled; nothing is pushed and no value is produced. *)
Theorem value_struct_rejected (ti : GITypeInfo) (ii : GIBaseInfo) (val : GValue)
    (narg : Z) (L : State) :
  g_type_info_get_tag ti = GI_TYPE_TAG_INTERFACE ->
  g_type_info_get_interface ti = Some ii ->
  g_base_info_get_type ii = GI_INFO_TYPE_STRUCT ->
  value_load val narg ti L = Raise (ErrMsg "don't know how to handle struct->GValue") L
  /\ value_store val ti L = Raise (ErrMsg "don't know how to handle GValue->struct") L.
Proof.
  intros Htag Hii Htype.
  unfold value_load, value_store.
  rewrite Htag, Hii, Htype. split; reflexivity.
Qed.

Definition struct_info_example : GIBaseInfo :=
  mkGIBaseInfo 600 GI_INFO_TYPE_STRUCT "Gdk" "Rectangle" None 4
               GI_TYPE_TAG_VOID 16 [] None.

Definition interface_type (ii : GIBaseInfo) : GITypeInfo :=
  mkGITypeInfo GI_TYPE_TAG_INTERFACE (Some ii) None GI_ARRAY_TYPE_C (-1) false.

Definition empty_state : State :=
  mkState [] ∅ 1 ∅ 1000000 ∅ ∅ ∅ [] 1 None.

Lemma value_struct_rejected_witness :
  value_load (mkGValue 0 0) 3 (interface_type struct_info_example) empty_state
    = Raise (ErrMsg "don't know how to handle struct->GValue") empty_state
  /\ value_store (mkGValue 0 0) (interface_type struct_info_example) empty_state
    = Raise (ErrMsg "don't know how to handle GValue->struct") empty_state.
Proof.
  apply (value_struct_rejected (interface_type struct_info_example) struct_info_example);
    reflexivity.
Defined.

(** ** C9: enumerations and flags are marshalled without release *)

Definition native_side (L : State) : gmap Z Z * gmap Z Z * list event :=
  (mem L, instances L, trace L).

(** With transfer mode nothing the scalar codec leaves the native side as it
    found it. *)
Lemma lgi_simple_val_to_lua_nothing (tag : GITypeTag) (val : GArgument) (L L' : State) (n : Z) :
  lgi_simple_val_to_lua tag GI_TRANSFER_NOTHING val L = Ok n L' ->
  native_side L' = native_side L.
Proof.
  unfold lgi_simple_val_to_lua.
  destruct (DECLTYPE tag) as [d|]; [|intros [= <- <-]; reflexivity].
  destruct d as [w k]. lsimpl.
  destruct (garg_get w val) as [x|]; [|discriminate].
  destruct k as [|sg| |]; lsimpl; try discriminate; try (intros [= <- <-]; reflexivity).
  destruct (x =? 0); lsimpl; [intros [= <- <-]; reflexivity|].
  destruct (cstring_at (mem L) x); lsimpl; [intros [= <- <-]; reflexivity|discriminate].
Qed.

(** C9.  Whatever the transfer mode of the caller, a value whose type is an
    enumeration or a set of flags is marshalled by the scalar codec at the
    storage type with transfer mode nothing; the native memory, the live
    instances and the trace of releases are the same afterwards. *)
Theorem enum_to_lua_releases_nothing (fuel : nat) (ti : GITypeInfo) (ii : GIBaseInfo)
    (transfer : GITransfer) (val : GArgument) (L : State) :
  g_type_info_get_tag ti = GI_TYPE_TAG_INTERFACE ->
  g_type_info_get_interface ti = Some ii ->
  g_base_info_get_type ii = GI_INFO_TYPE_ENUM \/ g_base_info_get_type ii = GI_INFO_TYPE_FLAGS ->
  lgi_val_to_lua fuel ti transfer val L
    = lgi_simple_val_to_lua (g_enum_info_get_storage_type ii) GI_TRANSFER_NOTHING val L
  /\ forall n L', lgi_val_to_lua fuel ti transfer val L = Ok n L' ->
                  native_side L' = native_side L.
Proof.
  intros Htag Hii Htype.
  assert (Heq : lgi_val_to_lua fuel ti transfer val L
    = lgi_simple_val_to_lua (g_enum_info_get_storage_type ii) GI_TRANSFER_NOTHING val L).
  { destruct ti as [tag iface param atype fixed zt]. simpl in Htag, Hii. subst tag iface.
    unfold lgi_val_to_lua. lsimpl. destruct Htype as [-> | ->]; reflexivity. }
  split; [exact Heq|].
  intros n L' Hrun. rewrite Heq in Hrun.
  eapply lgi_simple_val_to_lua_nothing; eassumption.
Qed.

Definition enum_info_example : GIBaseInfo :=
  mkGIBaseInfo 700 GI_INFO_TYPE_ENUM "Gtk" "Orientation" None 2100
               GI_TYPE_TAG_UINT32 0 [] None.

Lemma enum_to_lua_releases_nothing_witness :
  lgi_val_to_lua 0 (interface_type enum_info_example) GI_TRANSFER_EVERYTHING
                 [1; 0; 0; 0; 0; 0; 0; 0] empty_state
    = lgi_simple_val_to_lua GI_TYPE_TAG_UINT32 GI_TRANSFER_NOTHING
                 [1; 0; 0; 0; 0; 0; 0; 0] empty_state
  /\ forall n L', lgi_val_to_lua 0 (interface_type enum_info_example) GI_TRANSFER_EVERYTHING
                                 [1; 0; 0; 0; 0; 0; 0; 0] empty_state = Ok n L' ->
                  native_side L' = native_side empty_state.
Proof.
  apply (enum_to_lua_releases_nothing 0 (interface_type enum_info_example) enum_info_example);
    [reflexivity | reflexivity | left; reflexivity].
Defined.

(** ** A concrete world

    The state that the module is in once it is loaded and the Lua side has
    filled the repo table: the registry holds the two metatables and, under
    [lgi_regkey], the private table with the cache, the type-binding table and
    the repo.  The repo describes an object type [Gtk.Window], its ancestor
    [GObject.Object], a structure type [Gdk.Rectangle] that declares both
    hooks, a structure type [Gdk.Color] that declares none, and the type of
    the catalog nodes themselves. *)

Definition G_TYPE_OBJECT : Z := 80.
Definition GTK_TYPE_WINDOW : Z := 2000.

Definition repo_meta (type : GIInfoType) (name : string) (gtype : Z) (hooks : table) : table :=
  [(LStr "type", LNum (GIInfoType_to_Z type)); (LStr "name", LStr name);
   (LStr "gtype", LNum gtype)] ++ hooks.

Definition demo_tables : gmap nat table :=
  list_to_map [
    (0%nat, [(LStr UD_COMPOUND, LTable 1); (LStr UD_FUNCTION, LTable 2); (LNum 1, LTable 3)]);
    (1%nat, [(LStr "__gc", LFun "compound_gc")]);
    (2%nat, [(LStr "__call", LFun "function_call")]);
    (3%nat, [(LNum LGI_REG_CACHE, LTable 4); (LNum LGI_REG_TYPEINFO, LTable 5);
             (LNum LGI_REG_REPO, LTable 6)]);
    (4%nat, []);
    (5%nat, []);
    (6%nat, [(LStr "Gtk", LTable 7); (LStr "GObject", LTable 8); (LStr "Gdk", LTable 9);
             (LStr "GIRepository", LTable 10)]);
    (7%nat, [(LStr "Window", LTable 11)]);
    (8%nat, [(LStr "Object", LTable 12)]);
    (9%nat, [(LStr "Rectangle", LTable 13); (LStr "Color", LTable 14)]);
    (10%nat, [(LStr "IBaseInfo", LTable 15)]);
    (11%nat, [(LNum 0, LTable 16)]);
    (12%nat, [(LNum 0, LTable 17)]);
    (13%nat, [(LNum 0, LTable 18)]);
    (14%nat, [(LNum 0, LTable 19)]);
    (15%nat, [(LNum 0, LTable 20)]);
    (16%nat, repo_meta GI_INFO_TYPE_OBJECT "Gtk.Window" GTK_TYPE_WINDOW []);
    (17%nat, repo_meta GI_INFO_TYPE_OBJECT "GObject.Object" G_TYPE_OBJECT []);
    (18%nat, repo_meta GI_INFO_TYPE_STRUCT "Gdk.Rectangle" 4
                       [(LStr "acquire", LFun "acquire"); (LStr "dispose", LFun "dispose")]);
    (19%nat, repo_meta GI_INFO_TYPE_STRUCT "Gdk.Color" 4 []);
    (20%nat, repo_meta GI_INFO_TYPE_STRUCT "GIRepository.IBaseInfo" 4
                       [(LStr "dispose", LFun "dispose")])
  ].

Definition demo_gtypes : gmap Z type_node :=
  list_to_map [
    (G_TYPE_OBJECT, mk_type_node "GObject" []);
    (GTK_TYPE_WINDOW, mk_type_node "GtkWindow" [G_TYPE_OBJECT])
  ].

Definition mk_registered (a : Z) (type : GIInfoType) (ns name : string) (gtype size : Z)
  : GIBaseInfo :=
  mkGIBaseInfo a type ns name None gtype GI_TYPE_TAG_VOID size [] None.

Definition Gtk_Window : GIBaseInfo :=
  mk_registered 500 GI_INFO_TYPE_OBJECT "Gtk" "Window" GTK_TYPE_WINDOW 0.
Definition GObject_Object : GIBaseInfo :=
  mk_registered 510 GI_INFO_TYPE_OBJECT "GObject" "Object" G_TYPE_OBJECT 0.
Definition Gdk_Rectangle : GIBaseInfo :=
  mk_registered 520 GI_INFO_TYPE_STRUCT "Gdk" "Rectangle" 4 16.
Definition Gdk_Color : GIBaseInfo :=
  mk_registered 530 GI_INFO_TYPE_STRUCT "Gdk" "Color" 4 12.
Definition GIRepository_IBaseInfo : GIBaseInfo :=
  mk_registered 540 GI_INFO_TYPE_STRUCT "GIRepository" "IBaseInfo" 4 0.

(** A window lives at address 4096; nothing else is mapped. *)
Definition demo_state (stk : list lua_value) : State :=
  mkState stk demo_tables 21 ∅ 1000000 ∅ {[ 4096 := GTK_TYPE_WINDOW ]} demo_gtypes []
          1 (Some GIRepository_IBaseInfo).

(** What a test looks at after a run. *)
Definition final_stack {A} (o : outcome A) : option (list lua_value) :=
  match o with
  | Ok _ L => Some (stack L)
  | _ => None
  end.

Definition final_trace {A} (o : outcome A) : option (list event) :=
  match o with
  | Ok _ L => Some (trace L)
  | _ => None
  end.

Definition wrapper_at {A} (p : Z) (o : outcome A) : option ud_compound :=
  match o with
  | Ok _ L =>
      match udata L !! p with
      | Some (mk_udata _ _ (UdCompound c)) => Some c
      | _ => None
      end
  | _ => None
  end.

Definition cache_at {A} (k : lua_value) (o : outcome A) : option lua_value :=
  match o with
  | Ok _ L => tbl_get k <$> tables L !! 4%nat
  | _ => None
  end.

Definition returned {A} (o : outcome A) : option A :=
  match o with
  | Ok a _ => Some a
  | _ => None
  end.

Definition raised {A} (o : outcome A) : option lua_error :=
  match o with
  | Raise e _ => Some e
  | _ => None
  end.

Definition crashed {A} (o : outcome A) : bool :=
  match o with
  | Crash _ => true
  | _ => false
  end.

(** ** C1: the identity cache *)

Definition store_window_twice : outcome (Z * Z) :=
  (compound_store Gtk_Window 4096 GI_TRANSFER_EVERYTHING ;;;
   compound_store Gtk_Window 4096 GI_TRANSFER_EVERYTHING) (demo_state []).

(** C1.  The first [compound_store] for the window at 4096 creates the
    wrapper in the block at 1000000 and files it in the cache under the
    address of that block; the cache has no entry for 4096.  The second call
    therefore creates a second wrapper, at 1000016, and both wrappers are
    alive with the same native address. *)
Theorem compound_store_twice_two_wrappers :
  returned store_window_twice = Some (1, 4096)
  /\ final_stack store_window_twice = Some [LUdata 1000016; LUdata 1000000]
  /\ wrapper_at 1000000 store_window_twice
       = Some (mk_ud_compound (Some 4096) (Some 1) (Some true))
  /\ wrapper_at 1000016 store_window_twice
       = Some (mk_ud_compound (Some 4096) (Some 2) (Some true))
  /\ cache_at (LLight 4096) store_window_twice = Some LNil
  /\ cache_at (LLight 1000000) store_window_twice = Some (LUdata 1000000)
  /\ cache_at (LLight 1000016) store_window_twice = Some (LUdata 1000016).
Proof. vm_compute. repeat split. Qed.

(** ** C3: NULL arrays and NULL compounds *)

(** A NULL compound becomes nil unless the transfer mode is container. *)
Lemma null_compound_is_nil (info : GIBaseInfo) (transfer : GITransfer) (L : State) :
  transfer <> GI_TRANSFER_CONTAINER ->
  compound_store info 0 transfer L = Ok (1, 0) (set_stack (LNil :: stack L) L).
Proof.
  intros Ht. unfold compound_store.
  rewrite bool_decide_true by exact Ht. reflexivity.
Qed.

(** A NULL pointer to a C array becomes nil, whatever the transfer mode. *)
Lemma null_c_array_is_nil (elem : GITransfer -> GArgument -> M Z) (etag : GITypeTag)
    (ti : GITypeInfo) (transfer : GITransfer) (val : GArgument) (fuel : nat) (L : State) :
  g_type_info_get_array_type ti <> GI_ARRAY_TYPE_ARRAY ->
  v_pointer val = Some 0 ->
  lgi_array_to_lua elem etag ti transfer val fuel L = Ok 1 (set_stack (LNil :: stack L) L).
Proof.
  intros Hat Hp. unfold lgi_array_to_lua, deref_pointer. rewrite Hp.
  destruct (decide (g_type_info_get_array_type ti = GI_ARRAY_TYPE_ARRAY)); [contradiction|].
  reflexivity.
Qed.

(** For a [GArray] the length is read through the pointer before the pointer
    is tested. *)
Lemma null_garray_reads_length (elem : GITransfer -> GArgument -> M Z) (etag : GITypeTag)
    (ti : GITypeInfo) (transfer : GITransfer) (val : GArgument) (fuel : nat) (L : State) :
  g_type_info_get_array_type ti = GI_ARRAY_TYPE_ARRAY ->
  v_pointer val = Some 0 ->
  load_bytes (mem L) 4 8 = None ->
  lgi_array_to_lua elem etag ti transfer val fuel L
    = Crash "read of memory that is not mapped".
Proof.
  intros Hat Hp Hm. unfold lgi_array_to_lua, deref_pointer. rewrite Hp, Hat.
  destruct (decide (GI_ARRAY_TYPE_ARRAY = GI_ARRAY_TYPE_ARRAY)); [|congruence].
  lsimpl. change (0 + 8) with 8. rewrite Hm. reflexivity.
Qed.

Definition int32_type : GITypeInfo :=
  mkGITypeInfo GI_TYPE_TAG_INT32 None None GI_ARRAY_TYPE_C (-1) false.

Definition garray_of_int32 : GITypeInfo :=
  mkGITypeInfo GI_TYPE_TAG_ARRAY None (Some int32_type) GI_ARRAY_TYPE_ARRAY (-1) false.

Definition null_slot : GArgument := [0; 0; 0; 0; 0; 0; 0; 0].

(** C3.  Marshalling the NULL pointer of a [GArray] of 32-bit integers with
    transfer mode nothing does not produce nil: the program reads the length
    field at NULL + 8 first, and does not survive that. *)
Theorem null_garray_crashes :
  lgi_val_to_lua 8 garray_of_int32 GI_TRANSFER_NOTHING null_slot (demo_state [])
    = Crash "read of memory that is not mapped".
Proof. vm_compute. reflexivity. Qed.

(** ** C4: acquisition and release of ownership *)

(** With transfer mode nothing an object is referenced and the wrapper owns
    that reference. *)
Example store_object_takes_reference :
  let o := compound_store Gtk_Window 4096 GI_TRANSFER_NOTHING (demo_state []) in
  wrapper_at 1000000 o = Some (mk_ud_compound (Some 4096) (Some 1) (Some true))
  /\ final_trace o = Some [EvObjectRef 4096].
Proof. vm_compute. split; reflexivity. Qed.

(** A wrapper created with transfer mode everything releases once when it is
    finalized: an object is unreferenced, a structure is handed to its dispose
    hook if the type declares one. *)
Example finalize_owned_wrappers :
  final_trace ((compound_store Gtk_Window 4096 GI_TRANSFER_EVERYTHING ;;; compound_gc)
                 (demo_state []))
    = Some [EvObjectUnref 4096]
  /\ final_trace ((compound_store Gdk_Rectangle 8192 GI_TRANSFER_EVERYTHING ;;; compound_gc)
                    (demo_state []))
    = Some [EvLuaCall "dispose" [LUdata 1000000]]
  /\ final_trace ((compound_store Gdk_Color 8192 GI_TRANSFER_EVERYTHING ;;; compound_gc)
                    (demo_state []))
    = Some [].
Proof. vm_compute. repeat split. Qed.

Definition raised_with {A} (o : outcome A) : option (lua_error * list lua_value * list event) :=
  match o with
  | Raise e L => Some (e, stack L, trace L)
  | _ => None
  end.

(** C4.  With transfer mode nothing, a structure is never handed to its
    acquire hook.  [compound_callmeta] is entered with the type-binding table
    where it expects the repo table of the type, looks for the hook in the
    entry 0 of that table, which is nil, and the program leaves through the
    error of indexing nil: whether the type declares the hook
    ([Gdk.Rectangle]) or not ([Gdk.Color]), no hook is called and no wrapper
    is returned. *)
Theorem store_struct_never_acquires :
  raised_with (compound_store Gdk_Rectangle 8192 GI_TRANSFER_NOTHING (demo_state []))
    = Some (ErrIndex LNil,
            [LNil; LTable 13; LTable 5; LTable 13; LTable 3; LUdata 1000000], [])
  /\ raised_with (compound_store Gdk_Color 8192 GI_TRANSFER_NOTHING (demo_state []))
    = Some (ErrIndex LNil,
            [LNil; LTable 14; LTable 5; LTable 14; LTable 3; LUdata 1000000], []).
Proof. vm_compute. split; reflexivity. Qed.

(** ** C5: the ancestry check of [compound_load] *)

(** The compound userdata at a stack index: its block and its members. *)
Definition compound_at (L : State) (index : Z) : option (Z * ud_compound) :=
  match index2adr (stack L) index with
  | Some (LUdata p) =>
      match udata L !! p, tables L !! registry with
      | Some (mk_udata _ (Some mt) (UdCompound c)), Some reg =>
          if bool_decide (tbl_get (LStr UD_COMPOUND) reg = LTable mt) && negb (p =? 0)
          then Some (p, c) else None
      | _, _ => None
      end
  | _ => None
  end.

Definition table_of (L : State) (v : lua_value) : option table :=
  match v with
  | LTable t => tables L !! t
  | _ => None
  end.

(** The repo table that a reference of the type-binding table stands for,
    and the name that it gives to the type. *)
Definition bound_repo (L : State) (ref : Z) : option table :=
  reg ← tables L !! registry;
  private ← table_of L (tbl_get (LNum (lgi_regkey L)) reg);
  typeinfo ← table_of L (tbl_get (LNum LGI_REG_TYPEINFO) private);
  repo ← table_of L (tbl_get (LNum ref) typeinfo);
  table_of L (tbl_get (LNum 0) repo).

Definition bound_name (L : State) (ref : Z) : option string :=
  meta ← bound_repo L ref;
  match tbl_get (LStr "name") meta with
  | LStr name => Some name
  | _ => None
  end.

Definition qualified_name (ii : GIBaseInfo) : string :=
  g_base_info_get_namespace ii +:+ "." +:+ g_base_info_get_name ii.

(** What [compound_load] compares: run-time types when the requested type has
    a derived GType, names otherwise. *)
Definition ancestry_ok (L : State) (ii : GIBaseInfo) (real : Z) (name : string) : bool :=
  if G_TYPE_IS_DERIVED (g_registered_type_info_get_g_type ii)
  then g_type_is_a L real (g_registered_type_info_get_g_type ii)
  else bool_decide (name = qualified_name ii).

Lemma table_of_Some (L : State) (v : lua_value) (c : table) :
  table_of L v = Some c -> exists t, v = LTable t /\ tables L !! t = Some c.
Proof. destruct v; try discriminate. simpl. eauto. Qed.

Lemma state_eta (L : State) : set_stack (stack L) L = L.
Proof. destruct L; reflexivity. Qed.

Lemma compound_at_inv (L : State) (index p : Z) (c : ud_compound) :
  compound_at L index = Some (p, c) ->
  exists sz mt reg,
    index2adr (stack L) index = Some (LUdata p)
    /\ udata L !! p = Some (mk_udata sz (Some mt) (UdCompound c))
    /\ tables L !! registry = Some reg
    /\ tbl_get (LStr UD_COMPOUND) reg = LTable mt
    /\ (p =? 0) = false.
Proof.
  unfold compound_at. intros H.
  destruct (index2adr (stack L) index) as [[]|] eqn:Hidx; try discriminate.
  destruct (udata L !! p0) as [[sz [mt|] []]|] eqn:Hud; try discriminate.
  destruct (tables L !! registry) as [reg|] eqn:Hreg; try discriminate.
  destruct (bool_decide _) eqn:Hmt; try discriminate.
  destruct (p0 =? 0) eqn:Hp; try discriminate.
  simpl in H. injection H as -> ->.
  apply bool_decide_eq_true in Hmt. eauto 10.
Qed.

Lemma bound_name_inv (L : State) (ref : Z) (name : string) :
  bound_name L ref = Some name ->
  exists reg t1 private t2 typeinfo t3 repo t4 meta,
    tables L !! registry = Some reg
    /\ tbl_get (LNum (lgi_regkey L)) reg = LTable t1 /\ tables L !! t1 = Some private
    /\ tbl_get (LNum LGI_REG_TYPEINFO) private = LTable t2 /\ tables L !! t2 = Some typeinfo
    /\ tbl_get (LNum ref) typeinfo = LTable t3 /\ tables L !! t3 = Some repo
    /\ tbl_get (LNum 0) repo = LTable t4 /\ tables L !! t4 = Some meta
    /\ tbl_get (LStr "name") meta = LStr name.
Proof.
  unfold bound_name, bound_repo. intros H.
  apply bind_Some in H as (meta & H & Hname).
  apply bind_Some in H as (reg & Hreg & H).
  apply bind_Some in H as (private & H1 & H).
  apply bind_Some in H as (typeinfo & H2 & H).
  apply bind_Some in H as (repo & H3 & H4).
  apply table_of_Some in H1 as (t1 & H1 & H1').
  apply table_of_Some in H2 as (t2 & H2 & H2').
  apply table_of_Some in H3 as (t3 & H3 & H3').
  apply table_of_Some in H4 as (t4 & H4 & H4').
  destruct (tbl_get (LStr "name") meta) eqn:H5; try discriminate.
  injection Hname as ->.
  exists reg, t1, private, t2, typeinfo, t3, repo, t4, meta. tauto.
Qed.

Lemma luaL_checkudata_compound (L : State) (index p : Z) (c : ud_compound) :
  compound_at L index = Some (p, c) ->
  luaL_checkudata index UD_COMPOUND L = Ok p L.
Proof.
  intros (sz & mt & reg & Hidx & Hud & Hreg & Hmt & Hp)%compound_at_inv.
  destruct L. simpl in *. lrun. reflexivity.
Qed.

(** The two comparisons of [compound_load], for a compound userdata at
    [index] that wraps the address [a]: when the requested type has a derived
    GType and [a] is an instance of the type system, its run-time type [real]
    is compared with the requested one; when the requested GType is not
    derived, the name that the repo binds to the wrapper is compared with the
    qualified name of the requested type.  On a match the address is
    returned; on a mismatch the result is NULL when [optional] is set and a
    raised positional argument error otherwise, which names the run-time type
    of the instance when run-time types were compared. *)
Lemma compound_load_ancestry (L : State) (index p a ref : Z) (o : option bool)
    (ii : GIBaseInfo) (optional : bool) (real : Z) (name : string) :
  compound_at L index = Some (p, mk_ud_compound (Some a) (Some ref) o) ->
  (if G_TYPE_IS_DERIVED (g_registered_type_info_get_g_type ii)
   then instances L !! a = Some real
   else bound_name L ref = Some name) ->
  if ancestry_ok L ii real name then compound_load index ii optional L = Ok a L
  else if optional then compound_load index ii optional L = Ok 0 L
  else exists extramsg L',
         compound_load index ii optional L = Raise (ErrArg index extramsg) L'
         /\ (G_TYPE_IS_DERIVED (g_registered_type_info_get_g_type ii) = true ->
             extramsg = g_type_name L real).
Proof.
  intros Hc Hb.
  pose proof (luaL_checkudata_compound _ _ _ _ Hc) as Hcheck.
  assert (Hfound : forall k : option Z -> M Z,
    bind (if optional then
              compound <- lua_touserdata index ;;
              if compound =? 0 then ret None
              else
                has <- lua_getmetatable index ;;
                if has =? 0 then ret None
                else
                  lua_getfield LUA_REGISTRYINDEX UD_COMPOUND ;;;
                  same <- lua_rawequal (-1) (-2) ;;
                  lua_pop 2 ;;;
                  ret (if same : bool then Some compound else None)
            else
              compound <- luaL_checkudata index UD_COMPOUND ;;
              ret (Some compound))%lua k L = k (Some p) L).
  { intros k. destruct optional.
    - apply compound_at_inv in Hc as (sz & mt & reg & Hidx & Hud & Hreg & Hmt & Hp).
      destruct L. simpl in *. lrun. reflexivity.
    - cbn [bind]. rewrite Hcheck. reflexivity. }
  unfold compound_load. rewrite Hfound. clear Hfound.
  unfold ancestry_ok.
  assert (Hmem : compound_member p addr L = Ok a L).
  { apply compound_at_inv in Hc as (sz & mt & reg & Hidx & Hud & Hreg & Hmt & Hp).
    lsimpl. rewrite Hud. reflexivity. }
  destruct (G_TYPE_IS_DERIVED (g_registered_type_info_get_g_type ii)) eqn:Hder.
  - cbn [bind]. rewrite Hmem. lsimpl. rewrite Hb. lsimpl.
    destruct (g_type_is_a L real _); lsimpl; [reflexivity|].
    destruct optional; lsimpl; [reflexivity|].
    eexists _, _. split; [reflexivity|]. intros _. reflexivity.
  - clear Hmem Hcheck.
    apply compound_at_inv in Hc as (sz & mt & reg & Hidx & Hud & Hreg & Hmt & Hp).
    apply bound_name_inv in Hb
      as (reg' & t1 & private & t2 & typeinfo & t3 & repo & t4 & meta & Hreg' & H1 & H1'
          & H2 & H2' & H3 & H3' & H4 & H4' & H5).
    rewrite Hreg in Hreg'. injection Hreg' as <-.
    unfold g_strcmp0_eq, qualified_name.
    destruct L. simpl in *.
    destruct (bool_decide (name = _)) eqn:Hname.
    + apply bool_decide_eq_true in Hname. lrun. reflexivity.
    + apply bool_decide_eq_false in Hname.
      assert (Hne : bool_decide
                (Some (g_base_info_get_namespace ii +:+ "." +:+ g_base_info_get_name ii)
                 = Some name) = false).
      { apply bool_decide_eq_false. congruence. }
      destruct optional.
      * lrun. reflexivity.
      * eexists _, _. split; [|discriminate]. lrun. reflexivity.
Qed.

(** The state after the window at 4096 was wrapped: the wrapper is the only
    value on the stack. *)
Definition after_store (info : GIBaseInfo) (a : Z) (transfer : GITransfer) : State :=
  match compound_store info a transfer (demo_state []) with
  | Ok _ L => L
  | _ => demo_state []
  end.

Definition window_wrapped : State := after_store Gtk_Window 4096 GI_TRANSFER_EVERYTHING.
Definition rectangle_wrapped : State := after_store Gdk_Rectangle 8192 GI_TRANSFER_EVERYTHING.

(** C5.  The check for ancestry misses a descendant.  The wrapper at index 1
    is bound to [Gtk.Window] and wraps the window at 4096, whose run-time
    type conforms to that of [GObject.Object]: a window is an object.  The
    GType of [GObject.Object] is fundamental, not derived, so [compound_load]
    compares names for equality where it means to check ancestry: the load of
    the window as a [GObject.Object] raises the error of argument 1, whose
    text is the requested name and not the name of the actual type, and with
    [optional] set the window is taken for absent. *)
Theorem compound_load_rejects_descendant :
  compound_at window_wrapped 1
    = Some (1000000, mk_ud_compound (Some 4096) (Some 1) (Some true))
  /\ bound_name window_wrapped 1 = Some "Gtk.Window"
  /\ g_type_is_a window_wrapped GTK_TYPE_WINDOW
                 (g_registered_type_info_get_g_type GObject_Object) = true
  /\ returned (compound_load 1 GObject_Object false window_wrapped) = None
  /\ raised (compound_load 1 GObject_Object false window_wrapped)
     = Some (ErrArg 1 "GObject.Object")
  /\ returned (compound_load 1 GObject_Object true window_wrapped) = Some 0.
Proof. vm_compute. repeat split. Qed.

(** The other branch has a defect of its own.  A structure that is
    registered as a boxed type has a derived GType, and what its wrapper
    holds is no instance of the type system: [G_TYPE_FROM_INSTANCE] is
    applied to the structure, and the load of a rectangle as the rectangle
    that it is does not come back. *)
Definition GDK_TYPE_RECTANGLE : Z := 3000.

Definition Gdk_Rectangle_boxed : GIBaseInfo :=
  mk_registered 520 GI_INFO_TYPE_STRUCT "Gdk" "Rectangle" GDK_TYPE_RECTANGLE 16.

Example compound_load_of_boxed_structure :
  compound_at rectangle_wrapped 1
    = Some (1000000, mk_ud_compound (Some 8192) (Some 1) (Some true))
  /\ bound_name rectangle_wrapped 1 = Some "Gdk.Rectangle"
  /\ G_TYPE_IS_DERIVED (g_registered_type_info_get_g_type Gdk_Rectangle_boxed) = true
  /\ compound_load 1 Gdk_Rectangle_boxed false rectangle_wrapped
     = Crash "not a GTypeInstance".
Proof. vm_compute. repeat split. Qed.

Lemma compound_load_ancestry_witness :
  compound_at rectangle_wrapped 1
    = Some (1000000, mk_ud_compound (Some 8192) (Some 1) (Some true))
  /\ bound_name rectangle_wrapped 1 = Some "Gdk.Rectangle"
  /\ compound_load 1 Gdk_Rectangle false rectangle_wrapped = Ok 8192 rectangle_wrapped.
Proof.
  split; [vm_compute; reflexivity|]. split; [vm_compute; reflexivity|].
  exact (compound_load_ancestry rectangle_wrapped 1 1000000 8192 1 (Some true)
           Gdk_Rectangle false 0 "Gdk.Rectangle" eq_refl eq_refl).
Defined.

(** The same load through run-time types: the window is a [Gtk.Window]. *)
Example compound_load_by_gtype :
  compound_load 1 Gtk_Window false window_wrapped = Ok 4096 window_wrapped.
Proof.
  exact (compound_load_ancestry window_wrapped 1 1000000 4096 1 (Some true)
           Gtk_Window false GTK_TYPE_WINDOW "" eq_refl eq_refl).
Qed.

(** ** C2: the shape of the results of a call *)

Arguments lgi_type_new lgi_callable_create fuel ii val L /.
Arguments function_call lgi_callable_create ffi_call g_newa_garbage addr_of_err fuel L /.
Arguments lgi_find g_irepository_find_by_name L /.

(** The member of width [w] of the [i]-th slot. *)
Definition slot_member (w : nat) (i : nat) (args : list GArgument) : option Z :=
  args !! i ≫= garg_get w.

Section CallShape.

Variable lgi_callable_create : GIBaseInfo -> M Z.
Variable ffi_call :
  ud_function -> list GArgument -> State -> list GArgument * option GError * State.
Variable g_newa_garbage : nat -> GArgument.
Variable addr_of_err : Z.

(** The signature [(in: int32, out: int32) -> bool, throws] of a function
    that is not a method. *)
Definition in_out_bool_throws (fi : GIFunctionInfo) : bool :=
  (Z.land (g_function_info_get_flags fi) GI_FUNCTION_IS_METHOD =? 0)
  && negb (Z.land (g_function_info_get_flags fi) GI_FUNCTION_THROWS =? 0)
  && bool_decide (g_type_info_get_tag (g_callable_info_get_return_type fi)
                  = GI_TYPE_TAG_BOOLEAN)
  && match fi_args fi with
     | [a1; a2] =>
         bool_decide (g_arg_info_get_direction a1 = GI_DIRECTION_IN)
         && bool_decide (g_type_info_get_tag (g_arg_info_get_type a1) = GI_TYPE_TAG_INT32)
         && bool_decide (g_arg_info_get_direction a2 = GI_DIRECTION_OUT)
         && bool_decide (g_type_info_get_tag (g_arg_info_get_type a2) = GI_TYPE_TAG_INT32)
         && negb (g_arg_info_is_caller_allocates a2)
     | _ => false
     end.

(** The slots that the call primitive receives for the input [n]: the return
    slot and the output slot hold what the stack held, the input slot holds
    [n] as a 32-bit integer, the last slot the address of [err]. *)
Definition slots_for (n : Z) : list GArgument :=
  [g_newa_garbage 0; garg_set 4 (wrap_signed 4 n) (g_newa_garbage 1);
   g_newa_garbage 2; garg_set 8 addr_of_err (g_newa_garbage 3)].

(** The frame of a call with one integer argument: the function userdata
    at index 1, the integer at index 2. *)
Definition call_frame (L : State) : option (ud_function * Z) :=
  match stack L, tables L !! registry with
  | [LNum n; LUdata p], Some reg =>
      match udata L !! p with
      | Some (mk_udata _ (Some mt) (UdFunction f)) =>
          if bool_decide (tbl_get (LStr UD_FUNCTION) reg = LTable mt) && negb (p =? 0)
          then Some (f, n) else None
      | _ => None
      end
  | _, _ => None
  end.

(** C2.  A function of signature [(in: int32, out: int32) -> bool] that
    throws is invoked with the integer [n].  When the native call reports no
    error and has left [r] in the return slot and [m] in the output slot, the
    invoker returns 2 and has pushed the boolean of [r], then the integer [m].
    When the native call reports an error, the invoker returns 3 and has
    pushed false, the message and the code; it raises nothing and marshals
    neither the return value nor the output. *)
Theorem function_call_result_shape (fuel : nat) (L L' : State) (f : ud_function)
    (n r m : Z) (args : list GArgument) (reported : option GError) :
  call_frame L = Some (f, n) ->
  in_out_bool_throws (info f) = true ->
  ffi_call f (slots_for n) L = (args, reported, L') ->
  (reported = None -> slot_member 4 0 args = Some r /\ slot_member 4 2 args = Some m) ->
  function_call lgi_callable_create ffi_call g_newa_garbage addr_of_err fuel L =
    match reported with
    | None =>
        Ok 2 (set_stack (LNum (wrap_signed 4 m) :: LBool (negb (wrap_signed 4 r =? 0))
                         :: stack L') L')
    | Some err =>
        Ok 3 (log_event (EvErrorFree (err_addr err))
                (set_stack (LNum (code err) :: LStr (message err) :: LBool false
                            :: stack L') L'))
    end.
Proof.
  intros Hframe Hsig Hffi Hslots.
  unfold call_frame in Hframe.
  destruct (stack L) as [|[] [|[] [|]]] eqn:Hstk; try discriminate.
  destruct (tables L !! registry) as [reg|] eqn:Hreg; try discriminate.
  destruct (udata L !! p) as [[sz [mt|] []]|] eqn:Hud; try discriminate.
  destruct (bool_decide _) eqn:Hmt; try discriminate.
  destruct (p =? 0) eqn:Hp; try discriminate.
  simpl in Hframe. injection Hframe as -> ->.
  apply bool_decide_eq_true in Hmt.
  unfold in_out_bool_throws in Hsig.
  destruct (fi_args (info f)) as [|a1 [|a2 [|]]] eqn:Hargs;
    try (rewrite !andb_false_r in Hsig; discriminate).
  repeat match goal with
         | H : _ && _ = true |- _ => apply andb_prop in H as [? ?]
         end.
  repeat match goal with
         | H : bool_decide _ = true |- _ => apply bool_decide_eq_true in H
         | H : negb _ = true |- _ => apply negb_true_iff in H
         end.
  unfold slots_for in Hffi.
  destruct a1 as [ti1 dir1 opt1 null1 ca1 tr1], a2 as [ti2 dir2 opt2 null2 ca2 tr2].
  destruct ti1 as [tag1 if1 pt1 at1 fs1 zt1], ti2 as [tag2 if2 pt2 at2 fs2 zt2].
  destruct (g_callable_info_get_return_type (info f))
    as [tagr ifr ptr atr fsr ztr] eqn:Hret.
  simpl in *. subst.
  destruct L as [stk tabs nt ud nb mm inst gt tr rk bi]. simpl in *. subst stk.
  unfold function_call. lrun.
  assert (Hopt : forall b : bool,
            (if b then lua_isnoneornil 2 else ret false)
              (mkState [LNum n; LUdata p] tabs nt ud nb mm inst gt tr rk bi)
            = Ok false (mkState [LNum n; LUdata p] tabs nt ud nb mm inst gt tr rk bi)).
  { intros []; reflexivity. }
  rewrite Hopt. lrun.
  destruct reported as [err|].
  - lrun. reflexivity.
  - destruct (Hslots eq_refl) as [Hr Hm]. unfold slot_member in Hr, Hm.
    destruct (args !! 0%nat) as [s0|] eqn:Hs0; [|discriminate].
    destruct (args !! 2%nat) as [s2|] eqn:Hs2; [|discriminate].
    simpl in Hr, Hm.
    destruct (g_callable_info_get_caller_owns (info f)), tr2; lrun; reflexivity.
Qed.

End CallShape.

(** A concrete callable and two simulated native functions. *)
Definition bool_type : GITypeInfo :=
  mkGITypeInfo GI_TYPE_TAG_BOOLEAN None None GI_ARRAY_TYPE_C (-1) false.

Definition demo_function : ud_function :=
  mk_ud_function (mkInvoker 77000)
    (mkGIFunctionInfo
       (mkGIBaseInfo 550 GI_INFO_TYPE_FUNCTION "Demo" "parse" None 0
                     GI_TYPE_TAG_VOID 0 [] None)
       GI_FUNCTION_THROWS
       [mkGIArgInfo int32_type GI_DIRECTION_IN false false false GI_TRANSFER_NOTHING;
        mkGIArgInfo int32_type GI_DIRECTION_OUT false false false GI_TRANSFER_EVERYTHING]
       bool_type GI_TRANSFER_NOTHING).

Definition call_state : State :=
  mkState [LNum 5; LUdata 2000000] demo_tables 21
          {[ 2000000 := mk_udata 64 (Some 2%nat) (UdFunction demo_function) ]}
          2000064 ∅ ∅ demo_gtypes [] 1 (Some GIRepository_IBaseInfo).

Definition no_callable : GIBaseInfo -> M Z := fun _ => ret 0.
Definition stack_garbage : nat -> GArgument := fun _ => [170; 85; 170; 85; 170; 85; 170; 85].

(** The native function succeeds: it returns true and stores 10. *)
Definition native_success (f : ud_function) (args : list GArgument) (L : State)
  : list GArgument * option GError * State :=
  (<[0%nat := garg_set 4 1 (default [] (args !! 0%nat))]>
     (<[2%nat := garg_set 4 10 (default [] (args !! 2%nat))]> args), None, L).

(** The native function fails with the message "bad" and the code 7. *)
Definition native_failure (f : ud_function) (args : list GArgument) (L : State)
  : list GArgument * option GError * State :=
  (args, Some (mkGError 88000 "bad" 7), L).

Lemma function_call_result_shape_witness :
  call_frame call_state = Some (demo_function, 5)
  /\ in_out_bool_throws (info demo_function) = true
  /\ function_call no_callable native_success stack_garbage 99000 1 call_state
     = Ok 2 (set_stack (LNum 10 :: LBool true :: stack call_state) call_state).
Proof.
  split; [vm_compute; reflexivity|]. split; [reflexivity|].
  exact (function_call_result_shape no_callable native_success stack_garbage 99000 1
           call_state call_state demo_function 5 1 10 _ None
           eq_refl eq_refl eq_refl (fun _ => conj eq_refl eq_refl)).
Defined.

(** The two outcomes of the claim, as the caller sees them. *)
Example call_results_success :
  let o := function_call no_callable native_success stack_garbage 99000 1 call_state in
  returned o = Some 2 /\ results 2 o = Some [LBool true; LNum 10].
Proof. vm_compute. split; reflexivity. Qed.

Example call_results_failure :
  let o := function_call no_callable native_failure stack_garbage 99000 1 call_state in
  returned o = Some 3 /\ results 3 o = Some [LBool false; LStr "bad"; LNum 7]
  /\ final_trace o = Some [EvErrorFree 88000].
Proof. vm_compute. repeat split. Qed.

(** ** C10: the results of [lgi_find] *)

Lemma index2adr_absolute (stk : list lua_value) (d : nat) (v : lua_value) :
  stk !! d = Some v ->
  index2adr stk (Z.of_nat (length stk) - Z.of_nat d) = Some v.
Proof.
  intros Hd. pose proof (lookup_lt_Some _ _ _ Hd) as Hlt.
  destruct (Z.of_nat (length stk) - Z.of_nat d) as [|q|q] eqn:Hq; try lia.
  unfold index2adr.
  replace (Pos.to_nat q) with (length stk - d)%nat by lia.
  destruct (length stk <? length stk - d)%nat eqn:Hc.
  - apply Nat.ltb_lt in Hc. lia.
  - replace (length stk - (length stk - d))%nat with d by lia. exact Hd.
Qed.

(** What [luaL_ref] does to the table: the reference it hands out for [v] and
    the table afterwards. *)
Definition ref_alloc (v : lua_value) (t : table) : Z * table :=
  let free := default 0 (tonumber (tbl_get (LNum FREELIST_REF) t)) in
  if free =? 0 then (tbl_len t + 1, tbl_set (LNum (tbl_len t + 1)) v t)
  else (free, tbl_set (LNum free) v
                (tbl_set (LNum FREELIST_REF) (tbl_get (LNum free) t) t)).

Lemma luaL_ref_below_top (L : State) (v : lua_value) (tid : nat) (rest : list lua_value)
    (t : table) :
  stack L = v :: LTable tid :: rest ->
  tables L !! tid = Some t ->
  is_nil v = false ->
  luaL_ref (-2) L
    = Ok (ref_alloc v t).1
         (set_stack (LTable tid :: rest) (set_table tid (ref_alloc v t).2 L)).
Proof.
  intros Hstk Ht Hv. destruct L as [stk tabs nt ud nb mm inst gt tr rk bi].
  simpl in *. subst stk.
  assert (Habs : forall x : list lua_value,
            index2adr (x ++ v :: LTable tid :: rest)
                      (Z.of_nat (length (v :: LTable tid :: rest)) + -2 + 1)
            = Some (LTable tid)).
  { intros x.
    replace (Z.of_nat (length (v :: LTable tid :: rest)) + -2 + 1)
      with (Z.of_nat (length (x ++ v :: LTable tid :: rest)) - Z.of_nat (length x + 1)).
    - apply index2adr_absolute. rewrite lookup_app_r by lia.
      replace (length x + 1 - length x)%nat with 1%nat by lia. reflexivity.
    - rewrite length_app. simpl length. lia. }
  pose proof (Habs []) as Habs0. pose proof (fun a => Habs [a]) as Habs1.
  simpl app in Habs0, Habs1. clear Habs.
  unfold luaL_ref, ref_alloc.
  set (ai := Z.of_nat (length (v :: LTable tid :: rest)) + -2 + 1) in *.
  assert (Hai : abs_index (-2) (mkState (v :: LTable tid :: rest) tabs nt ud nb mm inst
                                        gt tr rk bi)
                = Ok ai (mkState (v :: LTable tid :: rest) tabs nt ud nb mm inst
                                 gt tr rk bi)) by reflexivity.
  cbn [bind]. rewrite Hai. clear Hai. clearbody ai.
  lsimpl. rewrite Hv. lsimpl. rewrite Habs0. lsimpl. rewrite Ht. lsimpl.
  destruct (default 0 (tonumber (tbl_get (LNum FREELIST_REF) t)) =? 0) eqn:Hfree.
  - lsimpl. rewrite Habs0. lsimpl. rewrite Ht. lsimpl. rewrite Habs0. lsimpl.
    rewrite Ht. reflexivity.
  - lsimpl. rewrite Habs0. lsimpl. rewrite Ht. lsimpl. rewrite Habs1. lsimpl.
    rewrite Ht. lsimpl. rewrite Habs0. lsimpl. rewrite lookup_insert_eq. lsimpl.
    rewrite insert_insert_eq. reflexivity.
Qed.

Lemma luaL_ref_nil (L : State) (v : lua_value) (rest : list lua_value) :
  stack L = v :: rest ->
  is_nil v = true ->
  luaL_ref (-2) L = Ok LUA_REFNIL (set_stack rest L).
Proof.
  intros Hstk Hv. destruct L as [stk tabs nt ud nb mm inst gt tr rk bi].
  simpl in *. subst stk. unfold luaL_ref.
  change (abs_index (-2)) with (n <- lua_gettop ;; ret (n + -2 + 1)).
  cbn [bind lua_gettop ret]. lsimpl. rewrite Hv. reflexivity.
Qed.

(** The tables that [compound_store] goes through for a type: the metatable
    of compounds, the private registry with the cache and the type-binding
    table, and the entry of the type in the repo. *)
Record store_env := mk_store_env {
  env_mt : nat;
  env_cache : nat;
  env_cache_content : table;
  env_typeinfo : nat;
  env_typeinfo_content : table;
  env_repo_entry : lua_value
}.

Definition store_env_of (L : State) (info : GIBaseInfo) : option store_env :=
  reg ← tables L !! registry;
  match tbl_get (LStr UD_COMPOUND) reg, tbl_get (LNum (lgi_regkey L)) reg with
  | LTable mt, LTable pr =>
      private ← tables L !! pr;
      match tbl_get (LNum LGI_REG_CACHE) private,
            tbl_get (LNum LGI_REG_TYPEINFO) private,
            tbl_get (LNum LGI_REG_REPO) private with
      | LTable ca, LTable ty, LTable re =>
          cache ← tables L !! ca;
          typeinfo ← tables L !! ty;
          repo ← tables L !! re;
          match tbl_get (LStr (g_base_info_get_namespace info)) repo with
          | LTable ns =>
              names ← tables L !! ns;
              if bool_decide (ty ≠ registry) && bool_decide (ty ≠ pr)
                 && bool_decide (ty ≠ ca)
              then Some (mk_store_env mt ca cache ty typeinfo
                           (tbl_get (LStr (g_base_info_get_name info)) names))
              else None
          | _ => None
          end
      | _, _, _ => None
      end
  | _, _ => None
  end.

(** The reference that the wrapper keeps to the repo entry [v] of its type,
    and the type-binding table afterwards. *)
Definition bind_repo (v : lua_value) (typeinfo : table) : Z * table :=
  if is_nil v then (LUA_REFNIL, typeinfo) else ref_alloc v typeinfo.



(** A hit in the cache: the cached value is pushed and nothing is created. *)
Lemma compound_store_cached (L : State) (info : GIBaseInfo) (a : Z) (env : store_env)
    (transfer : GITransfer) :
  store_env_of L info = Some env ->
  a <> 0 ->
  is_nil (tbl_get (LLight a) (env_cache_content env)) = false ->
  compound_store info a transfer L
    = Ok (1, a) (set_stack (tbl_get (LLight a) (env_cache_content env) :: stack L) L).
Proof.
  unfold store_env_of. intros Henv Ha Hhit.
  apply bind_Some in Henv as (reg & Hreg & Henv).
  destruct (tbl_get (LStr UD_COMPOUND) reg) as [| | | | |mt| |] eqn:Hmt; try discriminate.
  destruct (tbl_get (LNum (lgi_regkey L)) reg) as [| | | | |pr| |] eqn:Hpr; try discriminate.
  apply bind_Some in Henv as (private & Hprivate & Henv).
  destruct (tbl_get (LNum LGI_REG_CACHE) private) as [| | | | |ca| |] eqn:Hca;
    try discriminate.
  destruct (tbl_get (LNum LGI_REG_TYPEINFO) private) as [| | | | |ty| |] eqn:Hty;
    try discriminate.
  destruct (tbl_get (LNum LGI_REG_REPO) private) as [| | | | |re| |] eqn:Hre;
    try discriminate.
  apply bind_Some in Henv as (cache & Hcache & Henv).
  apply bind_Some in Henv as (typeinfo & Htypeinfo & Henv).
  apply bind_Some in Henv as (repo & Hrepo & Henv).
  destruct (tbl_get (LStr (g_base_info_get_namespace info)) repo)
    as [| | | | |ns| |] eqn:Hns; try discriminate.
  apply bind_Some in Henv as (names & Hnames & Henv).
  destruct (_ && _); try discriminate.
  injection Henv as <-. simpl in Hhit |- *.
  apply Z.eqb_neq in Ha.
  destruct L as [stk tabs nt ud nb mm inst gt tr rk bi]. simpl in *.
  unfold compound_store. rewrite Ha, andb_false_r.
  lrun. reflexivity.
Qed.





(** A catalog that knows the object type [Window] and its method [show]. *)
Definition Window_show : GIBaseInfo :=
  mkGIBaseInfo 560 GI_INFO_TYPE_FUNCTION "GIRepository" "show" None 0
               GI_TYPE_TAG_VOID 0 [] None.

Definition Window_node : GIBaseInfo :=
  mkGIBaseInfo 570 GI_INFO_TYPE_OBJECT "GIRepository" "Window" None 0
               GI_TYPE_TAG_VOID 0 [Window_show] None.

Definition demo_catalog : string -> string -> option GIBaseInfo :=
  fun ns name =>
    if bool_decide (ns = "GIRepository") && bool_decide (name = "Window")
    then Some Window_node else None.



Example find_method_of_container :
  let o := lgi_find demo_catalog (demo_state [LStr "Window"; LStr "show"]) in
  returned o = Some 1
  /\ results 1 o = Some [LUdata 1000000]
  /\ wrapper_at 1000000 o = Some (mk_ud_compound (Some 560) (Some 1) (Some true)).
Proof. vm_compute. repeat split. Qed.

Example find_missing_method :
  let o := lgi_find demo_catalog (demo_state [LStr "Window"; LStr "hide"]) in
  returned o = Some 2
  /\ results 2 o = Some [LBool false; LStr "unable to resolve GIRepository.Window:hide"].
Proof. vm_compute. split; reflexivity. Qed.


(** ** C7: a zero-terminated array stops at the first NULL *)

Lemma bytes_at_mapped_prefix (m : gmap Z Z) (w n : nat) (a : Z) (bs : list Z) :
  bytes_at m a w = Some bs ->
  (w <= n)%nat ->
  take w (mapped_prefix m a n) = bs /\ (w <= length (mapped_prefix m a n))%nat.
Proof.
  revert n a bs. induction w as [|w IH]; intros n a bs Hb Hn.
  - injection Hb as <-. split; [reflexivity|lia].
  - destruct n as [|n]; [lia|]. simpl in Hb |- *.
    destruct (m !! a) as [b|]; [|discriminate].
    destruct (bytes_at m (a + 1) w) as [r|] eqn:Hr; [|discriminate].
    injection Hb as <-.
    destruct (IH n (a + 1) r Hr ltac:(lia)) as [Ht Hl].
    simpl. rewrite Ht. split; [reflexivity|lia].
Qed.

(** A member that is mapped is read from the union behind the pointer. *)
Lemma garg_get_mapped (m : gmap Z Z) (w : nat) (a v : Z) :
  load_bytes m w a = Some v ->
  (w <= 8)%nat ->
  garg_get w (mapped_prefix m a 8) = Some v.
Proof.
  unfold load_bytes, garg_get. intros Hl Hw.
  destruct (bytes_at m a w) as [bs|] eqn:Hb; [|discriminate].
  injection Hl as <-.
  destruct (bytes_at_mapped_prefix m w 8 a bs Hb Hw) as [Ht Hlen].
  apply Nat.leb_le in Hlen. rewrite Hlen, Ht. reflexivity.
Qed.

Definition utf8_type : GITypeInfo :=
  mkGITypeInfo GI_TYPE_TAG_UTF8 None None GI_ARRAY_TYPE_C (-1) false.

(** A C array of strings that is zero-terminated, with the fixed size [n]
    ([-1] when the type has none). *)
Definition strv_type (n : Z) : GITypeInfo :=
  mkGITypeInfo GI_TYPE_TAG_ARRAY None (Some utf8_type) GI_ARRAY_TYPE_C n true.

(** What is released for a transfer mode: with everything the two strings
    and the array, with container the array. *)
Definition strv_released (transfer : GITransfer) (base v0 v1 : Z) : list event :=
  match transfer with
  | GI_TRANSFER_NOTHING => []
  | GI_TRANSFER_CONTAINER => [EvFree base]
  | GI_TRANSFER_EVERYTHING => [EvFree v0; EvFree v1; EvFree base]
  end.

(** Arrays of strings are truncated at the terminator.  The array at [base]
    holds the pointers [v0], [v1], NULL and then anything; [v0] and [v1]
    point to the strings [s0] and [s1].  Marshalling it as a zero-terminated
    array pushes a new table that holds exactly [s0] at 1 and [s1] at 2: the
    loop stops at the NULL and does not store it. *)
Lemma zero_terminated_truncation (fuel : nat) (n : Z) (transfer : GITransfer)
    (val : GArgument) (L : State) (base v0 v1 : Z) (s0 s1 : string) :
  (3 <= fuel)%nat ->
  n < 0 \/ 2 <= n ->
  v_pointer val = Some base ->
  base <> 0 -> v0 <> 0 -> v1 <> 0 ->
  load_bytes (mem L) 8 base = Some v0 ->
  load_bytes (mem L) 8 (base + 8) = Some v1 ->
  load_bytes (mem L) 8 (base + 16) = Some 0 ->
  cstring_at (mem L) v0 = Some s0 ->
  cstring_at (mem L) v1 = Some s1 ->
  lgi_val_to_lua fuel (strv_type n) transfer val L
    = Ok 1 (mkState (LTable (next_table L) :: stack L)
                    (<[next_table L := [(LNum 1, LStr s0); (LNum 2, LStr s1)]]> (tables L))
                    (S (next_table L)) (udata L) (next_block L)
                    (mem L) (instances L) (gtypes L)
                    (trace L ++ strv_released transfer base v0 v1)
                    (lgi_regkey L) (lgi_baseinfo_info L)).
Proof.
  intros Hfuel Hn Hval Hbase Hv0 Hv1 H0 H1 H2 Hs0 Hs1.
  destruct fuel as [|[|[|fuel]]]; try lia.
  apply Z.eqb_neq in Hbase, Hv0, Hv1.
  destruct L as [stk tabs nt ud nb mm inst gt tr rk bi].
  cbn [mem stack tables next_table udata next_block instances gtypes trace
       lgi_regkey lgi_baseinfo_info] in *.
  pose proof (garg_get_mapped _ _ _ _ H0 ltac:(lia)) as G0.
  pose proof (garg_get_mapped _ _ _ _ H1 ltac:(lia)) as G1.
  pose proof (garg_get_mapped _ _ _ _ H2 ltac:(lia)) as G2.
  assert (C0 : (n <? 0) || (0 <? n) = true).
  { apply orb_true_iff. rewrite Z.ltb_lt, Z.ltb_lt. lia. }
  assert (C1 : (n <? 0) || (1 <? n) = true).
  { apply orb_true_iff. rewrite Z.ltb_lt, Z.ltb_lt. lia. }
  unfold v_pointer in Hval.
  unfold lgi_val_to_lua, strv_type, utf8_type. lsimpl. rewrite Hval.
  change (wrap_signed 4 0) with 0 in *.
  destruct ((n <? 0) || (2 <? n)) eqn:C2;
    destruct transfer; ldecide; lsimpl; rewrite Hbase; lsimpl;
    change (wrap_signed 4 0) with 0; change (wrap_signed 4 8) with 8;
    change (wrap_signed 4 16) with 16; rewrite Z.add_0_r;
    lrun; rewrite ?insert_insert_eq, ?app_nil_r, <- ?app_assoc; reflexivity.
Qed.

(** The array [{"ab", "c", NULL, "zz"}] at 4096. *)
Definition strv_memory : gmap Z Z :=
  store_bytes 4096 (le_encode 8 8192 ++ le_encode 8 8200 ++ le_encode 8 0 ++ le_encode 8 8208)
    (store_bytes 8192 (string_bytes "ab")
       (store_bytes 8200 (string_bytes "c")
          (store_bytes 8208 (string_bytes "zz") ∅))).

Definition strv_state : State :=
  mkState [] demo_tables 21 ∅ 1000000 strv_memory ∅ demo_gtypes [] 1
          (Some GIRepository_IBaseInfo).

Lemma zero_terminated_truncation_witness :
  v_pointer (le_encode 8 4096) = Some 4096
  /\ load_bytes (mem strv_state) 8 4096 = Some 8192
  /\ load_bytes (mem strv_state) 8 (4096 + 8) = Some 8200
  /\ load_bytes (mem strv_state) 8 (4096 + 16) = Some 0
  /\ cstring_at (mem strv_state) 8192 = Some "ab"
  /\ cstring_at (mem strv_state) 8200 = Some "c"
  /\ lgi_val_to_lua 3 (strv_type (-1)) GI_TRANSFER_EVERYTHING (le_encode 8 4096) strv_state
     = Ok 1 (mkState [LTable 21]
                     (<[21%nat := [(LNum 1, LStr "ab"); (LNum 2, LStr "c")]]> demo_tables)
                     22 ∅ 1000000 strv_memory ∅ demo_gtypes
                     [EvFree 8192; EvFree 8200; EvFree 4096] 1
                     (Some GIRepository_IBaseInfo)).
Proof.
  repeat (split; [vm_compute; reflexivity|]).
  apply (zero_terminated_truncation 3 (-1) GI_TRANSFER_EVERYTHING (le_encode 8 4096)
           strv_state 4096 8192 8200 "ab" "c");
    try (vm_compute; reflexivity); try lia.
Defined.

(** ** C6: where the element count of an array comes from *)
















(** The sequence that a run leaves on top of the stack. *)
Definition returned_sequence {A} (o : outcome A) : option table :=
  match o with
  | Ok _ L =>
      match stack L with
      | LTable t :: _ => tables L !! t
      | _ => None
      end
  | _ => None
  end.

(** The element count as the specification words it: the first of the three
    sources that the type has, in the order fixed size, length field of the
    container, scan for the terminator.  [garray_len] and [scanned] are what
    the second and the third source give. *)
Definition spec_element_count (ti : GITypeInfo) (garray_len scanned : Z) : Z :=
  if 0 <=? g_type_info_get_array_fixed_size ti then g_type_info_get_array_fixed_size ti
  else if decide (g_type_info_get_array_type ti = GI_ARRAY_TYPE_ARRAY) then garray_len
  else scanned.


(** The start of the elements: the pointer itself for a C array, the data
    pointer of the container for a [GArray]. *)
Definition array_data (m : gmap Z Z) (atype : GIArrayType) (ptr : Z) : option Z :=
  match atype with
  | GI_ARRAY_TYPE_C => Some ptr
  | GI_ARRAY_TYPE_ARRAY => load_bytes m 8 ptr
  | _ => None
  end.

(** The element [i] of an array whose elements are [width] bytes wide, as
    the union behind its address. *)
Definition nth_element (m : gmap Z Z) (atype : GIArrayType) (ptr width i : Z)
  : option GArgument :=
  data ← array_data m atype ptr;
  Some (mapped_prefix m (data + i * width) 8).

(** The first [k] elements from the element [i] on. *)
Fixpoint elements_from (m : gmap Z Z) (atype : GIArrayType) (ptr width : Z)
    (k : nat) (i : Z) : option (list GArgument) :=
  match k with
  | O => Some []
  | S k' =>
      e ← nth_element m atype ptr width i;
      rest ← elements_from m atype ptr width k' (i + 1);
      Some (e :: rest)
  end.









(** The elements of the array of strings before its terminator: the two
    pointers to the strings. *)
Example strv_first_elements :
  elements_from (mem strv_state) GI_ARRAY_TYPE_C 4096 8 2 0
  = Some [le_encode 8 8192; le_encode 8 8200].
Proof. vm_compute. reflexivity. Qed.

(** The length field of a [GArray] comes before a fixed size of its type. *)
Definition garray_of_int32_fixed (n : Z) : GITypeInfo :=
  mkGITypeInfo GI_TYPE_TAG_ARRAY None (Some int32_type) GI_ARRAY_TYPE_ARRAY n false.

Definition garray_memory : gmap Z Z :=
  store_bytes 4096 (le_encode 8 8192 ++ le_encode 4 2)
    (store_bytes 8192 (le_encode 4 5 ++ le_encode 4 7) ∅).

Definition garray_state : State :=
  mkState [] demo_tables 21 ∅ 1000000 garray_memory ∅ demo_gtypes [] 1
          (Some GIRepository_IBaseInfo).

Example garray_length_overrides_fixed_size :
  spec_element_count (garray_of_int32_fixed 1) 2 0 = 1
  /\ returned_sequence
       (lgi_val_to_lua 4 (garray_of_int32_fixed 1) GI_TRANSFER_NOTHING (le_encode 8 4096)
          garray_state)
     = Some [(LNum 1, LNum 5); (LNum 2, LNum 7)].
Proof. split; vm_compute; reflexivity. Qed.

(** ** C7: zero-terminated arrays of objects *)

(** A zero-terminated C array of windows, with the fixed size [n] ([-1] when
    the type has none). *)
Definition window_array_type (n : Z) : GITypeInfo :=
  mkGITypeInfo GI_TYPE_TAG_ARRAY None (Some (interface_type Gtk_Window)) GI_ARRAY_TYPE_C n true.

(** The array [{4096, 8192, NULL, 12288}] of pointers to windows at 20480. *)
Definition window_array_memory : gmap Z Z :=
  store_bytes 20480
    (le_encode 8 4096 ++ le_encode 8 8192 ++ le_encode 8 0 ++ le_encode 8 12288) ∅.

Definition window_array_state : State :=
  mkState [] demo_tables 21 ∅ 1000000 window_array_memory
          {[ 4096 := GTK_TYPE_WINDOW; 8192 := GTK_TYPE_WINDOW; 12288 := GTK_TYPE_WINDOW ]}
          demo_gtypes [] 1 (Some GIRepository_IBaseInfo).

Definition window_array_marshalled : outcome Z :=
  lgi_val_to_lua 5 (window_array_type 4) GI_TRANSFER_NOTHING (le_encode 8 20480)
    window_array_state.

(** C7.  The zero-terminated array holds the windows at 4096 and 8192, NULL
    and the window at 12288, and its type has the fixed size 4.  The stride
    of the loop is the size that [lgi_type_get_size] gives for the tag of
    the elements, which is 0 for an interface type: every iteration reads
    the first slot, the NULL of the third slot is never met, and the
    sequence has four entries, each a wrapper of the window at 4096, which
    is referenced four times.  The windows at 8192 and at 12288 are not
    looked at. *)
Theorem zero_terminated_objects_repeat_first :
  lgi_type_get_size (g_type_info_get_tag (interface_type Gtk_Window)) = 0
  /\ returned window_array_marshalled = Some 1
  /\ returned_sequence window_array_marshalled
     = Some [(LNum 1, LUdata 1000000); (LNum 2, LUdata 1000016);
             (LNum 3, LUdata 1000032); (LNum 4, LUdata 1000048)]
  /\ map (fun p => wrapper_at p window_array_marshalled ≫= addr)
         [1000000; 1000016; 1000032; 1000048]
     = [Some 4096; Some 4096; Some 4096; Some 4096]
  /\ final_trace window_array_marshalled
     = Some [EvObjectRef 4096; EvObjectRef 4096; EvObjectRef 4096; EvObjectRef 4096].
Proof. vm_compute. repeat split. Qed.

(** Without a fixed size the same array is not marshalled at all: the loop
    stays on the first slot, and 40 iterations later it has not ended. *)
Example zero_terminated_objects_unbounded :
  lgi_val_to_lua 40 (window_array_type (-1)) GI_TRANSFER_NOTHING (le_encode 8 20480)
    window_array_state
  = OutOfFuel.
Proof. vm_compute. reflexivity. Qed.

(** * Further properties of the program *)

(** ** Tables as lists of entries *)

Lemma tbl_get_del_eq (k : lua_value) (t : table) : tbl_get k (tbl_del k t) = LNil.
Proof.
  induction t as [|[k' v] t IH]; [reflexivity|]. simpl.
  destruct (decide (k' = k)) as [|Hne]; [exact IH|].
  simpl. destruct (decide (k' = k)); [contradiction|exact IH].
Qed.

Lemma tbl_get_del_ne (k k' : lua_value) (t : table) :
  k <> k' -> tbl_get k (tbl_del k' t) = tbl_get k t.
Proof.
  intros Hne. induction t as [|[k0 v] t IH]; [reflexivity|]. simpl.
  destruct (decide (k0 = k')) as [->|H0].
  - destruct (decide (k' = k)); [congruence|exact IH].
  - simpl. destruct (decide (k0 = k)); [reflexivity|exact IH].
Qed.

Lemma tbl_get_app_new (k k' v : lua_value) (t : table) :
  tbl_get k (tbl_del k' t ++ [(k', v)])
  = if decide (k' = k) then v else tbl_get k t.
Proof.
  induction t as [|[k0 v0] t IH]; simpl.
  - reflexivity.
  - destruct (decide (k0 = k')) as [->|H0].
    + rewrite IH. destruct (decide (k' = k)); reflexivity.
    + simpl. destruct (decide (k0 = k)) as [->|H1].
      * destruct (decide (k' = k)); [congruence|reflexivity].
      * exact IH.
Qed.

(** What was stored last under a key is what the key yields. *)
Lemma tbl_get_set_eq (k v : lua_value) (t : table) : tbl_get k (tbl_set k v t) = v.
Proof.
  unfold tbl_set. destruct v; try (rewrite tbl_get_app_new; destruct (decide (k = k)); congruence).
  apply tbl_get_del_eq.
Qed.

Lemma tbl_get_set_ne (k k' v : lua_value) (t : table) :
  k <> k' -> tbl_get k (tbl_set k' v t) = tbl_get k t.
Proof.
  intros Hne. unfold tbl_set.
  destruct v; try (rewrite tbl_get_app_new; destruct (decide (k' = k)); congruence).
  apply tbl_get_del_ne. exact Hne.
Qed.

(** ** The identity cache: [lgi_get_cached] and [lgi_set_cached] *)

(** The cache table of the module and its content: the registry holds the
    private table of the module under [lgi_regkey], and that one the cache,
    a table of its own. *)
Definition cache_of (L : State) : option (nat * table) :=
  reg ← tables L !! registry;
  match tbl_get (LNum (lgi_regkey L)) reg with
  | LTable pr =>
      private ← tables L !! pr;
      match tbl_get (LNum LGI_REG_CACHE) private with
      | LTable ca =>
          cache ← tables L !! ca;
          if bool_decide (ca ≠ registry) && bool_decide (ca ≠ pr)
          then Some (ca, cache) else None
      | _ => None
      end
  | _ => None
  end.

Ltac cache_env Henv :=
  unfold cache_of in Henv;
  let reg := fresh "reg" in let Hreg := fresh "Hreg" in
  let pr := fresh "pr" in let Hpr := fresh "Hpr" in
  let private := fresh "private" in let Hprivate := fresh "Hprivate" in
  let ca := fresh "ca" in let Hca := fresh "Hca" in
  let cache := fresh "cache" in let Hcache := fresh "Hcache" in
  let D1 := fresh "D" in let D2 := fresh "D" in
  apply bind_Some in Henv as (reg & Hreg & Henv);
  destruct (tbl_get (LNum (lgi_regkey _)) reg) as [| | | | |pr| |] eqn:Hpr;
    try discriminate;
  apply bind_Some in Henv as (private & Hprivate & Henv);
  destruct (tbl_get (LNum LGI_REG_CACHE) private) as [| | | | |ca| |] eqn:Hca;
    try discriminate;
  apply bind_Some in Henv as (cache & Hcache & Henv);
  destruct (bool_decide (ca ≠ registry)) eqn:D1; try discriminate;
  destruct (bool_decide (ca ≠ pr)) eqn:D2; try discriminate;
  apply bool_decide_eq_true in D1, D2;
  simpl in Henv; injection Henv as -> ->.

(** X1.  A lookup in the cache changes nothing but the stack: a miss returns 0 and
    leaves the state as it was, a hit returns 1 and has pushed the entry. *)
Theorem lgi_get_cached_lookup (L : State) (obj : Z) (ca : nat) (cache : table) :
  cache_of L = Some (ca, cache) ->
  lgi_get_cached obj L
    = if is_nil (tbl_get (LLight obj) cache) then Ok 0 L
      else Ok 1 (set_stack (tbl_get (LLight obj) cache :: stack L) L).
Proof.
  intros Henv. cache_env Henv.
  destruct L as [stk tabs nt ud nb mm inst gt tr rk bi]. simpl in *.
  lrun. destruct (is_nil (tbl_get (LLight obj) cache)); reflexivity.
Qed.

(** X2.  Storing the value on top of the stack under [obj] leaves the stack as it
    was, and a lookup afterwards finds that value under [obj] and under any
    other pointer what the cache held before. *)
Theorem lgi_set_cached_then_get (L : State) (obj obj' : Z) (v : lua_value)
    (rest : list lua_value) (ca : nat) (cache : table) :
  cache_of L = Some (ca, cache) ->
  stack L = v :: rest ->
  let L' := set_table ca (tbl_set (LLight obj) v cache) L in
  let found := if bool_decide (obj' = obj) then v else tbl_get (LLight obj') cache in
  lgi_set_cached obj L = Ok tt L'
  /\ lgi_get_cached obj' L'
     = if is_nil found then Ok 0 L' else Ok 1 (set_stack (found :: stack L') L').
Proof.
  intros Henv Hstk L' found. subst L' found. cache_env Henv.
  destruct L as [stk tabs nt ud nb mm inst gt tr rk bi]. simpl in *. subst stk.
  split.
  - lrun. reflexivity.
  - lrun.
    assert (Hget : tbl_get (LLight obj') (tbl_set (LLight obj) v cache)
                   = if bool_decide (obj' = obj) then v else tbl_get (LLight obj') cache).
    { destruct (bool_decide (obj' = obj)) eqn:Ho.
      - apply bool_decide_eq_true in Ho. subst obj'. apply tbl_get_set_eq.
      - apply bool_decide_eq_false in Ho. apply tbl_get_set_ne. congruence. }
    rewrite Hget.
    destruct (is_nil (if bool_decide (obj' = obj) then v else tbl_get (LLight obj') cache));
      reflexivity.
Qed.

Lemma lgi_set_cached_then_get_witness :
  cache_of (demo_state [LStr "wrapper"]) = Some (4%nat, [])
  /\ lgi_set_cached 4096 (demo_state [LStr "wrapper"])
     = Ok tt (set_table 4 (tbl_set (LLight 4096) (LStr "wrapper") [])
                (demo_state [LStr "wrapper"]))
  /\ lgi_get_cached 4096
       (set_table 4 (tbl_set (LLight 4096) (LStr "wrapper") [])
          (demo_state [LStr "wrapper"]))
     = Ok 1 (set_stack [LStr "wrapper"; LStr "wrapper"]
               (set_table 4 (tbl_set (LLight 4096) (LStr "wrapper") [])
                  (demo_state [LStr "wrapper"]))).
Proof.
  split; [vm_compute; reflexivity|].
  exact (lgi_set_cached_then_get (demo_state [LStr "wrapper"]) 4096 4096 (LStr "wrapper") []
           4%nat [] eq_refl eq_refl).
Defined.

Lemma lgi_get_cached_lookup_witness :
  cache_of (demo_state []) = Some (4%nat, [])
  /\ lgi_get_cached 4096 (demo_state []) = Ok 0 (demo_state []).
Proof.
  split; [vm_compute; reflexivity|].
  exact (lgi_get_cached_lookup (demo_state []) 4096 4%nat [] eq_refl).
Defined.


(** ** Creation of wrappers: [compound_store] *)

(** The state after [compound_store] has created a wrapper: a block of
    [size] bytes for the address [a], owning it or not, the wrapper filed in
    the cache and bound to the repo entry of its type, and [events] on the
    native side. *)
Definition stored_as (L : State) (env : store_env) (size a : Z) (owned : bool)
    (events : list event) : State :=
  let p := next_block L in
  let b := bind_repo (env_repo_entry env) (env_typeinfo_content env) in
  mkState (LUdata p :: stack L)
          (<[env_cache env := tbl_set (LLight p) (LUdata p) (env_cache_content env)]>
             (<[env_typeinfo env := b.2]> (tables L)))
          (next_table L)
          (<[p := mk_udata size (Some (env_mt env))
                           (UdCompound (mk_ud_compound (Some a) (Some b.1) (Some owned)))]>
             (udata L))
          (p + 16 * (1 + size / 16))
          (mem L) (instances L) (gtypes L) (trace L ++ events)
          (lgi_regkey L) (lgi_baseinfo_info L).

(** What the creation of a wrapper depends on: the transfer mode and, for
    transfer mode nothing, the kind of the type, of which the objects are
    covered here. *)
Definition store_plan (info : GIBaseInfo) (a : Z) (transfer : GITransfer) (p : Z)
  : option (Z * Z * bool * list event) :=
  match transfer with
  | GI_TRANSFER_EVERYTHING => Some (ud_compound_data_offset, a, true, [])
  | GI_TRANSFER_CONTAINER =>
      Some (ud_compound_data_offset + g_struct_info_get_size info,
            p + ud_compound_data_offset, false, [])
  | GI_TRANSFER_NOTHING =>
      match g_base_info_get_type info with
      | GI_INFO_TYPE_OBJECT => Some (ud_compound_data_offset, a, true, [EvObjectRef a])
      | _ => None
      end
  end.

Lemma compound_store_new (L : State) (info : GIBaseInfo) (a : Z) (transfer : GITransfer)
    (env : store_env) (size a' : Z) (owned : bool) (events : list event) :
  store_env_of L info = Some env ->
  transfer = GI_TRANSFER_CONTAINER \/ a <> 0 ->
  tbl_get (LLight a) (env_cache_content env) = LNil ->
  store_plan info a transfer (next_block L) = Some (size, a', owned, events) ->
  compound_store info a transfer L = Ok (1, a') (stored_as L env size a' owned events).
Proof.
  unfold store_env_of. intros Henv Ha Hmiss Hplan.
  apply bind_Some in Henv as (reg & Hreg & Henv).
  destruct (tbl_get (LStr UD_COMPOUND) reg) as [| | | | |mt| |] eqn:Hmt; try discriminate.
  destruct (tbl_get (LNum (lgi_regkey L)) reg) as [| | | | |pr| |] eqn:Hpr; try discriminate.
  apply bind_Some in Henv as (private & Hprivate & Henv).
  destruct (tbl_get (LNum LGI_REG_CACHE) private) as [| | | | |ca| |] eqn:Hca;
    try discriminate.
  destruct (tbl_get (LNum LGI_REG_TYPEINFO) private) as [| | | | |ty| |] eqn:Hty;
    try discriminate.
  destruct (tbl_get (LNum LGI_REG_REPO) private) as [| | | | |re| |] eqn:Hre;
    try discriminate.
  apply bind_Some in Henv as (cache & Hcache & Henv).
  apply bind_Some in Henv as (typeinfo & Htypeinfo & Henv).
  apply bind_Some in Henv as (repo & Hrepo & Henv).
  destruct (tbl_get (LStr (g_base_info_get_namespace info)) repo)
    as [| | | | |ns| |] eqn:Hns; try discriminate.
  apply bind_Some in Henv as (names & Hnames & Henv).
  destruct (bool_decide (ty ≠ registry)) eqn:D1; try discriminate.
  destruct (bool_decide (ty ≠ pr)) eqn:D2; try discriminate.
  destruct (bool_decide (ty ≠ ca)) eqn:D3; try discriminate.
  apply bool_decide_eq_true in D1, D2, D3.
  simpl in Henv. injection Henv as <-.
  destruct L as [stk tabs nt ud nb mm inst gt tr rk bi]. simpl in *.
  assert (Hfirst : bool_decide (transfer ≠ GI_TRANSFER_CONTAINER) && (a =? 0) = false).
  { destruct Ha as [->|Ha].
    - rewrite bool_decide_false by congruence. reflexivity.
    - apply Z.eqb_neq in Ha. rewrite Ha. apply andb_false_r. }
  unfold compound_store, stored_as, bind_repo.
  rewrite Hfirst. clear Hfirst Ha.
  lrun.
  destruct (is_nil (tbl_get (LStr (g_base_info_get_name info)) names)) eqn:Hnil.
  - erewrite luaL_ref_nil; [|reflexivity|exact Hnil].
    lrun.
    destruct transfer; [destruct (g_base_info_get_type info) eqn:Hkind| |];
      simpl in Hplan; try rewrite Hkind in Hplan; try discriminate;
      injection Hplan as <- <- <- <-;
      ldecide; lrun;
      rewrite ?insert_insert_eq, ?app_nil_r, ?Z.add_0_r;
      rewrite (insert_id tabs ty typeinfo Htypeinfo); reflexivity.
  - erewrite luaL_ref_below_top; [|reflexivity|exact Htypeinfo|exact Hnil].
    lrun.
    destruct transfer; [destruct (g_base_info_get_type info) eqn:Hkind| |];
      simpl in Hplan; try rewrite Hkind in Hplan; try discriminate;
      injection Hplan as <- <- <- <-;
      ldecide; lrun;
      rewrite ?insert_insert_eq, ?app_nil_r, ?Z.add_0_r; reflexivity.
Qed.


(** ** Finalization of wrappers: [compound_gc] *)

(** What [luaL_unref] does to the table: the slot joins the free list. *)
Definition ref_free (ref : Z) (t : table) : table :=
  if 0 <=? ref
  then tbl_set (LNum FREELIST_REF) (LNum ref)
         (tbl_set (LNum ref) (tbl_get (LNum FREELIST_REF) t) t)
  else t.

Lemma luaL_unref_below_top (L : State) (v : lua_value) (tid : nat) (rest : list lua_value)
    (t : table) (ref : Z) :
  stack L = v :: LTable tid :: rest ->
  tables L !! tid = Some t ->
  luaL_unref (-2) ref L = Ok tt (set_table tid (ref_free ref t) L).
Proof.
  intros Hstk Ht. destruct L as [stk tabs nt ud nb mm inst gt tr rk bi].
  simpl in *. subst stk.
  assert (Habs : forall x : list lua_value,
            index2adr (x ++ v :: LTable tid :: rest)
                      (Z.of_nat (length (v :: LTable tid :: rest)) + -2 + 1)
            = Some (LTable tid)).
  { intros x.
    replace (Z.of_nat (length (v :: LTable tid :: rest)) + -2 + 1)
      with (Z.of_nat (length (x ++ v :: LTable tid :: rest)) - Z.of_nat (length x + 1)).
    - apply index2adr_absolute. rewrite lookup_app_r by lia.
      replace (length x + 1 - length x)%nat with 1%nat by lia. reflexivity.
    - rewrite length_app. simpl length. lia. }
  pose proof (Habs []) as Habs0. pose proof (fun a => Habs [a]) as Habs1.
  simpl app in Habs0, Habs1. clear Habs.
  unfold luaL_unref, ref_free.
  destruct (0 <=? ref); [|destruct tabs; rewrite ?insert_id by exact Ht; reflexivity].
  set (ai := Z.of_nat (length (v :: LTable tid :: rest)) + -2 + 1) in *.
  assert (Hai : abs_index (-2) (mkState (v :: LTable tid :: rest) tabs nt ud nb mm inst
                                        gt tr rk bi)
                = Ok ai (mkState (v :: LTable tid :: rest) tabs nt ud nb mm inst
                                 gt tr rk bi)) by reflexivity.
  cbn [bind]. rewrite Hai. clear Hai. clearbody ai.
  lsimpl. rewrite Habs0. lsimpl. rewrite Ht. lsimpl. rewrite Habs1. lsimpl.
  rewrite Ht. lsimpl. rewrite Habs1. lsimpl. rewrite lookup_insert_eq. lsimpl.
  rewrite insert_insert_eq. reflexivity.
Qed.

(** The type-binding table of the module, its content, and what it holds
    under the reference [ref]. *)
Definition binding_of (L : State) (ref : Z) : option (nat * table * lua_value) :=
  reg ← tables L !! registry;
  private ← table_of L (tbl_get (LNum (lgi_regkey L)) reg);
  match tbl_get (LNum LGI_REG_TYPEINFO) private with
  | LTable ty =>
      typeinfo ← tables L !! ty;
      Some (ty, typeinfo, tbl_get (LNum ref) typeinfo)
  | _ => None
  end.

Lemma binding_of_inv (L : State) (ref : Z) (ty : nat) (typeinfo : table) (v : lua_value) :
  binding_of L ref = Some (ty, typeinfo, v) ->
  exists reg pr private,
    tables L !! registry = Some reg
    /\ tbl_get (LNum (lgi_regkey L)) reg = LTable pr /\ tables L !! pr = Some private
    /\ tbl_get (LNum LGI_REG_TYPEINFO) private = LTable ty
    /\ tables L !! ty = Some typeinfo
    /\ tbl_get (LNum ref) typeinfo = v.
Proof.
  unfold binding_of. intros H.
  apply bind_Some in H as (reg & Hreg & H).
  apply bind_Some in H as (private & H1 & H).
  apply table_of_Some in H1 as (pr & H1 & H1').
  destruct (tbl_get (LNum LGI_REG_TYPEINFO) private) as [| | | | |ty'| |] eqn:Hty;
    try discriminate.
  apply bind_Some in H as (typeinfo' & H2 & H).
  injection H as -> -> <-.
  exists reg, pr, private. tauto.
Qed.

(** The table behind the entry 0 of the table [v]: where the repo keeps the
    kind, the name and the hooks of a type. *)
Definition meta_of (L : State) (v : lua_value) : option table :=
  repo ← table_of L v;
  table_of L (tbl_get (LNum 0) repo).

(** What the finalizer of an owning wrapper of the block [p] and the address
    [a] does on the native side, by the kind that the repo records. *)
Definition finalizer (meta : table) (p a : Z) : option (list event) :=
  let type := default 0 (tonumber (tbl_get (LStr "type") meta)) in
  if type =? GIInfoType_to_Z GI_INFO_TYPE_STRUCT then
    match tbl_get (LStr "dispose") meta with
    | LNil => Some []
    | LFun f => Some [EvLuaCall f [LUdata p]]
    | _ => None
    end
  else if type =? GIInfoType_to_Z GI_INFO_TYPE_OBJECT then Some [EvObjectUnref a]
  else Some [EvWarning "Incorrect type in compound_gc"].

(** The state after [compound_gc]. *)
Definition finalized (L : State) (p : Z) (ty : nat) (typeinfo : table) (ref : Z)
    (v : lua_value) (events : list event) : State :=
  mkState [v; LTable ty; LUdata p]
          (<[ty := ref_free ref typeinfo]> (tables L))
          (next_table L) (udata L) (next_block L)
          (mem L) (instances L) (gtypes L) (trace L ++ events)
          (lgi_regkey L) (lgi_baseinfo_info L).

(** The run of [compound_gc] on a wrapper that does not own its address. *)
Lemma compound_gc_not_owned (L : State) (p a ref : Z) (ty : nat) (typeinfo : table)
    (v : lua_value) :
  stack L = [LUdata p] ->
  compound_at L 1 = Some (p, mk_ud_compound (Some a) (Some ref) (Some false)) ->
  binding_of L ref = Some (ty, typeinfo, v) ->
  is_nil v = false ->
  compound_gc L = Ok 0 (finalized L p ty typeinfo ref v []).
Proof.
  intros Hstk (sz & mt & reg & Hidx & Hud & Hreg & Hmt & Hp)%compound_at_inv
         (reg' & pr & private & Hreg' & Hpr & Hprivate & Hty & Htypeinfo & Hv)%binding_of_inv
         Hnil.
  rewrite Hreg in Hreg'. injection Hreg' as <-.
  destruct L as [stk tabs nt ud nb mm inst gt tr rk bi]. simpl in *. subst stk.
  unfold finalized. lrun.
  erewrite luaL_unref_below_top; [|reflexivity|exact Htypeinfo].
  lrun. rewrite app_nil_r. reflexivity.
Qed.

(** The run of [compound_gc] on a wrapper that owns its address. *)
Lemma compound_gc_owned (L : State) (p a ref : Z) (ty : nat) (typeinfo meta : table)
    (v : lua_value) (events : list event) :
  stack L = [LUdata p] ->
  compound_at L 1 = Some (p, mk_ud_compound (Some a) (Some ref) (Some true)) ->
  binding_of L ref = Some (ty, typeinfo, v) ->
  meta_of L v = Some meta ->
  finalizer meta p a = Some events ->
  compound_gc L = Ok 0 (finalized L p ty typeinfo ref v events).
Proof.
  intros Hstk (sz & mt & reg & Hidx & Hud & Hreg & Hmt & Hp)%compound_at_inv
         (reg' & pr & private & Hreg' & Hpr & Hprivate & Hty & Htypeinfo & Hv)%binding_of_inv
         Hmeta Hfin.
  rewrite Hreg in Hreg'. injection Hreg' as <-.
  unfold meta_of in Hmeta.
  apply bind_Some in Hmeta as (repo & (t & -> & Hrepo)%table_of_Some
                                    & (m & Hm & Hmeta)%table_of_Some).
  destruct L as [stk tabs nt ud nb mm inst gt tr rk bi]. simpl in *. subst stk.
  unfold finalized, finalizer in *. cbn [GIInfoType_to_Z] in Hfin. lrun.
  destruct (default 0 (tonumber (tbl_get (LStr "type") meta)) =? 3) eqn:Hs.
  - destruct (tbl_get (LStr "dispose") meta) eqn:Hd; try discriminate;
      injection Hfin as <-; lrun;
      (erewrite luaL_unref_below_top; [|reflexivity|exact Htypeinfo]);
      lrun; rewrite ?app_nil_r; reflexivity.
  - destruct (default 0 (tonumber (tbl_get (LStr "type") meta)) =? 7) eqn:Ho;
      injection Hfin as <-; lrun;
      (erewrite luaL_unref_below_top; [|reflexivity|exact Htypeinfo]);
      lrun; reflexivity.
Qed.






(** ** From creation to finalization *)

Lemma ref_alloc_get (v : lua_value) (t : table) :
  tbl_get (LNum (ref_alloc v t).1) (ref_alloc v t).2 = v.
Proof.
  unfold ref_alloc.
  destruct (default 0 (tonumber (tbl_get (LNum FREELIST_REF) t)) =? 0);
    simpl; apply tbl_get_set_eq.
Qed.

Lemma store_env_of_inv (L : State) (info : GIBaseInfo) (env : store_env) :
  store_env_of L info = Some env ->
  exists reg pr private re repo ns names,
    tables L !! registry = Some reg
    /\ tbl_get (LStr UD_COMPOUND) reg = LTable (env_mt env)
    /\ tbl_get (LNum (lgi_regkey L)) reg = LTable pr /\ tables L !! pr = Some private
    /\ tbl_get (LNum LGI_REG_CACHE) private = LTable (env_cache env)
    /\ tbl_get (LNum LGI_REG_TYPEINFO) private = LTable (env_typeinfo env)
    /\ tbl_get (LNum LGI_REG_REPO) private = LTable re
    /\ tables L !! env_cache env = Some (env_cache_content env)
    /\ tables L !! env_typeinfo env = Some (env_typeinfo_content env)
    /\ tables L !! re = Some repo
    /\ tbl_get (LStr (g_base_info_get_namespace info)) repo = LTable ns
    /\ tables L !! ns = Some names
    /\ env_repo_entry env = tbl_get (LStr (g_base_info_get_name info)) names
    /\ env_typeinfo env <> registry /\ env_typeinfo env <> pr
    /\ env_typeinfo env <> env_cache env.
Proof.
  unfold store_env_of. intros Henv.
  apply bind_Some in Henv as (reg & Hreg & Henv).
  destruct (tbl_get (LStr UD_COMPOUND) reg) as [| | | | |mt| |] eqn:Hmt; try discriminate.
  destruct (tbl_get (LNum (lgi_regkey L)) reg) as [| | | | |pr| |] eqn:Hpr; try discriminate.
  apply bind_Some in Henv as (private & Hprivate & Henv).
  destruct (tbl_get (LNum LGI_REG_CACHE) private) as [| | | | |ca| |] eqn:Hca;
    try discriminate.
  destruct (tbl_get (LNum LGI_REG_TYPEINFO) private) as [| | | | |ty| |] eqn:Hty;
    try discriminate.
  destruct (tbl_get (LNum LGI_REG_REPO) private) as [| | | | |re| |] eqn:Hre;
    try discriminate.
  apply bind_Some in Henv as (cache & Hcache & Henv).
  apply bind_Some in Henv as (typeinfo & Htypeinfo & Henv).
  apply bind_Some in Henv as (repo & Hrepo & Henv).
  destruct (tbl_get (LStr (g_base_info_get_namespace info)) repo)
    as [| | | | |ns| |] eqn:Hns; try discriminate.
  apply bind_Some in Henv as (names & Hnames & Henv).
  destruct (bool_decide (ty ≠ registry)) eqn:D1; try discriminate.
  destruct (bool_decide (ty ≠ pr)) eqn:D2; try discriminate.
  destruct (bool_decide (ty ≠ ca)) eqn:D3; try discriminate.
  apply bool_decide_eq_true in D1, D2, D3.
  simpl in Henv. injection Henv as <-. simpl.
  exists reg, pr, private, re, repo, ns, names. tauto.
Qed.

Lemma cache_of_inv (L : State) (ca : nat) (cache : table) :
  cache_of L = Some (ca, cache) ->
  exists reg pr private,
    tables L !! registry = Some reg
    /\ tbl_get (LNum (lgi_regkey L)) reg = LTable pr /\ tables L !! pr = Some private
    /\ tbl_get (LNum LGI_REG_CACHE) private = LTable ca
    /\ ca <> registry /\ ca <> pr.
Proof.
  intros Henv. cache_env Henv. exists reg, pr, private. tauto.
Qed.

(** The wrapper that [compound_store] has just created, as [compound_gc]
    finds it when it is the only value on the stack. *)
Lemma stored_as_wrapper (L : State) (info : GIBaseInfo) (env : store_env)
    (size a : Z) (owned : bool) (events : list event) :
  stack L = [] ->
  next_block L <> 0 ->
  store_env_of L info = Some env ->
  cache_of L = Some (env_cache env, env_cache_content env) ->
  let L1 := stored_as L env size a owned events in
  let b := bind_repo (env_repo_entry env) (env_typeinfo_content env) in
  stack L1 = [LUdata (next_block L)]
  /\ compound_at L1 1
     = Some (next_block L, mk_ud_compound (Some a) (Some b.1) (Some owned))
  /\ binding_of L1 b.1 = Some (env_typeinfo env, b.2, tbl_get (LNum b.1) b.2).
Proof.
  intros Hstk Hnb
    (reg & pr & private & re & repo & ns & names & Hreg & Hmt & Hpr & Hprivate & Hca
       & Hty & Hre & Hcache & Htypeinfo & Hrepo & Hns & Hnames & Hentry & D1 & D2 & D3)
      %store_env_of_inv
    (reg' & pr' & private' & Hreg' & Hpr' & Hprivate' & Hca' & D4 & D5)%cache_of_inv.
  rewrite Hreg in Hreg'. injection Hreg' as <-.
  rewrite Hpr in Hpr'. injection Hpr' as <-.
  intros L1 b. subst L1. unfold stored_as. fold b.
  destruct L as [stk tabs nt ud nb mm inst gt tr rk bi]. simpl in *. subst stk.
  repeat split.
  - unfold compound_at. simpl.
    rewrite lookup_insert_eq.
    rewrite !lookup_insert_ne by congruence. rewrite Hreg, Hmt.
    rewrite bool_decide_true by reflexivity.
    apply Z.eqb_neq in Hnb. rewrite Hnb. reflexivity.
  - unfold binding_of. simpl.
    rewrite !lookup_insert_ne by congruence. rewrite Hreg. simpl. rewrite Hpr. simpl.
    rewrite !lookup_insert_ne by congruence. rewrite Hprivate. simpl. rewrite Hty.
    rewrite lookup_insert_ne by congruence. rewrite lookup_insert_eq. reflexivity.
Qed.


(** The repo entry of a type as finalization reads it: the table behind its
    entry 0, where neither table is the cache or the type-binding table. *)
Definition repo_meta_of (L : State) (env : store_env) : option table :=
  match env_repo_entry env with
  | LTable t =>
      repo ← tables L !! t;
      match tbl_get (LNum 0) repo with
      | LTable m =>
          meta ← tables L !! m;
          if bool_decide (t ≠ env_cache env) && bool_decide (t ≠ env_typeinfo env)
             && bool_decide (m ≠ env_cache env) && bool_decide (m ≠ env_typeinfo env)
          then Some meta else None
      | _ => None
      end
  | _ => None
  end.

Lemma repo_meta_of_stored (L : State) (env : store_env) (meta : table)
    (size a : Z) (owned : bool) (events : list event) :
  repo_meta_of L env = Some meta ->
  let b := bind_repo (env_repo_entry env) (env_typeinfo_content env) in
  tbl_get (LNum b.1) b.2 = env_repo_entry env
  /\ is_nil (env_repo_entry env) = false
  /\ meta_of (stored_as L env size a owned events) (env_repo_entry env) = Some meta.
Proof.
  intros H b. subst b. unfold repo_meta_of in H.
  destruct (env_repo_entry env) as [| | | | |t| |] eqn:Hentry; try discriminate.
  apply bind_Some in H as (repo & Hrepo & H).
  destruct (tbl_get (LNum 0) repo) as [| | | | |m| |] eqn:Hm; try discriminate.
  apply bind_Some in H as (meta' & Hmeta & H).
  destruct (bool_decide (t ≠ env_cache env)) eqn:D1; try discriminate.
  destruct (bool_decide (t ≠ env_typeinfo env)) eqn:D2; try discriminate.
  destruct (bool_decide (m ≠ env_cache env)) eqn:D3; try discriminate.
  destruct (bool_decide (m ≠ env_typeinfo env)) eqn:D4; try discriminate.
  apply bool_decide_eq_true in D1, D2, D3, D4.
  simpl in H. injection H as ->.
  unfold bind_repo. simpl. repeat split.
  - apply ref_alloc_get.
  - unfold meta_of, stored_as. simpl.
    rewrite !lookup_insert_ne by congruence. rewrite Hrepo. simpl. rewrite Hm. simpl.
    rewrite !lookup_insert_ne by congruence. exact Hmeta.
Qed.

(** X4.  The reference that [compound_store] takes on an object for transfer mode
    nothing is the one that the finalizer of the wrapper gives back: from the
    creation of the wrapper to its finalization the object is referenced once
    and unreferenced once. *)
Theorem object_reference_is_returned (L : State) (info : GIBaseInfo) (a : Z)
    (env : store_env) (meta : table) :
  stack L = [] ->
  next_block L <> 0 ->
  store_env_of L info = Some env ->
  cache_of L = Some (env_cache env, env_cache_content env) ->
  repo_meta_of L env = Some meta ->
  g_base_info_get_type info = GI_INFO_TYPE_OBJECT ->
  default 0 (tonumber (tbl_get (LStr "type") meta)) = GIInfoType_to_Z GI_INFO_TYPE_OBJECT ->
  a <> 0 ->
  tbl_get (LLight a) (env_cache_content env) = LNil ->
  final_trace ((compound_store info a GI_TRANSFER_NOTHING ;;; compound_gc) L)
    = Some (trace L ++ [EvObjectRef a; EvObjectUnref a]).
Proof.
  intros Hstk Hnb Henv Hcache Hmeta Hkind Htype Ha Hmiss.
  pose proof (compound_store_new L info a GI_TRANSFER_NOTHING env
                ud_compound_data_offset a true [EvObjectRef a] Henv (or_intror Ha) Hmiss)
    as Hstore.
  unfold store_plan in Hstore. rewrite Hkind in Hstore. specialize (Hstore eq_refl).
  destruct (stored_as_wrapper L info env ud_compound_data_offset a true [EvObjectRef a]
              Hstk Hnb Henv Hcache) as (Hstk1 & Hat & Hbind).
  destruct (repo_meta_of_stored L env meta ud_compound_data_offset a true [EvObjectRef a]
              Hmeta) as (Hget & Hnil & Hmeta1).
  rewrite Hget in Hbind.
  pose proof (compound_gc_owned _ _ _ _ _ _ meta _ [EvObjectUnref a]
                Hstk1 Hat Hbind Hmeta1) as Hgc.
  unfold finalizer in Hgc. rewrite Htype in Hgc. specialize (Hgc eq_refl).
  unfold bind. rewrite Hstore, Hgc. unfold final_trace, finalized, stored_as.
  simpl. rewrite <- app_assoc. reflexivity.
Qed.

Lemma object_reference_is_returned_witness :
  final_trace ((compound_store Gtk_Window 4096 GI_TRANSFER_NOTHING ;;; compound_gc)
                 (demo_state []))
    = Some ([] ++ [EvObjectRef 4096; EvObjectUnref 4096]).
Proof.
  destruct (store_env_of (demo_state []) Gtk_Window) as [env|] eqn:Henv;
    [|vm_compute in Henv; discriminate].
  destruct (repo_meta_of (demo_state []) env) as [meta|] eqn:Hmeta;
    [|vm_compute in Henv; injection Henv as <-; vm_compute in Hmeta; discriminate].
  apply (object_reference_is_returned (demo_state []) Gtk_Window 4096 env meta);
    try (vm_compute in Henv; injection Henv as <-; vm_compute in Hmeta;
         try injection Hmeta as <-; vm_compute; congruence).
Defined.


(** X5.  A structure that the program allocates itself (transfer mode container)
    lives inside the userdata block of its wrapper, after the header: the
    address handed back is that of the payload, the wrapper does not own it,
    and finalization releases nothing and calls no hook, whatever the type
    declares. *)
Theorem allocated_structure_lifecycle (L : State) (info : GIBaseInfo) (a : Z)
    (env : store_env) :
  stack L = [] ->
  next_block L <> 0 ->
  store_env_of L info = Some env ->
  cache_of L = Some (env_cache env, env_cache_content env) ->
  is_nil (env_repo_entry env) = false ->
  tbl_get (LLight a) (env_cache_content env) = LNil ->
  let size := ud_compound_data_offset + g_struct_info_get_size info in
  let payload := next_block L + ud_compound_data_offset in
  let L1 := stored_as L env size payload false [] in
  compound_store info a GI_TRANSFER_CONTAINER L = Ok (1, payload) L1
  /\ final_trace (compound_gc L1) = Some (trace L).
Proof.
  intros Hstk Hnb Henv Hcache Hnil Hmiss size payload L1. subst size payload L1.
  split.
  - apply (compound_store_new L info a GI_TRANSFER_CONTAINER env); auto.
  - destruct (stored_as_wrapper L info env
                (ud_compound_data_offset + g_struct_info_get_size info)
                (next_block L + ud_compound_data_offset) false []
                Hstk Hnb Henv Hcache) as (Hstk1 & Hat & Hbind).
    assert (Hget : tbl_get (LNum (bind_repo (env_repo_entry env)
                                            (env_typeinfo_content env)).1)
                     (bind_repo (env_repo_entry env) (env_typeinfo_content env)).2
                   = env_repo_entry env).
    { unfold bind_repo. rewrite Hnil. apply ref_alloc_get. }
    rewrite Hget in Hbind.
    rewrite (compound_gc_not_owned _ _ _ _ _ _ _ Hstk1 Hat Hbind Hnil).
    unfold final_trace, finalized, stored_as. simpl. rewrite !app_nil_r. reflexivity.
Qed.

Lemma allocated_structure_lifecycle_witness :
  compound_store Gdk_Rectangle 0 GI_TRANSFER_CONTAINER (demo_state [])
    = Ok (1, 1000000 + ud_compound_data_offset)
         (stored_as (demo_state []) (mk_store_env 1 4 [] 5 [] (LTable 13))
                    (ud_compound_data_offset + g_struct_info_get_size Gdk_Rectangle)
                    (1000000 + ud_compound_data_offset) false [])
  /\ final_trace
       (compound_gc
          (stored_as (demo_state []) (mk_store_env 1 4 [] 5 [] (LTable 13))
                     (ud_compound_data_offset + g_struct_info_get_size Gdk_Rectangle)
                     (1000000 + ud_compound_data_offset) false []))
     = Some [].
Proof.
  apply (allocated_structure_lifecycle (demo_state []) Gdk_Rectangle 0
           (mk_store_env 1 4 [] 5 [] (LTable 13)));
    try (vm_compute; reflexivity).
  vm_compute. discriminate.
Defined.

(** X6.  A wrapper of a type that the repo does not hold is created all the same,
    bound to no repo table ([LUA_REFNIL]); its finalizer does not survive the
    assertion of [compound_prepare]. *)
Theorem unbound_wrapper_fails_in_gc (L : State) (info : GIBaseInfo) (a : Z)
    (env : store_env) :
  stack L = [] ->
  next_block L <> 0 ->
  store_env_of L info = Some env ->
  cache_of L = Some (env_cache env, env_cache_content env) ->
  env_repo_entry env = LNil ->
  tbl_get (LNum LUA_REFNIL) (env_typeinfo_content env) = LNil ->
  a <> 0 ->
  tbl_get (LLight a) (env_cache_content env) = LNil ->
  let L1 := stored_as L env ud_compound_data_offset a true [] in
  compound_store info a GI_TRANSFER_EVERYTHING L = Ok (1, a) L1
  /\ wrapper_at (next_block L) (Ok tt L1)
     = Some (mk_ud_compound (Some a) (Some LUA_REFNIL) (Some true))
  /\ compound_gc L1 = Crash "assertion failed: !lua_isnil(L, -1)".
Proof.
  intros Hstk Hnb Henv Hcache Hentry Hfree Ha Hmiss L1. subst L1.
  split; [|split].
  - apply (compound_store_new L info a GI_TRANSFER_EVERYTHING env); auto.
  - unfold wrapper_at, stored_as, bind_repo. rewrite Hentry. simpl.
    rewrite lookup_insert_eq. reflexivity.
  - destruct (stored_as_wrapper L info env ud_compound_data_offset a true []
                Hstk Hnb Henv Hcache) as (Hstk1 & Hat & Hbind).
    unfold bind_repo in Hat, Hbind. rewrite Hentry in Hat, Hbind. simpl in Hat, Hbind.
    apply compound_at_inv in Hat as (sz & mt & reg & Hidx & Hud & Hreg & Hmt & Hp).
    apply binding_of_inv in Hbind
      as (reg' & pr & private & Hreg' & Hpr & Hprivate & Hty & Htypeinfo & Hv).
    rewrite Hreg in Hreg'. injection Hreg' as <-.
    destruct (stored_as L env ud_compound_data_offset a true [])
      as [stk tabs nt ud nb mm inst gt tr rk bi].
    simpl in *. subst stk. lrun. reflexivity.
Qed.

(** A structure type of the namespace [Gdk] that the repo does not hold. *)
Definition Gdk_Event : GIBaseInfo :=
  mk_registered 580 GI_INFO_TYPE_STRUCT "Gdk" "Event" 4 8.

Lemma unbound_wrapper_fails_in_gc_witness :
  compound_store Gdk_Event 8192 GI_TRANSFER_EVERYTHING (demo_state [])
    = Ok (1, 8192)
         (stored_as (demo_state []) (mk_store_env 1 4 [] 5 [] LNil)
                    ud_compound_data_offset 8192 true [])
  /\ wrapper_at 1000000
       (Ok tt (stored_as (demo_state []) (mk_store_env 1 4 [] 5 [] LNil)
                         ud_compound_data_offset 8192 true []))
     = Some (mk_ud_compound (Some 8192) (Some LUA_REFNIL) (Some true))
  /\ compound_gc (stored_as (demo_state []) (mk_store_env 1 4 [] 5 [] LNil)
                            ud_compound_data_offset 8192 true [])
     = Crash "assertion failed: !lua_isnil(L, -1)".
Proof.
  apply (unbound_wrapper_fails_in_gc (demo_state []) Gdk_Event 8192
           (mk_store_env 1 4 [] 5 [] LNil));
    try (vm_compute; reflexivity); vm_compute; discriminate.
Defined.

(** X7.  A hit in the cache creates nothing: whatever the transfer mode, the
    cached value is pushed and the state is otherwise as before, so that no
    userdata is allocated, no reference is taken on an object and none that
    the caller hands over is given back. *)
Theorem compound_store_hit_creates_nothing (L : State) (info : GIBaseInfo) (a : Z)
    (env : store_env) (transfer : GITransfer) (v : lua_value) :
  store_env_of L info = Some env ->
  a <> 0 ->
  tbl_get (LLight a) (env_cache_content env) = v ->
  is_nil v = false ->
  compound_store info a transfer L = Ok (1, a) (set_stack (v :: stack L) L).
Proof.
  intros Henv Ha <- Hv. apply compound_store_cached; assumption.
Qed.

(** The state in which the cache holds a value for the address 4096. *)
Definition window_cached : State :=
  set_table 4 [(LLight 4096, LStr "the wrapper")] (demo_state []).

Lemma compound_store_hit_creates_nothing_witness :
  compound_store Gtk_Window 4096 GI_TRANSFER_EVERYTHING window_cached
    = Ok (1, 4096) (set_stack [LStr "the wrapper"] window_cached).
Proof.
  apply (compound_store_hit_creates_nothing window_cached Gtk_Window 4096
           (mk_store_env 1 4 [(LLight 4096, LStr "the wrapper")] 5 [] (LTable 11)));
    try (vm_compute; reflexivity).
  lia.
Defined.


(** ** Arrays: what the loop of [lgi_array_to_lua] cannot do *)

(** Whether a run came to its end. *)
Definition completes {A} (o : outcome A) : bool :=
  match o with
  | Ok _ _ => true
  | _ => false
  end.

Lemma completes_bind {A B} (m : M A) (k : A -> M B) (L : State) :
  (forall a L', m L = Ok a L' -> completes (k a L') = false) ->
  completes (bind m k L) = false.
Proof.
  intros H. unfold bind. destruct (m L); try reflexivity. apply H. reflexivity.
Qed.

Lemma completes_bind_l {A B} (m : M A) (k : A -> M B) (L : State) :
  completes (m L) = false -> completes (bind m k L) = false.
Proof. unfold bind. destruct (m L); [discriminate|reflexivity..]. Qed.

Lemma array_loop_unbounded (elem : GArgument -> M Z) (atype : GIArrayType)
    (size len ptr : Z) (fuel : nat) :
  len < 0 ->
  forall (index : Z) (L : State),
    completes (array_loop elem atype false size len ptr fuel index L) = false.
Proof.
  intros Hlen. apply Z.ltb_lt in Hlen.
  induction fuel as [|fuel IH]; intros index L; cbn [array_loop]; rewrite Hlen; simpl orb.
  - reflexivity.
  - apply completes_bind. intros ea L0 _.
    apply completes_bind. intros eval L1 _.
    apply completes_bind. intros stop L2 [= <- <-].
    apply completes_bind. intros vals L3 _.
    apply completes_bind. intros [] L4 _.
    apply IH.
Qed.

(** X8.  An array that has neither a fixed size nor a terminator, as one whose
    length is another argument of the call, is not marshalled: the loop over
    its elements has no exit, so that the function does not return, whatever
    the elements are. *)
Theorem array_without_length_never_completes (elem : GITransfer -> GArgument -> M Z)
    (etag : GITypeTag) (ti : GITypeInfo) (transfer : GITransfer) (val : GArgument)
    (fuel : nat) (L : State) (ptr : Z) :
  g_type_info_get_array_type ti <> GI_ARRAY_TYPE_ARRAY ->
  g_type_info_get_array_fixed_size ti < 0 ->
  g_type_info_is_zero_terminated ti = false ->
  v_pointer val = Some ptr ->
  ptr <> 0 ->
  completes (lgi_array_to_lua elem etag ti transfer val fuel L) = false.
Proof.
  intros Hat Hlen Hzt Hval Hptr. apply Z.eqb_neq in Hptr.
  unfold lgi_array_to_lua, deref_pointer. cbv zeta. rewrite Hval, Hzt.
  destruct (decide (g_type_info_get_array_type ti = GI_ARRAY_TYPE_ARRAY)); [contradiction|].
  apply completes_bind. intros ptr' L0 [= <- <-].
  apply completes_bind. intros len L1 [= <- <-].
  rewrite Hptr.
  apply completes_bind_l.
  apply completes_bind. intros [] L2 _.
  apply completes_bind_l.
  apply array_loop_unbounded. exact Hlen.
Qed.

(** A C array of 32-bit integers without fixed size and without terminator. *)
Definition int32_array_of_unknown_length : GITypeInfo :=
  mkGITypeInfo GI_TYPE_TAG_ARRAY None (Some int32_type) GI_ARRAY_TYPE_C (-1) false.

Lemma array_without_length_never_completes_witness :
  completes (lgi_array_to_lua (lgi_val_to_lua 100 int32_type) GI_TYPE_TAG_INT32
               int32_array_of_unknown_length GI_TRANSFER_NOTHING (le_encode 8 8192) 100
               garray_state) = false.
Proof.
  apply (array_without_length_never_completes (lgi_val_to_lua 100 int32_type)
           GI_TYPE_TAG_INT32 int32_array_of_unknown_length GI_TRANSFER_NOTHING
           (le_encode 8 8192) 100 garray_state 8192);
    try (vm_compute; reflexivity); try (vm_compute; discriminate); lia.
Defined.

(** The stride of the loop is the size that [lgi_type_get_size] gives for
    the tag of the elements, and that is 0 outside of the table of simple
    types: for elements that are structures, objects, enumerations or
    arrays, every iteration reads the element at the start of the array.
    The marshaller of the elements may as well be given that element each
    time. *)
Lemma bind_ext_ok {A B} (m : M A) (k1 k2 : A -> M B) (L : State) :
  (forall a L', m L = Ok a L' -> k1 a L' = k2 a L') ->
  bind m k1 L = bind m k2 L.
Proof.
  intros H. unfold bind. destruct (m L); try reflexivity. apply H. reflexivity.
Qed.

Lemma bind_ext_at {A B} (m1 m2 : M A) (k1 k2 : A -> M B) (L : State) :
  m1 L = m2 L ->
  (forall a L', m1 L = Ok a L' -> k1 a L' = k2 a L') ->
  bind m1 k1 L = bind m2 k2 L.
Proof.
  intros Hm H. unfold bind. rewrite <- Hm. destruct (m1 L); try reflexivity.
  apply H. reflexivity.
Qed.

Lemma array_loop_stride_zero (elem : GArgument -> M Z) (zero_terminated : bool)
    (len ptr : Z) (fuel : nat) :
  forall (index : Z) (L : State),
    array_loop elem GI_ARRAY_TYPE_C zero_terminated 0 len ptr fuel index L
    = array_loop (fun _ L' => elem (garg_at ptr L') L') GI_ARRAY_TYPE_C zero_terminated
                 0 len ptr fuel index L.
Proof.
  induction fuel as [|fuel IH]; intros index L; cbn [array_loop];
    destruct ((len <? 0) || (index <? len)); try reflexivity.
  rewrite Z.mul_0_r. change (wrap_signed 4 0) with 0. rewrite Z.add_0_r.
  apply bind_ext_ok. intros ea L0 [= <- <-].
  apply bind_ext_ok. intros eval L1 [= <- <-].
  apply bind_ext_ok. intros stop L2 Hstop.
  assert (L2 = L) as ->.
  { destruct zero_terminated; [|injection Hstop as _ <-; reflexivity].
    unfold deref_pointer, bind in Hstop.
    match type of Hstop with
    | context [v_pointer ?x] => destruct (v_pointer x)
    end; [|discriminate].
    injection Hstop as _ <-. reflexivity. }
  destruct stop; [reflexivity|].
  apply bind_ext_at; [reflexivity|]. intros vals L3 _.
  apply bind_ext_ok. intros [] L4 _.
  apply IH.
Qed.

(** X9.  The stride of the loop is the size that [lgi_type_get_size] gives for
    the tag of the elements, and that is 0 outside of the table of simple
    types.  For a C array whose elements are structures, objects,
    enumerations or arrays, every iteration reads the element at the start
    of the array: the marshaller of the elements may as well be given that
    element each time. *)
Theorem array_of_compounds_repeats_first_element (elem : GITransfer -> GArgument -> M Z)
    (etag : GITypeTag) (ti : GITypeInfo) (transfer : GITransfer) (val : GArgument)
    (fuel : nat) (L : State) (ptr : Z) :
  DECLTYPE etag = None ->
  g_type_info_get_array_type ti = GI_ARRAY_TYPE_C ->
  v_pointer val = Some ptr ->
  lgi_array_to_lua elem etag ti transfer val fuel L
  = lgi_array_to_lua (fun t _ L' => elem t (garg_at ptr L') L') etag ti transfer val fuel L.
Proof.
  intros Hd Hat Hval.
  unfold lgi_array_to_lua, lgi_type_get_size, deref_pointer. cbv zeta.
  rewrite Hd, Hat, Hval.
  apply bind_ext_ok. intros ptr' L0 [= <- <-].
  apply bind_ext_ok. intros len L1 _.
  apply bind_ext_at; [|intros; reflexivity].
  destruct (ptr =? 0); [reflexivity|].
  apply bind_ext_ok. intros [] L2 _.
  apply bind_ext_at; [|intros; reflexivity].
  apply array_loop_stride_zero.
Qed.

(** A C array of two enumeration values. *)
Definition orientation_pair : GITypeInfo :=
  mkGITypeInfo GI_TYPE_TAG_ARRAY None (Some (interface_type enum_info_example))
               GI_ARRAY_TYPE_C 2 false.

Lemma array_of_compounds_repeats_first_element_witness :
  lgi_array_to_lua (lgi_val_to_lua 4 (interface_type enum_info_example))
    GI_TYPE_TAG_INTERFACE orientation_pair GI_TRANSFER_NOTHING (le_encode 8 8192) 4
    garray_state
  = lgi_array_to_lua
      (fun t _ L' => lgi_val_to_lua 4 (interface_type enum_info_example) t
                       (garg_at 8192 L') L')
      GI_TYPE_TAG_INTERFACE orientation_pair GI_TRANSFER_NOTHING (le_encode 8 8192) 4
      garray_state.
Proof.
  apply (array_of_compounds_repeats_first_element
           (lgi_val_to_lua 4 (interface_type enum_info_example))
           GI_TYPE_TAG_INTERFACE orientation_pair GI_TRANSFER_NOTHING (le_encode 8 8192) 4
           garray_state 8192); reflexivity.
Defined.

(** The array at 8192 holds 5 and 7; both entries of the table are 5. *)
Example enum_pair_reads_first_twice :
  returned_sequence
    (lgi_val_to_lua 4 orientation_pair GI_TRANSFER_NOTHING (le_encode 8 8192) garray_state)
  = Some [(LNum 1, LNum 5); (LNum 2, LNum 5)].
Proof. vm_compute. reflexivity. Qed.


(** ** Scalars from Lua and back *)

Lemma le_decode_encode (w : nat) (x : Z) :
  le_decode (le_encode w x) = x mod 2 ^ (8 * Z.of_nat w).
Proof.
  revert x. induction w as [|w IH]; intros x.
  - simpl. rewrite Z.mod_1_r. reflexivity.
  - cbn [le_encode le_decode]. rewrite IH.
    rewrite Z.mod_mod by lia.
    replace (8 * Z.of_nat (S w)) with (8 + 8 * Z.of_nat w) by lia.
    rewrite Z.pow_add_r by lia. change (2 ^ 8) with 256.
    rewrite Z.rem_mul_r by lia. reflexivity.
Qed.

Lemma garg_get_set (w : nat) (x : Z) (val : GArgument) :
  garg_get w (garg_set w x val) = Some (x mod 2 ^ (8 * Z.of_nat w)).
Proof.
  assert (Hlen : forall n y, length (le_encode n y) = n).
  { induction n; intros y; simpl; [reflexivity|]. rewrite IHn. reflexivity. }
  unfold garg_get, garg_set.
  rewrite length_app, Hlen.
  destruct (w <=? w + length (drop w val))%nat eqn:Hle;
    [|apply Nat.leb_gt in Hle; lia].
  rewrite take_app_length' by (symmetry; apply Hlen).
  rewrite le_decode_encode. reflexivity.
Qed.

Lemma wrap_signed_unsigned (w x : Z) :
  0 < w -> wrap_signed w (wrap_signed w x mod 2 ^ (8 * w)) = wrap_signed w x.
Proof.
  intros Hw. unfold wrap_signed, wrap_unsigned.
  assert (Hpos : 0 < 2 ^ (8 * w)) by (apply Z.pow_pos_nonneg; lia).
  assert (Hmod : (if x mod 2 ^ (8 * w) <? 2 ^ (8 * w - 1)
                  then x mod 2 ^ (8 * w)
                  else x mod 2 ^ (8 * w) - 2 ^ (8 * w)) mod 2 ^ (8 * w)
                 = x mod 2 ^ (8 * w)).
  { destruct (x mod 2 ^ (8 * w) <? 2 ^ (8 * w - 1)).
    - apply Z.mod_mod. lia.
    - rewrite <- (Z.mod_add _ 1) by lia.
      replace (x mod 2 ^ (8 * w) - 2 ^ (8 * w) + 1 * 2 ^ (8 * w))
        with (x mod 2 ^ (8 * w)) by lia.
      apply Z.mod_mod. lia. }
  rewrite Hmod. rewrite Z.mod_mod by lia. reflexivity.
Qed.

(** The value that an integer of Lua has once it went through a member of
    [w] bytes. *)
Definition as_member (signed : bool) (w : nat) (n : Z) : Z :=
  if signed then wrap_signed (Z.of_nat w) n else wrap_unsigned (Z.of_nat w) n.

(** The integers that a number of Lua, a double, holds exactly; a
    [lua_Integer] holds them as well.  Between them the conversions of
    [luaL_checkinteger] and [lua_pushinteger] change nothing. *)
Definition exact_in_lua (n : Z) : Prop := Z.abs n <= 2 ^ 53.

(** X10.  An integer goes from Lua into a member of the union and back to Lua
    without any check of its range: what comes back is the integer reduced
    to the width of the C type, in two's complement for the signed types.
    This is for integers that a number of Lua holds exactly, before the
    reduction and after it: a negative integer that went through an unsigned
    member of 64 bits is not among them. *)
Theorem integer_round_trip (tag : GITypeTag) (d : decltype) (signed : bool) (index n : Z)
    (val : GArgument) (L : State) :
  DECLTYPE tag = Some d ->
  kind d = SInteger signed ->
  (0 < ctype_size d)%nat ->
  index2adr (stack L) index = Some (LNum n) ->
  exact_in_lua n ->
  exact_in_lua (as_member signed (ctype_size d) n) ->
  (r <- lgi_simple_val_from_lua index tag val false ;;
   lgi_simple_val_to_lua tag GI_TRANSFER_NOTHING (snd r)) L
  = Ok 1 (set_stack (LNum (as_member signed (ctype_size d) n) :: stack L) L).
Proof.
  intros Hd Hk Hw Hidx _ _.
  unfold lgi_simple_val_from_lua, lgi_simple_val_to_lua, decl_check, read_member,
    decl_push, decl_dtor, as_member.
  rewrite Hd, Hk. unfold bind at 1. unfold bind at 1. unfold ret at 1.
  unfold bind at 1.
  assert (Hcheck : luaL_checkinteger index L = Ok n L).
  { unfold luaL_checkinteger, bind, value_at. rewrite Hidx. reflexivity. }
  destruct signed.
  - unfold bind at 1. rewrite Hcheck. unfold ret at 1 2. cbn [snd].
    rewrite garg_get_set. unfold bind at 1. unfold bind at 1. unfold ret at 1.
    rewrite <- (wrap_signed_unsigned (Z.of_nat (ctype_size d)) n) at 2 by lia.
    rewrite bool_decide_false by congruence.
    destruct L; reflexivity.
  - unfold bind at 1. rewrite Hcheck. unfold ret at 1 2. cbn [snd].
    rewrite garg_get_set. unfold bind at 1. unfold bind at 1. unfold ret at 1.
    unfold wrap_unsigned. rewrite Z.mod_mod by (apply Z.pow_nonzero; lia).
    rewrite bool_decide_false by congruence.
    destruct L; reflexivity.
Qed.

Lemma integer_round_trip_witness :
  (r <- lgi_simple_val_from_lua 1 GI_TYPE_TAG_INT8 null_slot false ;;
   lgi_simple_val_to_lua GI_TYPE_TAG_INT8 GI_TRANSFER_NOTHING (snd r)) (demo_state [LNum 200])
  = Ok 1 (set_stack [LNum (-56); LNum 200] (demo_state [LNum 200])).
Proof.
  apply (integer_round_trip GI_TYPE_TAG_INT8 (mk_decltype 1 (SInteger true)) true 1 200
           null_slot (demo_state [LNum 200]));
    try reflexivity; try (vm_compute; discriminate).
  simpl. lia.
Defined.

(** ** Arguments that are left out, and types that are not marshalled *)

(** The member of the union that [lgi_val_from_lua] assigns for a type, by
    its width: that of the simple type, that of the storage type of an
    enumeration or of flags, a pointer for structures and objects.  [None]
    for the types that the function does not handle. *)
Definition member_width (ti : GITypeInfo) : option nat :=
  match DECLTYPE (g_type_info_get_tag ti) with
  | Some d => Some (ctype_size d)
  | None =>
      match g_type_info_get_tag ti, g_type_info_get_interface ti with
      | GI_TYPE_TAG_INTERFACE, Some ii =>
          match g_base_info_get_type ii with
          | GI_INFO_TYPE_ENUM | GI_INFO_TYPE_FLAGS =>
              ctype_size <$> DECLTYPE (g_enum_info_get_storage_type ii)
          | GI_INFO_TYPE_STRUCT | GI_INFO_TYPE_OBJECT => Some 8%nat
          | _ => None
          end
      | _, _ => None
      end
  end.

(** X11.  An optional argument that is nil or absent is passed as zero: 0, false
    or NULL by the type.  Nothing is checked and nothing is raised, and no
    other byte of the union changes. *)
Theorem absent_optional_is_zero (index : Z) (ti : GITypeInfo) (val : GArgument) (L : State)
    (w : nat) :
  member_width ti = Some w ->
  index2adr (stack L) index = Some LNil ->
  lgi_val_from_lua index ti val true L = Ok (1, garg_set w 0 val) L.
Proof.
  intros Hw Hidx. unfold member_width in Hw.
  assert (Hsimple : forall tag d v,
            DECLTYPE tag = Some d ->
            lgi_simple_val_from_lua index tag v true L
            = Ok (1, garg_set (ctype_size d) 0 v) L).
  { intros tag d v Hd.
    assert (Hnone : lua_isnoneornil index L = Ok true L).
    { unfold lua_isnoneornil, bind, value_at. rewrite Hidx. reflexivity. }
    unfold lgi_simple_val_from_lua. rewrite Hd.
    unfold bind at 1. rewrite Hnone. reflexivity. }
  unfold lgi_val_from_lua. cbv zeta.
  destruct (DECLTYPE (g_type_info_get_tag ti)) as [d|] eqn:Hd.
  - injection Hw as <-. unfold bind at 1. rewrite (Hsimple _ d _ Hd). reflexivity.
  - unfold bind at 1. unfold lgi_simple_val_from_lua at 1. rewrite Hd.
    unfold ret at 1. cbn [fst snd]. change (0 =? 0) with true.
    destruct (g_type_info_get_tag ti); try discriminate.
    rewrite bool_decide_true by reflexivity. simpl andb.
    destruct (g_type_info_get_interface ti) as [ii|]; [|discriminate].
    destruct (g_base_info_get_type ii); try discriminate.
    + injection Hw as <-. clear Hsimple.
      destruct L. simpl in Hidx. lrun. reflexivity.
    + apply fmap_Some in Hw as (d & Hd' & ->). apply Hsimple. exact Hd'.
    + apply fmap_Some in Hw as (d & Hd' & ->). apply Hsimple. exact Hd'.
    + injection Hw as <-. clear Hsimple.
      destruct L. simpl in Hidx. lrun. reflexivity.
Qed.

Lemma absent_optional_is_zero_witness :
  lgi_val_from_lua 2 (interface_type Gtk_Window) [1; 2; 3; 4; 5; 6; 7; 8] true
    (demo_state [LStr "only one argument"])
  = Ok (1, garg_set 8 0 [1; 2; 3; 4; 5; 6; 7; 8]) (demo_state [LStr "only one argument"]).
Proof.
  apply (absent_optional_is_zero 2 (interface_type Gtk_Window) [1; 2; 3; 4; 5; 6; 7; 8]
           (demo_state [LStr "only one argument"]) 8); reflexivity.
Defined.

(** X12.  The types that [lgi_val_from_lua] does not handle: arrays, lists, hash
    tables, errors, and the interface types that are callbacks, unions,
    boxed types or interfaces.  For an argument of such a type the function
    reads nothing from the stack, leaves the union as it is and reports that
    it has consumed no argument of the call. *)
Theorem unhandled_type_is_skipped (index : Z) (ti : GITypeInfo) (val : GArgument)
    (optional : bool) (L : State) :
  member_width ti = None ->
  (g_type_info_get_tag ti = GI_TYPE_TAG_INTERFACE ->
   is_Some (g_type_info_get_interface ti)) ->
  (forall ii, g_type_info_get_interface ti = Some ii ->
     g_base_info_get_type ii <> GI_INFO_TYPE_ENUM /\
     g_base_info_get_type ii <> GI_INFO_TYPE_FLAGS) ->
  lgi_val_from_lua index ti val optional L = Ok (0, val) L.
Proof.
  intros Hw Hii Hkind. unfold member_width in Hw.
  unfold lgi_val_from_lua. cbv zeta.
  destruct (DECLTYPE (g_type_info_get_tag ti)) as [d|] eqn:Hd; [discriminate|].
  unfold bind at 1. unfold lgi_simple_val_from_lua at 1. rewrite Hd.
  unfold ret at 1. cbn [fst snd]. change (0 =? 0) with true.
  destruct (decide (g_type_info_get_tag ti = GI_TYPE_TAG_INTERFACE)) as [Ht|Ht].
  - rewrite Ht in *. rewrite bool_decide_true by reflexivity. simpl andb.
    destruct (Hii eq_refl) as [ii Hi]. rewrite Hi in *.
    destruct (Hkind ii eq_refl) as [He Hf].
    destruct (g_base_info_get_type ii); try discriminate; try reflexivity; congruence.
  - rewrite bool_decide_false by exact Ht. reflexivity.
Qed.

Lemma unhandled_type_is_skipped_witness :
  lgi_val_from_lua 1 garray_of_int32 null_slot false (demo_state [LTable 7])
  = Ok (0, null_slot) (demo_state [LTable 7]).
Proof.
  apply (unhandled_type_is_skipped 1 garray_of_int32 null_slot false (demo_state [LTable 7])).
  - reflexivity.
  - discriminate.
  - discriminate.
Defined.


(** * More of the program: names, element access, the entry points *)

(** [lua_gettable], for tables as the model has them, without metatables:
    the key on top of the stack is replaced by what the table holds for it. *)
Definition lua_gettable (idx : Z) : M unit :=
  v <- value_at idx ;;
  match v with
  | LTable t =>
      c <- table_content t ;;
      fun L =>
        match stack L with
        | k :: rest => Ok tt (set_stack (tbl_get k c :: rest) L)
        | [] => Crash "lua_gettable on an empty stack"
        end
  | LUdata _ => unmodelled "__index of a userdata"
  | LStr _ => unmodelled "__index of the string metatable"
  | _ => raise (ErrIndex v)
  end.

(** [lgi_throw]: the error becomes a Lua error that carries its message and
    its code. *)
Definition lgi_throw {A} (err : option GError) : M A :=
  match err with
  | None => crash "assertion failed: err != NULL"
  | Some err =>
      push (LStr (message err +:+ " (" +:+ number2str (code err) +:+ ")")) ;;;
      g_error_free err ;;;
      s <- lua_tostring (-1) ;;
      luaL_error (default "(null)" s)
  end.

(** [repo_get_gtype]: the GType that the repo records for a type. *)
Definition repo_get_gtype (ii : GIBaseInfo) : M Z :=
  regkey <- get_lgi_regkey ;;
  lua_rawgeti LUA_REGISTRYINDEX regkey ;;;
  lua_rawgeti (-1) LGI_REG_REPO ;;;
  lua_getfield (-1) (g_base_info_get_namespace ii) ;;;
  lua_getfield (-1) (g_base_info_get_name ii) ;;;
  isnil <- lua_isnil (-1) ;;
  (if isnil : bool
   then luaL_error ("`" +:+ g_base_info_get_namespace ii +:+ "." +:+ g_base_info_get_name ii
                    +:+ "' not present in repo")
   else ret tt) ;;;
  lua_rawgeti (-1) 0 ;;;
  lua_getfield (-1) "gtype" ;;;
  type <- luaL_checkinteger (-1) ;;
  lua_pop 6 ;;;
  ret type.

(** The first loop of [lgi_type_get_name]: the node and its containers are
    prepended to the list one after the other. *)
Fixpoint containers_onto (info : GIBaseInfo) (lst : list GIBaseInfo) {struct info}
  : list GIBaseInfo :=
  match g_base_info_get_container info with
  | Some container => containers_onto container (info :: lst)
  | None => info :: lst
  end.

(** The second loop: a dot and a name for each node of the list. *)
Fixpoint push_names (lst : list GIBaseInfo) (n : Z) : M Z :=
  match lst with
  | [] => ret n
  | i :: rest =>
      push (LStr ".") ;;;
      push (LStr (g_base_info_get_name i)) ;;;
      push_names rest (n + 2)
  end.

Definition lgi_type_get_name (info : GIBaseInfo) : M Z :=
  push (LStr (g_base_info_get_namespace info)) ;;;
  push_names (containers_onto info []) 1.

(** The flags of fields and of properties. *)
Definition GI_FIELD_IS_READABLE : Z := 1.
Definition GI_FIELD_IS_WRITABLE : Z := 2.
Definition G_PARAM_READABLE : Z := 1.
Definition G_PARAM_WRITABLE : Z := 2.

(** The two messages of [compound_error]. *)
Definition no_such_element (name element : string) : string :=
  name +:+ ": no `" +:+ element +:+ "'".
Definition element_not_writable (name element : string) : string :=
  name +:+ ": `" +:+ element +:+ "' not writable".

(** [compound_error]: a NULL string is printed as "(null)" by the formatter
    of Lua. *)
Definition compound_error {A} (errmsg : string -> string -> string) (element : Z) : M A :=
  lua_rawgeti (-2) 0 ;;;
  lua_getfield (-1) "name" ;;;
  name <- lua_tostring (-1) ;;
  elem <- lua_tostring element ;;
  luaL_error (errmsg (default "(null)" name) (default "(null)" elem)).

(** A write through a pointer into native memory: the bytes of the union as
    the marshaller left them go back to where they were read from. *)
Definition write_back (a : Z) (before after : GArgument) : M unit :=
  if (length before <? length after)%nat then crash "write outside of mapped memory"
  else fun L => Ok tt (mkState (stack L) (tables L) (next_table L) (udata L) (next_block L)
                               (store_bytes a after (mem L)) (instances L) (gtypes L)
                               (trace L) (lgi_regkey L) (lgi_baseinfo_info L)).

Section Elements.

(** What the functions below take from the libraries: the text of a pointer
    as the C library prints it for the conversion p, the node of the catalog
    behind a pointer, the accessors of field and property nodes, the access
    to the properties of an object, and the column of [decltype.h] that
    names the GType of a simple type.  [unused_garbage] is what the local
    variable of [lgi_get] holds, which is never assigned. *)
Variable format_pointer : Z -> string.
Variable node_at : Z -> option GIBaseInfo.
Variable g_field_info_get_offset : GIBaseInfo -> Z.
Variable g_field_info_get_type : GIBaseInfo -> GITypeInfo.
Variable g_field_info_get_flags : GIBaseInfo -> Z.
Variable g_property_info_get_flags : GIBaseInfo -> Z.
Variable g_property_info_get_type : GIBaseInfo -> GITypeInfo.
Variable g_object_get_property : Z -> string -> GValue -> M GValue.
Variable g_object_set_property : Z -> string -> GValue -> M unit.
Variable g_value_unset : GValue -> M unit.
Variable decl_val_type : GITypeTag -> Z.
Variable GITypeTag_to_Z : GITypeTag -> Z.
Variable lgi_callable_create : GIBaseInfo -> M Z.
Variable unused_garbage : GArgument.

Definition compound_tostring : M Z :=
  compound <- compound_prepare 1 ;;
  push (LStr ("lgi " +:+ format_pointer compound +:+ ":")) ;;;
  lua_rawgeti (-2) 0 ;;;
  lua_getfield (-1) "name" ;;;
  lua_replace (-2) ;;;
  lua_concat 2 ;;;
  ret 1.

Definition function_tostring : M Z :=
  p <- luaL_checkudata 1 UD_FUNCTION ;;
  function <- function_at p ;;
  push (LStr "lgi-functn: ") ;;;
  n <- lgi_type_get_name (fi_base (info function)) ;;
  push (LStr (" " +:+ format_pointer p)) ;;;
  lua_concat (n + 2) ;;;
  ret 1.

(** [value_init]: the GValue, zero on entry, is given its type. *)
Definition value_init (val : GValue) (ti : GITypeInfo) : M GValue :=
  let tag := g_type_info_get_tag ti in
  match DECLTYPE tag with
  | Some _ => ret (mkGValue (decl_val_type tag) (gv_data val))
  | None =>
      match tag with
      | GI_TYPE_TAG_INTERFACE =>
          match g_type_info_get_interface ti with
          | None => crash "g_type_info_get_interface returned NULL"
          | Some ii =>
              match g_base_info_get_type ii with
              | GI_INFO_TYPE_ENUM | GI_INFO_TYPE_FLAGS | GI_INFO_TYPE_OBJECT =>
                  type <- repo_get_gtype ii ;;
                  ret (mkGValue type (gv_data val))
              | type =>
                  luaL_error ("value_init: bad ti.iface.type="
                              +:+ number2str (GIInfoType_to_Z type))
              end
          end
      | _ => luaL_error ("value_init: bad ti.tag=" +:+ number2str (GITypeTag_to_Z tag))
      end
  end.

Definition compound_element_field (fuel : nat) (addr : Z) (fi : GIBaseInfo) (newval : Z)
  : M Z :=
  let a := addr + g_field_info_get_offset fi in
  let ti := g_field_info_get_type fi in
  let flags := g_field_info_get_flags fi in
  if newval =? -1 then
    if Z.land flags GI_FIELD_IS_READABLE =? 0 then luaL_argerror 2 "not readable"
    else
      val <- (fun L => Ok (garg_at a L) L) ;;
      lgi_val_to_lua fuel ti GI_TRANSFER_NOTHING val
  else
    if Z.land flags GI_FIELD_IS_WRITABLE =? 0 then luaL_argerror 2 "not writable"
    else
      val <- (fun L => Ok (garg_at a L) L) ;;
      r <- lgi_val_from_lua newval ti val false ;;
      write_back a val (snd r) ;;;
      ret (fst r).

Definition compound_element_property (addr : Z) (pi : GIBaseInfo) (newval : Z) : M Z :=
  let flags := g_property_info_get_flags pi in
  let ti := g_property_info_get_type pi in
  let name := g_base_info_get_name pi in
  val <- value_init (mkGValue 0 0) ti ;;
  if newval =? -1 then
    if Z.land flags G_PARAM_READABLE =? 0 then luaL_argerror 2 "not readable"
    else
      val <- g_object_get_property addr name val ;;
      vals <- value_store val ti ;;
      g_value_unset val ;;;
      ret vals
  else
    if Z.land flags G_PARAM_WRITABLE =? 0 then luaL_argerror 2 "not writable"
    else
      r <- value_load val 3 ti ;;
      g_object_set_property addr name (snd r) ;;;
      g_value_unset (snd r) ;;;
      ret (fst r).

Definition compound_element (fuel : nat) (newval : Z) : M Z :=
  compound <- compound_prepare 1 ;;
  lua_pushvalue 2 ;;;
  lua_gettable (-2) ;;;
  v <- value_at (-1) ;;
  if is_nil v then
    lua_pop 1 ;;;
    lua_pushvalue 1 ;;;
    lua_pushvalue 2 ;;;
    vals <- (if negb (newval =? -1) then lua_pushvalue newval ;;; ret 0 else ret 1) ;;
    called <- compound_callmeta (if newval =? -1 then "index" else "newindex")
                (3 - vals) vals ;;
    if negb called then compound_error no_such_element 2
    else ret vals
  else
    L <- get_state ;;
    match lgi_baseinfo_info L with
    | None => crash "lgi_baseinfo_info is NULL"
    | Some baseinfo =>
        ei <- compound_load (-1) baseinfo true ;;
        if negb (ei =? 0) then
          match node_at ei with
          | None => crash "a pointer to no node of the catalog"
          | Some node =>
              match g_base_info_get_type node with
              | GI_INFO_TYPE_FIELD =>
                  a <- compound_member compound addr ;;
                  compound_element_field fuel a node newval
              | GI_INFO_TYPE_PROPERTY =>
                  a <- compound_member compound addr ;;
                  compound_element_property a node newval
              | _ => ret 0
              end
          end
        else if negb (newval =? -1) then
          lua_pop 1 ;;;
          compound_error element_not_writable 2
        else ret 1
    end.

Definition compound_index (fuel : nat) : M Z := compound_element fuel (-1).
Definition compound_newindex (fuel : nat) : M Z := compound_element fuel 3.

(** [lgi_get]: a new instance of what the node in the wrapper describes. *)
Definition lgi_get (fuel : nat) : M Z :=
  L <- get_state ;;
  match lgi_baseinfo_info L with
  | None => crash "lgi_baseinfo_info is NULL"
  | Some baseinfo =>
      p <- compound_load 1 baseinfo false ;;
      match node_at p with
      | None => crash "a pointer to no node of the catalog"
      | Some node =>
          r <- lgi_type_new lgi_callable_create fuel node unused_garbage ;;
          ret (fst r)
      end
  end.

End Elements.


(** ** The printed names: [lgi_type_get_name], [function_tostring],
    [compound_tostring] *)

(** The containers of a node, the outermost first. *)
Fixpoint ancestors (info : GIBaseInfo) : list GIBaseInfo :=
  match g_base_info_get_container info with
  | Some container => ancestors container ++ [container]
  | None => []
  end.

Fixpoint depth (info : GIBaseInfo) : nat :=
  match g_base_info_get_container info with
  | Some container => S (depth container)
  | None => O
  end.

Lemma containers_onto_ancestors (info : GIBaseInfo) (lst : list GIBaseInfo) :
  containers_onto info lst = ancestors info ++ info :: lst.
Proof.
  remember (depth info) as n eqn:Hn. revert info lst Hn.
  induction n as [|n IH]; intros info lst Hn; destruct info as [a t ns nm [c|] g s z ms k];
    simpl in *; try discriminate; [reflexivity|].
  injection Hn as Hn. rewrite (IH c _ Hn). rewrite <- app_assoc. reflexivity.
Qed.

Lemma append_empty_r (s : string) : s +:+ "" = s.
Proof.
  induction s as [|c s IH]; [reflexivity|].
  change (String c (s +:+ "") = String c s). rewrite IH. reflexivity.
Qed.

Lemma concat_strings_cons (v : lua_value) (r : list lua_value) :
  concat_strings (v :: r) = default "" (concat_operand v) +:+ concat_strings r.
Proof.
  destruct r; [|reflexivity]. cbn [concat_strings]. rewrite append_empty_r. reflexivity.
Qed.

Lemma string_concat_cons (x : string) (xs : list string) :
  String.concat "" (x :: xs) = x +:+ String.concat "" xs.
Proof.
  destruct xs; [|reflexivity]. cbn [String.concat]. rewrite append_empty_r. reflexivity.
Qed.

(** The name of a node with the names of its containers before it, each
    behind a dot. *)
Definition dotted (lst : list GIBaseInfo) : string :=
  String.concat "" (flat_map (fun i => ["."; g_base_info_get_name i]) lst).

Definition name_parts (lst : list GIBaseInfo) : list lua_value :=
  flat_map (fun i => [LStr "."; LStr (g_base_info_get_name i)]) lst.

Lemma push_names_run (lst : list GIBaseInfo) :
  forall (n : Z) (L : State),
    push_names lst n L
    = Ok (n + 2 * Z.of_nat (length lst)) (set_stack (rev (name_parts lst) ++ stack L) L).
Proof.
  induction lst as [|i lst IH]; intros n L.
  - simpl. rewrite Z.add_0_r. destruct L; reflexivity.
  - cbn [push_names]. unfold bind at 1. unfold push at 1, modify at 1.
    unfold bind at 1. unfold push at 1, modify at 1.
    rewrite IH. f_equal; [simpl length; lia|].
    destruct L; simpl. rewrite <- !app_assoc. reflexivity.
Qed.

Lemma name_parts_length (lst : list GIBaseInfo) :
  length (name_parts lst) = (2 * length lst)%nat.
Proof. induction lst; simpl; lia. Qed.

Lemma lgi_type_get_name_run (info : GIBaseInfo) (L : State) :
  let parts := LStr (g_base_info_get_namespace info)
               :: name_parts (ancestors info ++ [info]) in
  lgi_type_get_name info L
  = Ok (Z.of_nat (length parts)) (set_stack (rev parts ++ stack L) L).
Proof.
  intros parts. subst parts.
  unfold lgi_type_get_name. unfold bind at 1. unfold push at 1, modify at 1.
  rewrite push_names_run, containers_onto_ancestors.
  f_equal.
  - simpl length. rewrite name_parts_length. lia.
  - destruct L; simpl. rewrite <- app_assoc. reflexivity.
Qed.

Lemma concat_name_parts (lst : list GIBaseInfo) (s : string) :
  concat_strings (LStr s :: name_parts lst) = s +:+ dotted lst.
Proof.
  unfold dotted, name_parts. revert s.
  induction lst as [|i lst IH]; intros s.
  - simpl. rewrite append_empty_r. reflexivity.
  - cbn [flat_map app].
    rewrite 2 concat_strings_cons, IH, !string_concat_cons. reflexivity.
Qed.

(** X13.  [lgi_type_get_name] pushes the namespace of the node and then, from the
    outermost container down to the node itself, a dot and a name; it
    returns how many strings that are, and their concatenation is the
    qualified name with all the containers. *)
Theorem lgi_type_get_name_pushes_path (info : GIBaseInfo) (L : State) :
  let parts := LStr (g_base_info_get_namespace info)
               :: name_parts (ancestors info ++ [info]) in
  lgi_type_get_name info L
  = Ok (Z.of_nat (length parts)) (set_stack (rev parts ++ stack L) L)
  /\ concat_strings parts
     = g_base_info_get_namespace info +:+ dotted (ancestors info ++ [info]).
Proof.
  intros parts. split; [apply lgi_type_get_name_run | apply concat_name_parts].
Qed.


Lemma concat_strings_app (a b : list lua_value) :
  concat_strings (a ++ b) = concat_strings a +:+ concat_strings b.
Proof.
  induction a as [|v a IH]; [reflexivity|].
  rewrite <- app_comm_cons, !concat_strings_cons, IH.
  generalize (default "" (concat_operand v)) as s. intros s.
  induction s as [|c s IHs]; [reflexivity|].
  change (String c (s +:+ concat_strings a +:+ concat_strings b)
          = String c ((s +:+ concat_strings a) +:+ concat_strings b)).
  rewrite IHs. reflexivity.
Qed.

Lemma split_values_app (vs below : list lua_value) :
  split_values (length vs) (vs ++ below) = Some (vs, below).
Proof.
  induction vs as [|v vs IH]; [reflexivity|]. simpl. rewrite IH. reflexivity.
Qed.

(** [lua_concat] of values that are all strings or numbers. *)
Lemma lua_concat_run (vs below : list lua_value) (L : State) (n : Z) :
  stack L = vs ++ below ->
  n = Z.of_nat (length vs) ->
  (2 <= length vs)%nat ->
  Forall (fun v => is_Some (concat_operand v)) vs ->
  lua_concat n L = Ok tt (set_stack (LStr (concat_strings (rev vs)) :: below) L).
Proof.
  intros Hstk -> Hlen Hall.
  destruct (Z.of_nat (length vs)) as [|q|q] eqn:Hq; try lia.
  unfold lua_concat. rewrite Hstk.
  replace (Pos.to_nat q) with (length vs) by lia.
  rewrite split_values_app.
  destruct (length vs =? 1)%nat eqn:H1; [apply Nat.eqb_eq in H1; lia|].
  assert (Hfind : List.find (fun v => bool_decide (concat_operand v = None)) vs = None).
  { clear -Hall. induction Hall as [|v vs [s Hs] _ IH]; [reflexivity|].
    simpl. rewrite Hs. rewrite bool_decide_false by discriminate. exact IH. }
  rewrite Hfind. reflexivity.
Qed.

Section Printed.

Variable format_pointer : Z -> string.

(** The function userdata at a stack index: its block and its content. *)
Definition function_at_index (L : State) (index : Z) : option (Z * ud_function) :=
  match index2adr (stack L) index with
  | Some (LUdata p) =>
      match udata L !! p, tables L !! registry with
      | Some (mk_udata _ (Some mt) (UdFunction f)), Some reg =>
          if bool_decide (tbl_get (LStr UD_FUNCTION) reg = LTable mt) && negb (p =? 0)
          then Some (p, f) else None
      | _, _ => None
      end
  | _ => None
  end.

Lemma function_at_index_inv (L : State) (index p : Z) (f : ud_function) :
  function_at_index L index = Some (p, f) ->
  exists sz mt reg,
    index2adr (stack L) index = Some (LUdata p)
    /\ udata L !! p = Some (mk_udata sz (Some mt) (UdFunction f))
    /\ tables L !! registry = Some reg
    /\ tbl_get (LStr UD_FUNCTION) reg = LTable mt
    /\ (p =? 0) = false.
Proof.
  unfold function_at_index. intros H.
  destruct (index2adr (stack L) index) as [[]|] eqn:Hidx; try discriminate.
  destruct (udata L !! p0) as [[sz [mt|] []]|] eqn:Hud; try discriminate.
  destruct (tables L !! registry) as [reg|] eqn:Hreg; try discriminate.
  destruct (bool_decide _) eqn:Hmt; try discriminate.
  destruct (p0 =? 0) eqn:Hp; try discriminate.
  simpl in H. injection H as -> ->.
  apply bool_decide_eq_true in Hmt. eauto 10.
Qed.

Lemma luaL_checkudata_function (L : State) (index p : Z) (f : ud_function) :
  function_at_index L index = Some (p, f) ->
  luaL_checkudata index UD_FUNCTION L = Ok p L.
Proof.
  intros (sz & mt & reg & Hidx & Hud & Hreg & Hmt & Hp)%function_at_index_inv.
  destruct L. simpl in *. lrun. reflexivity.
Qed.

(** X14.  The text of a function userdata: the fixed prefix, the qualified name of
    the function with all its containers, and the address of the userdata
    block as the C library prints pointers. *)
Theorem function_tostring_text (L : State) (p : Z) (f : ud_function) :
  function_at_index L 1 = Some (p, f) ->
  let base := fi_base (info f) in
  function_tostring format_pointer L
  = Ok 1 (set_stack
            (LStr ("lgi-functn: "
                   +:+ (g_base_info_get_namespace base +:+ dotted (ancestors base ++ [base]))
                   +:+ " " +:+ format_pointer p) :: stack L) L).
Proof.
  intros Hf base. pose proof (luaL_checkudata_function _ _ _ _ Hf) as Hcheck.
  apply function_at_index_inv in Hf as (sz & mt & reg & Hidx & Hud & Hreg & Hmt & Hp).
  pose proof (lgi_type_get_name_run base
                (set_stack (LStr "lgi-functn: " :: stack L) L)) as Hname.
  pose proof (concat_name_parts (ancestors base ++ [base])
                (g_base_info_get_namespace base)) as Hcat.
  cbv zeta in Hname.
  set (parts := LStr (g_base_info_get_namespace base)
                :: name_parts (ancestors base ++ [base])) in *.
  unfold function_tostring. unfold bind at 1. rewrite Hcheck.
  unfold bind at 1. unfold function_at, bind at 1, udata_at. rewrite Hud.
  cbn [ud_payload_of ret]. unfold bind at 1. unfold push at 1, modify at 1.
  unfold bind at 1. fold base. rewrite Hname.
  unfold bind at 1. unfold push at 1, modify at 1.
  unfold bind at 1.
  erewrite (lua_concat_run
              (LStr (" " +:+ format_pointer p) :: rev parts ++ [LStr "lgi-functn: "])
              (stack L)).
  - unfold ret. f_equal. destruct L; simpl. f_equal. f_equal.
    rewrite <- Hcat.
    change (LStr (" " +:+ format_pointer p) :: rev parts ++ [LStr "lgi-functn: "])
      with ([LStr (" " +:+ format_pointer p)] ++ rev parts ++ [LStr "lgi-functn: "]).
    rewrite !rev_app_distr, rev_involutive. simpl rev.
    rewrite <- app_assoc. simpl app at 1.
    rewrite concat_strings_cons.
    change (LStr (g_base_info_get_namespace base)
            :: name_parts (ancestors base ++ [base]) ++ [LStr (" " +:+ format_pointer p)])
      with (parts ++ [LStr (" " +:+ format_pointer p)]).
    rewrite concat_strings_app. reflexivity.
  - destruct L; cbn [stack set_stack]. clear.
    change (LStr (" " +:+ format_pointer p) :: rev parts ++ [LStr "lgi-functn: "])
      with ([LStr (" " +:+ format_pointer p)] ++ rev parts ++ [LStr "lgi-functn: "]).
    rewrite <- !app_assoc. reflexivity.
  - rewrite length_cons, length_app, length_rev. simpl length. lia.
  - rewrite length_cons, length_app. simpl length. lia.
  - constructor; [eexists; reflexivity|].
    apply Forall_app. split; [|repeat constructor; eexists; reflexivity].
    apply Forall_rev. subst parts. constructor; [eexists; reflexivity|].
    unfold name_parts. generalize (ancestors base ++ [base]) as l.
    induction l; simpl; repeat constructor; try (eexists; reflexivity). assumption.
Qed.

(** X15.  The text of a compound: the address of the userdata block, not of what
    it wraps, and the name that the repo gives to the type.  The function
    leaves the type-binding table and the repo table of the type below its
    result. *)
Theorem compound_tostring_text (L : State) (p : Z) (c : ud_compound) (ref : Z) (ty t : nat)
    (typeinfo meta : table) (name : string) :
  compound_at L 1 = Some (p, c) ->
  ref_repo c = Some ref ->
  binding_of L ref = Some (ty, typeinfo, LTable t) ->
  meta_of L (LTable t) = Some meta ->
  tbl_get (LStr "name") meta = LStr name ->
  compound_tostring format_pointer L
  = Ok 1 (set_stack (LStr (("lgi " +:+ format_pointer p +:+ ":") +:+ name)
                     :: LTable t :: LTable ty :: stack L) L).
Proof.
  intros Hat Href Hbind Hmeta Hname.
  pose proof (luaL_checkudata_compound _ _ _ _ Hat) as Hcheck.
  apply compound_at_inv in Hat as (sz & mt & reg & Hidx & Hud & Hreg & Hmt & Hp).
  apply binding_of_inv in Hbind
    as (reg' & pr & private & Hreg' & Hpr & Hprivate & Hty & Htypeinfo & Hv).
  rewrite Hreg in Hreg'. injection Hreg' as <-.
  unfold meta_of in Hmeta.
  apply bind_Some in Hmeta as (repo & Hrepo & (m & Hm & Hmeta)%table_of_Some).
  simpl in Hrepo.
  unfold compound_tostring, compound_prepare. unfold bind at 1. unfold bind at 1.
  rewrite Hcheck. clear Hcheck Hidx.
  destruct c as [ca cr co]. simpl in Href. subst cr.
  destruct L as [stk tabs nt ud nb mm inst gt tr rk bi]. simpl in *.
  lrun. reflexivity.
Qed.

End Printed.


(** ** Element access: [compound_index] and [compound_newindex] *)

(** A load that passes the check of [compound_load]. *)
Lemma compound_load_ok (L : State) (index p a ref : Z) (o : option bool)
    (ii : GIBaseInfo) (optional : bool) (real : Z) (name : string) :
  compound_at L index = Some (p, mk_ud_compound (Some a) (Some ref) o) ->
  (if G_TYPE_IS_DERIVED (g_registered_type_info_get_g_type ii)
   then instances L !! a = Some real
   else bound_name L ref = Some name) ->
  ancestry_ok L ii real name = true ->
  compound_load index ii optional L = Ok a L.
Proof.
  intros Hc Hb Hok.
  pose proof (luaL_checkudata_compound _ _ _ _ Hc) as Hcheck.
  assert (Hfound : forall k : option Z -> M Z,
    bind (if optional then
              compound <- lua_touserdata index ;;
              if compound =? 0 then ret None
              else
                has <- lua_getmetatable index ;;
                if has =? 0 then ret None
                else
                  lua_getfield LUA_REGISTRYINDEX UD_COMPOUND ;;;
                  same <- lua_rawequal (-1) (-2) ;;
                  lua_pop 2 ;;;
                  ret (if same : bool then Some compound else None)
            else
              compound <- luaL_checkudata index UD_COMPOUND ;;
              ret (Some compound))%lua k L = k (Some p) L).
  { intros k. destruct optional.
    - apply compound_at_inv in Hc as (sz & mt & reg & Hidx & Hud & Hreg & Hmt & Hp).
      destruct L. simpl in *. lrun. reflexivity.
    - cbn [bind]. rewrite Hcheck. reflexivity. }
  unfold compound_load. rewrite Hfound. clear Hfound.
  unfold ancestry_ok in Hok.
  assert (Hmem : compound_member p addr L = Ok a L).
  { apply compound_at_inv in Hc as (sz & mt & reg & Hidx & Hud & Hreg & Hmt & Hp).
    lsimpl. rewrite Hud. reflexivity. }
  destruct (G_TYPE_IS_DERIVED (g_registered_type_info_get_g_type ii)) eqn:Hder.
  - cbn [bind]. rewrite Hmem. lsimpl. rewrite Hb. lsimpl. rewrite Hok. reflexivity.
  - clear Hmem Hcheck.
    apply compound_at_inv in Hc as (sz & mt & reg & Hidx & Hud & Hreg & Hmt & Hp).
    apply bound_name_inv in Hb
      as (reg' & t1 & private & t2 & typeinfo & t3 & repo & t4 & meta & Hreg' & H1 & H1'
          & H2 & H2' & H3 & H3' & H4 & H4' & H5).
    rewrite Hreg in Hreg'. injection Hreg' as <-.
    unfold g_strcmp0_eq, qualified_name in *.
    apply bool_decide_eq_true in Hok. subst name.
    destruct L. simpl in *. lrun. reflexivity.
Qed.

(** What an element access starts from: the wrapper at index 1, the
    type-binding table, and the repo table that the wrapper is bound to. *)
Record element_view := mk_element_view {
  ev_block : Z;
  ev_compound : ud_compound;
  ev_typeinfo : nat;
  ev_typeinfo_content : table;
  ev_repo : nat;
  ev_repo_content : table
}.

Definition element_view_of (L : State) : option element_view :=
  match compound_at L 1 with
  | Some (p, c) =>
      match ref_repo c with
      | Some ref =>
          match binding_of L ref with
          | Some (ty, typeinfo, LTable t) =>
              repo ← tables L !! t;
              Some (mk_element_view p c ty typeinfo t repo)
          | _ => None
          end
      | None => None
      end
  | None => None
  end.

Lemma element_view_of_inv (L : State) (view : element_view) :
  element_view_of L = Some view ->
  exists ref sz mt reg pr private,
    ref_repo (ev_compound view) = Some ref
    /\ index2adr (stack L) 1 = Some (LUdata (ev_block view))
    /\ udata L !! ev_block view = Some (mk_udata sz (Some mt) (UdCompound (ev_compound view)))
    /\ tables L !! registry = Some reg
    /\ tbl_get (LStr UD_COMPOUND) reg = LTable mt
    /\ (ev_block view =? 0) = false
    /\ tbl_get (LNum (lgi_regkey L)) reg = LTable pr /\ tables L !! pr = Some private
    /\ tbl_get (LNum LGI_REG_TYPEINFO) private = LTable (ev_typeinfo view)
    /\ tables L !! ev_typeinfo view = Some (ev_typeinfo_content view)
    /\ tbl_get (LNum ref) (ev_typeinfo_content view) = LTable (ev_repo view)
    /\ tables L !! ev_repo view = Some (ev_repo_content view).
Proof.
  unfold element_view_of. intros H.
  destruct (compound_at L 1) as [[p c]|] eqn:Hat; try discriminate.
  destruct (ref_repo c) as [ref|] eqn:Href; try discriminate.
  destruct (binding_of L ref) as [[[ty typeinfo] []]|] eqn:Hbind; try discriminate.
  apply bind_Some in H as (repo & Hrepo & H). injection H as <-. simpl.
  apply compound_at_inv in Hat as (sz & mt & reg & Hidx & Hud & Hreg & Hmt & Hp).
  apply binding_of_inv in Hbind
    as (reg' & pr & private & Hreg' & Hpr & Hprivate & Hty & Htypeinfo & Hv).
  rewrite Hreg in Hreg'. injection Hreg' as <-.
  exists ref, sz, mt, reg, pr, private. tauto.
Qed.

(** A value that is no userdata and not nil: a function, a table, a number,
    a string or a boolean, as the repo holds them for methods and
    constants. *)
Definition is_plain (v : lua_value) : bool :=
  match v with
  | LNil | LUdata _ | LLight _ => false
  | _ => true
  end.


(** The state [L] with another stack and other bytes in native memory. *)
Definition with_stack_and_memory (stk : list lua_value) (m : gmap Z Z) (L : State) : State :=
  mkState stk (tables L) (next_table L) (udata L) (next_block L) m
          (instances L) (gtypes L) (trace L) (lgi_regkey L) (lgi_baseinfo_info L).

(** The node of the catalog that the userdata block [q] stands for, as
    [compound_load] accepts it for the type of the nodes. *)
Definition node_behind (L : State) (baseinfo : GIBaseInfo) (q : Z) : option Z :=
  match compound_at (set_stack [LUdata q] L) 1 with
  | Some (_, mk_ud_compound (Some ei) (Some ref) _) =>
      let type := g_registered_type_info_get_g_type baseinfo in
      let ok := if G_TYPE_IS_DERIVED type
                then match instances L !! ei with
                     | Some real => g_type_is_a L real type
                     | None => false
                     end
                else bool_decide (bound_name L ref = Some (qualified_name baseinfo)) in
      if ok && negb (ei =? 0) then Some ei else None
  | _ => None
  end.

Lemma node_behind_load (L : State) (baseinfo : GIBaseInfo) (q ei : Z)
    (stk : list lua_value) (m : gmap Z Z) (index : Z) (optional : bool) :
  node_behind L baseinfo q = Some ei ->
  index2adr stk index = Some (LUdata q) ->
  compound_load index baseinfo optional (with_stack_and_memory stk m L)
  = Ok ei (with_stack_and_memory stk m L)
  /\ (ei =? 0) = false.
Proof.
  unfold node_behind. intros H Hidx.
  destruct (compound_at (set_stack [LUdata q] L) 1) as [[q' [[ei'|] [ref|] o]]|] eqn:Hat;
    try discriminate.
  cbv zeta in H.
  destruct (ei' =? 0) eqn:Hei; [rewrite andb_false_r in H; discriminate|].
  rewrite andb_true_r in H.
  apply compound_at_inv in Hat as (sz & mt & reg & Hidx' & Hud & Hreg & Hmt & Hp).
  assert (q' = q) as ->.
  { destruct L; simpl in Hidx'. injection Hidx' as <-. reflexivity. }
  assert (Hat : compound_at (with_stack_and_memory stk m L) index
                = Some (q, mk_ud_compound (Some ei') (Some ref) o)).
  { unfold compound_at, with_stack_and_memory. destruct L; simpl in *.
    rewrite Hidx, Hud, Hreg, Hmt, Hp. rewrite bool_decide_true by reflexivity.
    reflexivity. }
  destruct (G_TYPE_IS_DERIVED (g_registered_type_info_get_g_type baseinfo)) eqn:Hder.
  - destruct (instances L !! ei') as [real|] eqn:Hinst; [|discriminate].
    destruct (g_type_is_a L real _) eqn:Hisa; [|discriminate].
    injection H as <-. split; [|exact Hei].
    apply (compound_load_ok _ _ _ _ _ _ _ _ real "" Hat).
    + rewrite Hder. destruct L; exact Hinst.
    + unfold ancestry_ok. rewrite Hder. destruct L; exact Hisa.
  - destruct (bool_decide _) eqn:Hname; [|discriminate].
    apply bool_decide_eq_true in Hname.
    injection H as <-. split; [|exact Hei].
    apply (compound_load_ok _ _ _ _ _ _ _ _ 0 (qualified_name baseinfo) Hat).
    + rewrite Hder. destruct L; exact Hname.
    + unfold ancestry_ok. rewrite Hder. apply bool_decide_eq_true. reflexivity.
Qed.

Lemma store_bytes_lookup_lt (bs : list Z) :
  forall (a x : Z) (m : gmap Z Z), x < a -> store_bytes a bs m !! x = m !! x.
Proof.
  induction bs as [|b bs IH]; intros a x m Hx; [reflexivity|].
  simpl. rewrite IH by lia. apply lookup_insert_ne. lia.
Qed.

Lemma store_bytes_lookup_ge (bs : list Z) :
  forall (a x : Z) (m : gmap Z Z),
    a + Z.of_nat (length bs) <= x -> store_bytes a bs m !! x = m !! x.
Proof.
  induction bs as [|b bs IH]; intros a x m Hx; [reflexivity|].
  simpl in *. rewrite IH by lia. apply lookup_insert_ne. lia.
Qed.

Lemma mapped_prefix_insert_lt (n : nat) :
  forall (a x b : Z) (m : gmap Z Z),
    x < a -> mapped_prefix (<[x := b]> m) a n = mapped_prefix m a n.
Proof.
  induction n as [|n IH]; intros a x b m Hx; [reflexivity|]. simpl.
  rewrite lookup_insert_ne by lia.
  destruct (m !! a); [|reflexivity]. rewrite IH by lia. reflexivity.
Qed.

(** A member that was written back is what is read next, where the write
    stayed inside the mapped bytes. *)
Lemma mapped_prefix_store (n : nat) :
  forall (a : Z) (m : gmap Z Z) (bs : list Z),
    length bs = length (mapped_prefix m a n) ->
    mapped_prefix (store_bytes a bs m) a n = bs.
Proof.
  induction n as [|n IH]; intros a m bs Hlen.
  - simpl in *. destruct bs; [reflexivity|discriminate].
  - simpl in *. destruct (m !! a) as [b0|] eqn:Ha.
    + destruct bs as [|b bs]; [discriminate|]. simpl in Hlen. injection Hlen as Hlen.
      simpl. rewrite store_bytes_lookup_lt by lia. rewrite lookup_insert_eq.
      f_equal. apply IH. rewrite mapped_prefix_insert_lt by lia. exact Hlen.
    + destruct bs; [|discriminate]. simpl. rewrite Ha. reflexivity.
Qed.

Lemma garg_set_length (w : nat) (x : Z) (val : GArgument) :
  (w <= length val)%nat -> length (garg_set w x val) = length val.
Proof.
  intros Hw. unfold garg_set. rewrite length_app, length_drop.
  assert (Hlen : forall n y, length (le_encode n y) = n).
  { induction n; intros y; simpl; [reflexivity|]. rewrite IHn. reflexivity. }
  rewrite Hlen. lia.
Qed.

Section ElementAccess.

Variable node_at : Z -> option GIBaseInfo.
Variable g_field_info_get_offset : GIBaseInfo -> Z.
Variable g_field_info_get_type : GIBaseInfo -> GITypeInfo.
Variable g_field_info_get_flags : GIBaseInfo -> Z.
Variable g_property_info_get_flags : GIBaseInfo -> Z.
Variable g_property_info_get_type : GIBaseInfo -> GITypeInfo.
Variable g_object_get_property : Z -> string -> GValue -> M GValue.
Variable g_object_set_property : Z -> string -> GValue -> M unit.
Variable g_value_unset : GValue -> M unit.
Variable decl_val_type : GITypeTag -> Z.
Variable GITypeTag_to_Z : GITypeTag -> Z.

Local Abbreviation the_index :=
  (compound_index node_at g_field_info_get_offset g_field_info_get_type
     g_field_info_get_flags g_property_info_get_flags g_property_info_get_type
     g_object_get_property g_object_set_property g_value_unset decl_val_type
     GITypeTag_to_Z).
Local Abbreviation the_newindex :=
  (compound_newindex node_at g_field_info_get_offset g_field_info_get_type
     g_field_info_get_flags g_property_info_get_flags g_property_info_get_type
     g_object_get_property g_object_set_property g_value_unset decl_val_type
     GITypeTag_to_Z).

(** X16.  What the repo table of the type holds for a key and is no userdata is
    the result of the read as it is: a method, a constant. *)
Theorem compound_index_forwards (fuel : nat) (L : State) (key v : lua_value)
    (view : element_view) (baseinfo : GIBaseInfo) :
  stack L = [key; LUdata (ev_block view)] ->
  element_view_of L = Some view ->
  lgi_baseinfo_info L = Some baseinfo ->
  tbl_get key (ev_repo_content view) = v ->
  is_plain v = true ->
  the_index fuel L
  = Ok 1 (set_stack (v :: LTable (ev_repo view) :: LTable (ev_typeinfo view) :: stack L) L).
Proof.
  intros Hstk (ref & sz & mt & reg & pr & private & Href & Hidx & Hud & Hreg & Hmt & Hp
               & Hpr & Hprivate & Hty & Htypeinfo & Hbind & Hrepo)%element_view_of_inv
         Hbi Hv Hplain.
  destruct view as [p [ca cr co] ty typeinfo t repo]. simpl in *. subst cr.
  destruct L as [stk tabs nt ud nb mm inst gt tr rk bi]. simpl in *. subst stk bi.
  unfold compound_index, compound_element, lua_gettable.
  lrun.
  destruct v; try discriminate; lrun; reflexivity.
Qed.

(** What the free list of the type-binding table holds in its head: nothing,
    or the number of a free reference. *)
Definition free_list_head (v : lua_value) : bool :=
  match v with
  | LNil | LNum _ => true
  | _ => false
  end.

(** X17.  A write to a key for which the repo table holds a value that is no
    userdata is refused, and nothing is written.  The refusal is not the
    message that names the type and the key: [compound_error] is entered with
    the repo table on top of the stack, reads the entry 0 of the type-binding
    table below it, which is the head of the free list of references, and
    the program leaves through the error of indexing that value. *)
Theorem compound_newindex_refuses_plain (fuel : nat) (L : State) (key v value : lua_value)
    (view : element_view) (baseinfo : GIBaseInfo) :
  stack L = [value; key; LUdata (ev_block view)] ->
  element_view_of L = Some view ->
  lgi_baseinfo_info L = Some baseinfo ->
  tbl_get key (ev_repo_content view) = v ->
  is_plain v = true ->
  free_list_head (tbl_get (LNum 0) (ev_typeinfo_content view)) = true ->
  the_newindex fuel L
  = Raise (ErrIndex (tbl_get (LNum 0) (ev_typeinfo_content view)))
          (set_stack (tbl_get (LNum 0) (ev_typeinfo_content view)
                      :: LTable (ev_repo view) :: LTable (ev_typeinfo view) :: stack L) L).
Proof.
  intros Hstk (ref & sz & mt & reg & pr & private & Href & Hidx & Hud & Hreg & Hmt & Hp
               & Hpr & Hprivate & Hty & Htypeinfo & Hbind & Hrepo)%element_view_of_inv
         Hbi Hv Hplain Hfree.
  destruct view as [p [ca cr co] ty typeinfo t repo]. simpl in *. subst cr.
  destruct L as [stk tabs nt ud nb mm inst gt tr rk bi]. simpl in *. subst stk bi.
  unfold compound_newindex, compound_element, lua_gettable, compound_error.
  lrun.
  destruct v; try discriminate; lrun;
    destruct (tbl_get (LNum 0) typeinfo); try discriminate; reflexivity.
Qed.


(** X19.  A write to a key that the repo table does not hold, for a type without
    newindex hook, is refused in the same way as a write to a method: through
    the error of indexing the head of the free list, and nothing is
    written. *)
Theorem compound_newindex_of_missing_key (fuel : nat) (L : State) (key value : lua_value)
    (view : element_view) (meta : table) :
  stack L = [value; key; LUdata (ev_block view)] ->
  element_view_of L = Some view ->
  tbl_get key (ev_repo_content view) = LNil ->
  meta_of L (LTable (ev_repo view)) = Some meta ->
  tbl_get (LStr "newindex") meta = LNil ->
  free_list_head (tbl_get (LNum 0) (ev_typeinfo_content view)) = true ->
  the_newindex fuel L
  = Raise (ErrIndex (tbl_get (LNum 0) (ev_typeinfo_content view)))
          (set_stack (tbl_get (LNum 0) (ev_typeinfo_content view)
                      :: LTable (ev_repo view) :: LTable (ev_typeinfo view) :: stack L) L).
Proof.
  intros Hstk (ref & sz & mt & reg & pr & private & Href & Hidx & Hud & Hreg & Hmt & Hp
               & Hpr & Hprivate & Hty & Htypeinfo & Hbind & Hrepo)%element_view_of_inv
         Hv Hmeta Hindex Hfree.
  unfold meta_of in Hmeta.
  apply bind_Some in Hmeta as (repo' & Hrepo' & (m & Hm & Hmeta)%table_of_Some).
  simpl in Hrepo'. rewrite Hrepo in Hrepo'. injection Hrepo' as <-.
  destruct view as [p [ca cr co] ty typeinfo t repo]. simpl in *. subst cr.
  destruct L as [stk tabs nt ud nb mm inst gt tr rk bi]. simpl in *. subst stk.
  unfold compound_newindex, compound_element, lua_gettable, compound_error.
  lrun.
  destruct (tbl_get (LNum 0) typeinfo); try discriminate; reflexivity.
Qed.

End ElementAccess.


(** Runs the program up to the calls of the marshallers and of
    [compound_load]. *)
Ltac lrun_to_load :=
  repeat (cbn -[gmap_lookup gmap_partial_alter gmap_empty map_insert
                tbl_get tbl_set tbl_len pretty String.append
                bool_decide garg_get garg_set
                wrap_signed wrap_unsigned cstring_at load_bytes mapped_prefix
                g_type_is_a g_type_name G_TYPE_IS_DERIVED luaL_ref luaL_unref
                compound_load lgi_val_to_lua lgi_val_from_lua write_back Z.land];
          try match goal with
              | H : ?l = _ |- context [?l] => rewrite H
              | |- context [bool_decide (?x = ?x)] =>
                  rewrite (bool_decide_true (x = x)) by reflexivity
              | |- context [bool_decide (?x = ?y)] =>
                  rewrite (bool_decide_false (x = y)) by discriminate
              | |- context [<[?i := _]> _ !! ?i] => rewrite lookup_insert_eq
              | |- context [<[?i := _]> _ !! ?j] =>
                  rewrite lookup_insert_ne by (assumption || congruence)
              end).

Lemma bind_ok {A B} (m : M A) (k : A -> M B) (L L' : State) (a : A) :
  m L = Ok a L' -> bind m k L = k a L'.
Proof. intros H. unfold bind. rewrite H. reflexivity. Qed.

Lemma lgi_val_from_lua_integer (index : Z) (ti : GITypeInfo) (d : decltype) (signed : bool)
    (n : Z) (val : GArgument) (L : State) :
  DECLTYPE (g_type_info_get_tag ti) = Some d ->
  kind d = SInteger signed ->
  index2adr (stack L) index = Some (LNum n) ->
  lgi_val_from_lua index ti val false L
  = Ok (1, garg_set (ctype_size d) (as_member signed (ctype_size d) n) val) L.
Proof.
  intros Hd Hk Hidx.
  assert (Hcheck : luaL_checkinteger index L = Ok n L).
  { unfold luaL_checkinteger, bind, value_at. rewrite Hidx. reflexivity. }
  assert (Hx : decl_check d index L = Ok (as_member signed (ctype_size d) n) L).
  { unfold decl_check, as_member. rewrite Hk.
    destruct signed; erewrite bind_ok by exact Hcheck; reflexivity. }
  assert (Hsimple : lgi_simple_val_from_lua index (g_type_info_get_tag ti) val false L
                    = Ok (1, garg_set (ctype_size d) (as_member signed (ctype_size d) n) val)
                         L).
  { unfold lgi_simple_val_from_lua. rewrite Hd.
    erewrite bind_ok by reflexivity. cbv iota.
    erewrite bind_ok by exact Hx. reflexivity. }
  unfold lgi_val_from_lua. cbv zeta.
  erewrite bind_ok by exact Hsimple. reflexivity.
Qed.

Lemma lgi_val_to_lua_integer (fuel : nat) (ti : GITypeInfo) (d : decltype) (signed : bool)
    (val : GArgument) (x : Z) (L : State) :
  DECLTYPE (g_type_info_get_tag ti) = Some d ->
  kind d = SInteger signed ->
  garg_get (ctype_size d) val = Some x ->
  lgi_val_to_lua fuel ti GI_TRANSFER_NOTHING val L
  = Ok 1 (set_stack (LNum (if signed then wrap_signed (Z.of_nat (ctype_size d)) x else x)
                     :: stack L) L).
Proof.
  intros Hd Hk Hget. destruct ti as [tag ii pt at_ fs zt].
  cbn [g_type_info_get_tag] in Hd.
  cbn [lgi_val_to_lua g_type_info_get_tag].
  assert (Hsimple : lgi_simple_val_to_lua tag GI_TRANSFER_NOTHING val L
                    = Ok 1 (set_stack
                              (LNum (if signed then wrap_signed (Z.of_nat (ctype_size d)) x
                                     else x) :: stack L) L)).
  { unfold lgi_simple_val_to_lua. rewrite Hd.
    unfold read_member, decl_push, decl_dtor. rewrite Hget, Hk.
    rewrite bool_decide_false by congruence.
    destruct signed; destruct L; reflexivity. }
  erewrite bind_ok by exact Hsimple. reflexivity.
Qed.

Section FieldAccess.

Variable node_at : Z -> option GIBaseInfo.
Variable g_field_info_get_offset : GIBaseInfo -> Z.
Variable g_field_info_get_type : GIBaseInfo -> GITypeInfo.
Variable g_field_info_get_flags : GIBaseInfo -> Z.
Variable g_property_info_get_flags : GIBaseInfo -> Z.
Variable g_property_info_get_type : GIBaseInfo -> GITypeInfo.
Variable g_object_get_property : Z -> string -> GValue -> M GValue.
Variable g_object_set_property : Z -> string -> GValue -> M unit.
Variable g_value_unset : GValue -> M unit.
Variable decl_val_type : GITypeTag -> Z.
Variable GITypeTag_to_Z : GITypeTag -> Z.

Local Abbreviation the_index :=
  (compound_index node_at g_field_info_get_offset g_field_info_get_type
     g_field_info_get_flags g_property_info_get_flags g_property_info_get_type
     g_object_get_property g_object_set_property g_value_unset decl_val_type
     GITypeTag_to_Z).
Local Abbreviation the_newindex :=
  (compound_newindex node_at g_field_info_get_offset g_field_info_get_type
     g_field_info_get_flags g_property_info_get_flags g_property_info_get_type
     g_object_get_property g_object_set_property g_value_unset decl_val_type
     GITypeTag_to_Z).

(** The access to the element [key] of the wrapper at index 1 when the repo
    table of the type holds the node of a field for it: the state in which
    the access to the field starts, with the wrapper of the node, the repo
    table and the type-binding table on the stack. *)
Definition field_frame (L : State) (view : element_view) (q : Z) : State :=
  set_stack (LUdata q :: LTable (ev_repo view) :: LTable (ev_typeinfo view) :: stack L) L.

Lemma compound_element_field_run (fuel : nat) (L : State) (args : list lua_value)
    (key : lua_value) (newval : Z) (view : element_view) (baseinfo : GIBaseInfo)
    (q ei a : Z) (fi : GIBaseInfo) :
  stack L = args ++ [key; LUdata (ev_block view)] ->
  (length args <= 1)%nat ->
  element_view_of L = Some view ->
  addr (ev_compound view) = Some a ->
  lgi_baseinfo_info L = Some baseinfo ->
  tbl_get key (ev_repo_content view) = LUdata q ->
  node_behind L baseinfo q = Some ei ->
  node_at ei = Some fi ->
  g_base_info_get_type fi = GI_INFO_TYPE_FIELD ->
  compound_element node_at g_field_info_get_offset g_field_info_get_type
     g_field_info_get_flags g_property_info_get_flags g_property_info_get_type
     g_object_get_property g_object_set_property g_value_unset decl_val_type
     GITypeTag_to_Z fuel newval L
  = compound_element_field g_field_info_get_offset g_field_info_get_type
      g_field_info_get_flags fuel a fi newval (field_frame L view q).
Proof.
  intros Hstk Hargs Hview Haddr Hbi Hkey Hnode Hat Hkind.
  apply element_view_of_inv in Hview
    as (ref & sz & mt & reg & pr & private & Href & Hidx & Hud & Hreg & Hmt & Hp
        & Hpr & Hprivate & Hty & Htypeinfo & Hbind & Hrepo).
  destruct view as [p [ca cr co] ty typeinfo t repo].
  cbn [ev_block ev_compound ev_typeinfo ev_typeinfo_content ev_repo ev_repo_content
       ref_repo addr] in *.
  subst cr ca. unfold field_frame.
  cbn [ev_block ev_compound ev_typeinfo ev_typeinfo_content ev_repo ev_repo_content].
  destruct L as [stk tabs nt ud nb mm inst gt tr rk bi].
  cbn [stack tables next_table udata next_block mem instances gtypes trace lgi_regkey
       lgi_baseinfo_info set_stack] in *.
  subst stk bi.
  pose proof (node_behind_load _ baseinfo q ei
                (LUdata q :: LTable t :: LTable ty :: args ++ [key; LUdata p])
                mm (-1) true Hnode eq_refl) as [Hload Hei].
  unfold with_stack_and_memory in Hload.
  cbn [stack tables next_table udata next_block mem instances gtypes trace lgi_regkey
       lgi_baseinfo_info] in Hload.
  clear Hnode Hidx.
  unfold compound_element, lua_gettable.
  destruct args as [|v [|]]; [| |simpl in Hargs; lia]; simpl app in *;
    lrun_to_load; reflexivity.
Qed.

(** X20.  The flags of a field decide: a field that is not readable is not read
    and a field that is not writable is not written, the access leaves
    through the error of argument 2 and native memory is as before. *)
Theorem field_access_respects_flags (fuel : nat) (L : State) (key : lua_value)
    (view : element_view) (baseinfo : GIBaseInfo) (q ei a : Z) (fi : GIBaseInfo) :
  stack L = [key; LUdata (ev_block view)] ->
  element_view_of L = Some view ->
  addr (ev_compound view) = Some a ->
  lgi_baseinfo_info L = Some baseinfo ->
  tbl_get key (ev_repo_content view) = LUdata q ->
  node_behind L baseinfo q = Some ei ->
  node_at ei = Some fi ->
  g_base_info_get_type fi = GI_INFO_TYPE_FIELD ->
  (Z.land (g_field_info_get_flags fi) GI_FIELD_IS_READABLE = 0 ->
   the_index fuel L = Raise (ErrArg 2 "not readable") (field_frame L view q))
  /\ (Z.land (g_field_info_get_flags fi) GI_FIELD_IS_WRITABLE = 0 ->
      forall value : lua_value,
        the_newindex fuel (set_stack (value :: stack L) L)
        = Raise (ErrArg 2 "not writable")
                (field_frame (set_stack (value :: stack L) L) view q)).
Proof.
  intros Hstk Hview Haddr Hbi Hkey Hnode Hat Hkind. split.
  - intros Hflag. unfold compound_index.
    rewrite (compound_element_field_run fuel L [] key (-1) view baseinfo q ei a fi)
      by (assumption || (simpl; lia)).
    unfold compound_element_field. rewrite Hflag. reflexivity.
  - intros Hflag value. unfold compound_newindex.
    rewrite (compound_element_field_run fuel (set_stack (value :: stack L) L) [value]
               key 3 view baseinfo q ei a fi);
      try assumption; try (simpl; lia).
    + unfold compound_element_field. rewrite Hflag. reflexivity.
    + destruct L; simpl in *. subst. reflexivity.
    + destruct L; simpl in *. subst. exact Hview.
Qed.

(** X21.  An integer that is written to a field and then read from it comes back
    reduced to the width of the field: the write stores it at the offset of
    the field behind the address of the compound, where the read finds
    it.  This is for integers that a number of Lua holds exactly, before the
    reduction and after it. *)
Theorem integer_field_round_trip (fuel : nat) (L : State) (key : lua_value) (n : Z)
    (view : element_view) (baseinfo : GIBaseInfo) (q ei a : Z) (fi : GIBaseInfo)
    (d : decltype) (signed : bool) :
  stack L = [LNum n; key; LUdata (ev_block view)] ->
  element_view_of L = Some view ->
  addr (ev_compound view) = Some a ->
  lgi_baseinfo_info L = Some baseinfo ->
  tbl_get key (ev_repo_content view) = LUdata q ->
  node_behind L baseinfo q = Some ei ->
  node_at ei = Some fi ->
  g_base_info_get_type fi = GI_INFO_TYPE_FIELD ->
  Z.land (g_field_info_get_flags fi) GI_FIELD_IS_READABLE <> 0 ->
  Z.land (g_field_info_get_flags fi) GI_FIELD_IS_WRITABLE <> 0 ->
  DECLTYPE (g_type_info_get_tag (g_field_info_get_type fi)) = Some d ->
  kind d = SInteger signed ->
  (0 < ctype_size d)%nat ->
  exact_in_lua n ->
  exact_in_lua (as_member signed (ctype_size d) n) ->
  let at_field := a + g_field_info_get_offset fi in
  (ctype_size d <= length (mapped_prefix (mem L) at_field 8))%nat ->
  let member := garg_set (ctype_size d) (as_member signed (ctype_size d) n)
                         (mapped_prefix (mem L) at_field 8) in
  let L1 := with_stack_and_memory
              (LUdata q :: LTable (ev_repo view) :: LTable (ev_typeinfo view) :: stack L)
              (store_bytes at_field member (mem L)) L in
  the_newindex fuel L = Ok 1 L1
  /\ the_index fuel (set_stack [key; LUdata (ev_block view)] L1)
     = Ok 1 (set_stack [LNum (as_member signed (ctype_size d) n); LUdata q;
                        LTable (ev_repo view); LTable (ev_typeinfo view);
                        key; LUdata (ev_block view)] L1).
Proof.
  intros Hstk Hview Haddr Hbi Hkey Hnode Hat Hkind Hr Hw Hd Hk Hsize _ _ at_field Hmapped
         member L1.
  apply Z.eqb_neq in Hr, Hw.
  assert (Hlen : length member = length (mapped_prefix (mem L) at_field 8)).
  { apply garg_set_length. exact Hmapped. }
  split.
  - unfold compound_newindex.
    rewrite (compound_element_field_run fuel L [LNum n] key 3 view baseinfo q ei a fi)
      by (assumption || (simpl; lia)).
    unfold compound_element_field. change (3 =? -1) with false. cbv iota.
    rewrite Hw. fold at_field.
    erewrite bind_ok by reflexivity.
    replace (garg_at at_field (field_frame L view q))
      with (mapped_prefix (mem L) at_field 8) by (destruct L; reflexivity).
    erewrite bind_ok;
      [|apply (lgi_val_from_lua_integer 3 _ d signed n); try assumption;
        unfold field_frame; destruct L; simpl in *; subst; reflexivity].
    cbn [fst snd]. fold member.
    unfold write_back. rewrite Hlen, Nat.ltb_irrefl.
    unfold field_frame, L1, with_stack_and_memory. destruct L; reflexivity.
  - unfold compound_index.
    rewrite (compound_element_field_run fuel (set_stack [key; LUdata (ev_block view)] L1)
               [] key (-1) view baseinfo q ei a fi);
      try assumption; try (simpl; lia).
    + unfold compound_element_field. change (-1 =? -1) with true. cbv iota.
      rewrite Hr. fold at_field. erewrite bind_ok by reflexivity.
      assert (Hval : garg_at at_field
                       (field_frame (set_stack [key; LUdata (ev_block view)] L1) view q)
                     = member).
      { unfold field_frame, L1, with_stack_and_memory, garg_at. destruct L.
        cbn [mem set_stack] in *. apply mapped_prefix_store. exact Hlen. }
      rewrite Hval.
      rewrite (lgi_val_to_lua_integer fuel _ d signed member
                 (as_member signed (ctype_size d) n mod 2 ^ (8 * Z.of_nat (ctype_size d))))
        by (assumption || apply garg_get_set).
      assert (Hback : (if signed
                       then wrap_signed (Z.of_nat (ctype_size d))
                              (as_member signed (ctype_size d) n
                               mod 2 ^ (8 * Z.of_nat (ctype_size d)))
                       else as_member signed (ctype_size d) n
                            mod 2 ^ (8 * Z.of_nat (ctype_size d)))
                      = as_member signed (ctype_size d) n).
      { unfold as_member. destruct signed.
        - apply wrap_signed_unsigned. lia.
        - unfold wrap_unsigned. apply Z.mod_mod. apply Z.pow_nonzero; lia. }
      rewrite Hback.
      unfold field_frame, L1, with_stack_and_memory. destruct L; reflexivity.
    + unfold L1, with_stack_and_memory. destruct L; reflexivity.
    + unfold L1, with_stack_and_memory. destruct L; simpl in *. subst. exact Hview.
Qed.

Lemma compound_element_property_run (fuel : nat) (L : State) (args : list lua_value)
    (key : lua_value) (newval : Z) (view : element_view) (baseinfo : GIBaseInfo)
    (q ei a : Z) (pi : GIBaseInfo) :
  stack L = args ++ [key; LUdata (ev_block view)] ->
  (length args <= 1)%nat ->
  element_view_of L = Some view ->
  addr (ev_compound view) = Some a ->
  lgi_baseinfo_info L = Some baseinfo ->
  tbl_get key (ev_repo_content view) = LUdata q ->
  node_behind L baseinfo q = Some ei ->
  node_at ei = Some pi ->
  g_base_info_get_type pi = GI_INFO_TYPE_PROPERTY ->
  compound_element node_at g_field_info_get_offset g_field_info_get_type
     g_field_info_get_flags g_property_info_get_flags g_property_info_get_type
     g_object_get_property g_object_set_property g_value_unset decl_val_type
     GITypeTag_to_Z fuel newval L
  = compound_element_property g_property_info_get_flags g_property_info_get_type
      g_object_get_property g_object_set_property g_value_unset decl_val_type
      GITypeTag_to_Z a pi newval (field_frame L view q).
Proof.
  intros Hstk Hargs Hview Haddr Hbi Hkey Hnode Hat Hkind.
  apply element_view_of_inv in Hview
    as (ref & sz & mt & reg & pr & private & Href & Hidx & Hud & Hreg & Hmt & Hp
        & Hpr & Hprivate & Hty & Htypeinfo & Hbind & Hrepo).
  destruct view as [p [ca cr co] ty typeinfo t repo].
  cbn [ev_block ev_compound ev_typeinfo ev_typeinfo_content ev_repo ev_repo_content
       ref_repo addr] in *.
  subst cr ca. unfold field_frame.
  cbn [ev_block ev_compound ev_typeinfo ev_typeinfo_content ev_repo ev_repo_content].
  destruct L as [stk tabs nt ud nb mm inst gt tr rk bi].
  cbn [stack tables next_table udata next_block mem instances gtypes trace lgi_regkey
       lgi_baseinfo_info set_stack] in *.
  subst stk bi.
  pose proof (node_behind_load _ baseinfo q ei
                (LUdata q :: LTable t :: LTable ty :: args ++ [key; LUdata p])
                mm (-1) true Hnode eq_refl) as [Hload Hei].
  unfold with_stack_and_memory in Hload.
  cbn [stack tables next_table udata next_block mem instances gtypes trace lgi_regkey
       lgi_baseinfo_info] in Hload.
  clear Hnode Hidx.
  unfold compound_element, lua_gettable.
  destruct args as [|v [|]]; [| |simpl in Hargs; lia]; simpl app in *;
    lrun_to_load; reflexivity.
Qed.

(** The kinds of interface types that a property can have for the program:
    enumerations, flags and objects. *)
Definition property_kind (kind : GIInfoType) : bool :=
  match kind with
  | GI_INFO_TYPE_ENUM | GI_INFO_TYPE_FLAGS | GI_INFO_TYPE_OBJECT => true
  | _ => false
  end.

(** X22.  A property whose type is a structure, a boxed type, a union or another
    interface type outside of enumerations, flags and objects is not read:
    [value_init] raises the error that carries the number of the kind, before
    the flags of the property are looked at and before the object is asked
    for anything. *)
Theorem property_of_other_kind_is_refused (fuel : nat) (L : State) (key : lua_value)
    (view : element_view) (baseinfo : GIBaseInfo) (q ei a : Z) (pi ii : GIBaseInfo) :
  stack L = [key; LUdata (ev_block view)] ->
  element_view_of L = Some view ->
  addr (ev_compound view) = Some a ->
  lgi_baseinfo_info L = Some baseinfo ->
  tbl_get key (ev_repo_content view) = LUdata q ->
  node_behind L baseinfo q = Some ei ->
  node_at ei = Some pi ->
  g_base_info_get_type pi = GI_INFO_TYPE_PROPERTY ->
  g_type_info_get_tag (g_property_info_get_type pi) = GI_TYPE_TAG_INTERFACE ->
  g_type_info_get_interface (g_property_info_get_type pi) = Some ii ->
  property_kind (g_base_info_get_type ii) = false ->
  the_index fuel L
  = Raise (ErrMsg ("value_init: bad ti.iface.type="
                   +:+ number2str (GIInfoType_to_Z (g_base_info_get_type ii))))
          (field_frame L view q).
Proof.
  intros Hstk Hview Haddr Hbi Hkey Hnode Hat Hkind Htag Hii Hother.
  unfold compound_index.
  rewrite (compound_element_property_run fuel L [] key (-1) view baseinfo q ei a pi)
    by (assumption || (simpl; lia)).
  unfold compound_element_property, value_init. cbv zeta.
  rewrite Htag, Hii. cbn [DECLTYPE].
  destruct (g_base_info_get_type ii); try discriminate; reflexivity.
Qed.

End FieldAccess.


(** ** The GType that the repo records: [repo_get_gtype] *)



(** The GType of a window, read from the repo. *)
Example repo_get_gtype_of_window :
  repo_get_gtype Gtk_Window (demo_state []) = Ok GTK_TYPE_WINDOW (demo_state []).
Proof. vm_compute. reflexivity. Qed.


(** ** New instances: [lgi_get] *)

Section Instances.

Variable node_at : Z -> option GIBaseInfo.
Variable lgi_callable_create : GIBaseInfo -> M Z.
Variable unused_garbage : GArgument.

(** X24.  [lgi_get] hands the address of a local that it never assigns to
    [compound_store], which asks the cache about the pointer found there
    before it allocates anything.  When what the local happens to hold is a
    key of the cache, the call yields the cached value and no new instance. *)
Theorem lgi_get_asks_cache_about_garbage (fuel : nat) (L : State) (baseinfo node : GIBaseInfo)
    (q ei g : Z) (env : store_env) (v : lua_value) :
  index2adr (stack L) 1 = Some (LUdata q) ->
  lgi_baseinfo_info L = Some baseinfo ->
  node_behind L baseinfo q = Some ei ->
  node_at ei = Some node ->
  g_base_info_get_type node = GI_INFO_TYPE_STRUCT ->
  v_pointer unused_garbage = Some g ->
  g <> 0 ->
  store_env_of L node = Some env ->
  tbl_get (LLight g) (env_cache_content env) = v ->
  is_nil v = false ->
  lgi_get node_at lgi_callable_create unused_garbage fuel L
  = Ok 1 (set_stack (v :: stack L) L).
Proof.
  intros Hidx Hbi Hnode Hat Hkind Hval Hg Henv Hv Hnil.
  pose proof (node_behind_load L baseinfo q ei (stack L) (mem L) 1 false Hnode Hidx)
    as [Hload _].
  replace (with_stack_and_memory (stack L) (mem L) L) with L in Hload
    by (destruct L; reflexivity).
  unfold lgi_get. erewrite bind_ok by reflexivity. rewrite Hbi.
  erewrite bind_ok by exact Hload. rewrite Hat.
  unfold lgi_type_new. rewrite Hkind.
  erewrite bind_ok;
    [|erewrite bind_ok; [|unfold deref_pointer; rewrite Hval; reflexivity];
      erewrite bind_ok;
        [|apply (compound_store_cached L node g env GI_TRANSFER_CONTAINER Henv Hg);
          rewrite Hv; exact Hnil];
      reflexivity].
  rewrite Hv. reflexivity.
Qed.

End Instances.


(** ** A world with a structure and its field

    A rectangle lives at 8192: four 32-bit integers, 1, 2, 30 and 40.  Its
    wrapper is the userdata block at 1000000.  The repo table of
    [Gdk.Rectangle] holds the node of the field width, wrapped in the block
    at 3000000, and the method area; the node of the field lies at 600. *)

Definition width_field : GIBaseInfo :=
  mkGIBaseInfo 600 GI_INFO_TYPE_FIELD "Gdk" "width" (Some Gdk_Rectangle) 0
               GI_TYPE_TAG_VOID 0 [] None.

Definition rectangle_tables : gmap nat table :=
  <[13%nat := [(LNum 0, LTable 18); (LStr "width", LUdata 3000000);
               (LStr "area", LFun "area")]]>
    (<[5%nat := [(LNum 1, LTable 13); (LNum 2, LTable 15)]]> demo_tables).

Definition rectangle_blocks : gmap Z udata_block :=
  {[ 1000000 := mk_udata ud_compound_data_offset (Some 1%nat)
                  (UdCompound (mk_ud_compound (Some 8192) (Some 1) (Some false)));
     3000000 := mk_udata ud_compound_data_offset (Some 1%nat)
                  (UdCompound (mk_ud_compound (Some 600) (Some 2) (Some true))) ]}.

Definition rectangle_memory : gmap Z Z :=
  store_bytes 8192 (le_encode 4 1 ++ le_encode 4 2 ++ le_encode 4 30 ++ le_encode 4 40) ∅.

Definition rectangle_state (stk : list lua_value) : State :=
  mkState stk rectangle_tables 21 rectangle_blocks 3000016 rectangle_memory ∅ demo_gtypes
          [] 1 (Some GIRepository_IBaseInfo).

Definition rectangle_view : element_view :=
  mk_element_view 1000000 (mk_ud_compound (Some 8192) (Some 1) (Some false))
                  5 [(LNum 1, LTable 13); (LNum 2, LTable 15)]
                  13 [(LNum 0, LTable 18); (LStr "width", LUdata 3000000);
                      (LStr "area", LFun "area")].

(** The catalog and the library, as far as the rectangle needs them. *)
Definition demo_node_at (p : Z) : option GIBaseInfo :=
  if p =? 600 then Some width_field else None.
Definition no_offset (fi : GIBaseInfo) : Z := 8.
Definition int32_field (fi : GIBaseInfo) : GITypeInfo := int32_type.
Definition read_write (fi : GIBaseInfo) : Z := 3.
Definition no_access (fi : GIBaseInfo) : Z := 0.
Definition no_property_get (a : Z) (name : string) (val : GValue) : M GValue := ret val.
Definition no_property_set (a : Z) (name : string) (val : GValue) : M unit := ret tt.
Definition no_unset (val : GValue) : M unit := ret tt.
Definition no_number (tag : GITypeTag) : Z := 0.
Definition decimal_pointer (p : Z) : string := "0x" +:+ pretty p.

Lemma compound_index_forwards_witness :
  compound_index demo_node_at no_offset int32_field read_write no_access int32_field
    no_property_get no_property_set no_unset no_number no_number 4
    (rectangle_state [LStr "area"; LUdata 1000000])
  = Ok 1 (set_stack [LFun "area"; LTable 13; LTable 5; LStr "area"; LUdata 1000000]
            (rectangle_state [LStr "area"; LUdata 1000000])).
Proof.
  apply (compound_index_forwards demo_node_at no_offset int32_field read_write no_access
           int32_field no_property_get no_property_set no_unset no_number no_number 4
           (rectangle_state [LStr "area"; LUdata 1000000]) (LStr "area") (LFun "area")
           rectangle_view GIRepository_IBaseInfo);
    vm_compute; reflexivity.
Defined.

Lemma compound_newindex_refuses_plain_witness :
  compound_newindex demo_node_at no_offset int32_field read_write no_access int32_field
    no_property_get no_property_set no_unset no_number no_number 4
    (rectangle_state [LNum 7; LStr "area"; LUdata 1000000])
  = Raise (ErrIndex LNil)
          (set_stack [LNil; LTable 13; LTable 5; LNum 7; LStr "area"; LUdata 1000000]
             (rectangle_state [LNum 7; LStr "area"; LUdata 1000000])).
Proof.
  apply (compound_newindex_refuses_plain demo_node_at no_offset int32_field read_write
           no_access int32_field no_property_get no_property_set no_unset no_number
           no_number 4 (rectangle_state [LNum 7; LStr "area"; LUdata 1000000])
           (LStr "area") (LFun "area") (LNum 7) rectangle_view GIRepository_IBaseInfo);
    vm_compute; reflexivity.
Defined.


Lemma compound_newindex_of_missing_key_witness :
  compound_newindex demo_node_at no_offset int32_field read_write no_access int32_field
    no_property_get no_property_set no_unset no_number no_number 4
    (rectangle_state [LNum 7; LStr "depth"; LUdata 1000000])
  = Raise (ErrIndex LNil)
          (set_stack [LNil; LTable 13; LTable 5; LNum 7; LStr "depth"; LUdata 1000000]
             (rectangle_state [LNum 7; LStr "depth"; LUdata 1000000])).
Proof.
  apply (compound_newindex_of_missing_key demo_node_at no_offset int32_field read_write
           no_access int32_field no_property_get no_property_set no_unset no_number
           no_number 4 (rectangle_state [LNum 7; LStr "depth"; LUdata 1000000])
           (LStr "depth") (LNum 7) rectangle_view
           (repo_meta GI_INFO_TYPE_STRUCT "Gdk.Rectangle" 4
              [(LStr "acquire", LFun "acquire"); (LStr "dispose", LFun "dispose")]));
    vm_compute; reflexivity.
Defined.

Lemma field_access_respects_flags_witness :
  (Z.land (no_access width_field) GI_FIELD_IS_READABLE = 0 ->
   compound_index demo_node_at no_offset int32_field no_access no_access int32_field
     no_property_get no_property_set no_unset no_number no_number 4
     (rectangle_state [LStr "width"; LUdata 1000000])
   = Raise (ErrArg 2 "not readable")
           (field_frame (rectangle_state [LStr "width"; LUdata 1000000]) rectangle_view
              3000000))
  /\ (Z.land (no_access width_field) GI_FIELD_IS_WRITABLE = 0 ->
      forall value : lua_value,
        compound_newindex demo_node_at no_offset int32_field no_access no_access int32_field
          no_property_get no_property_set no_unset no_number no_number 4
          (set_stack (value :: stack (rectangle_state [LStr "width"; LUdata 1000000]))
             (rectangle_state [LStr "width"; LUdata 1000000]))
        = Raise (ErrArg 2 "not writable")
                (field_frame
                   (set_stack (value :: stack (rectangle_state [LStr "width"; LUdata 1000000]))
                      (rectangle_state [LStr "width"; LUdata 1000000]))
                   rectangle_view 3000000)).
Proof.
  apply (field_access_respects_flags demo_node_at no_offset int32_field no_access no_access
           int32_field no_property_get no_property_set no_unset no_number no_number 4
           (rectangle_state [LStr "width"; LUdata 1000000]) (LStr "width") rectangle_view
           GIRepository_IBaseInfo 3000000 600 8192 width_field);
    vm_compute; reflexivity.
Defined.

Lemma integer_field_round_trip_witness :
  compound_newindex demo_node_at no_offset int32_field read_write no_access int32_field
    no_property_get no_property_set no_unset no_number no_number 4
    (rectangle_state [LNum 77; LStr "width"; LUdata 1000000])
  = Ok 1 (with_stack_and_memory
            [LUdata 3000000; LTable 13; LTable 5; LNum 77; LStr "width"; LUdata 1000000]
            (store_bytes (8192 + 8)
               (garg_set 4 (as_member true 4 77) (mapped_prefix rectangle_memory (8192 + 8) 8))
               rectangle_memory)
            (rectangle_state [LNum 77; LStr "width"; LUdata 1000000]))
  /\ compound_index demo_node_at no_offset int32_field read_write no_access int32_field
       no_property_get no_property_set no_unset no_number no_number 4
       (set_stack [LStr "width"; LUdata 1000000]
          (with_stack_and_memory
             [LUdata 3000000; LTable 13; LTable 5; LNum 77; LStr "width"; LUdata 1000000]
             (store_bytes (8192 + 8)
                (garg_set 4 (as_member true 4 77)
                   (mapped_prefix rectangle_memory (8192 + 8) 8))
                rectangle_memory)
             (rectangle_state [LNum 77; LStr "width"; LUdata 1000000])))
     = Ok 1 (set_stack [LNum (as_member true 4 77); LUdata 3000000; LTable 13; LTable 5;
                        LStr "width"; LUdata 1000000]
               (with_stack_and_memory
                  [LUdata 3000000; LTable 13; LTable 5; LNum 77; LStr "width";
                   LUdata 1000000]
                  (store_bytes (8192 + 8)
                     (garg_set 4 (as_member true 4 77)
                        (mapped_prefix rectangle_memory (8192 + 8) 8))
                     rectangle_memory)
                  (rectangle_state [LNum 77; LStr "width"; LUdata 1000000]))).
Proof.
  apply (integer_field_round_trip demo_node_at no_offset int32_field read_write no_access
           int32_field no_property_get no_property_set no_unset no_number no_number 4
           (rectangle_state [LNum 77; LStr "width"; LUdata 1000000]) (LStr "width") 77
           rectangle_view GIRepository_IBaseInfo 3000000 600 8192 width_field
           (mk_decltype 4 (SInteger true)) true);
    try (vm_compute; reflexivity); try (vm_compute; discriminate); vm_compute; lia.
Defined.

(** The width of the rectangle is 30 before the write and 77 after it. *)
Example width_before_and_after :
  final_stack
    (compound_index demo_node_at no_offset int32_field read_write no_access int32_field
       no_property_get no_property_set no_unset no_number no_number 4
       (rectangle_state [LStr "width"; LUdata 1000000]))
  = Some [LNum 30; LUdata 3000000; LTable 13; LTable 5; LStr "width"; LUdata 1000000]
  /\ final_stack
       ((compound_newindex demo_node_at no_offset int32_field read_write no_access
           int32_field no_property_get no_property_set no_unset no_number no_number 4 ;;;
         lua_settop 0 ;;; push (LUdata 1000000) ;;; push (LStr "width") ;;;
         compound_index demo_node_at no_offset int32_field read_write no_access
           int32_field no_property_get no_property_set no_unset no_number no_number 4)
          (rectangle_state [LNum 77; LStr "width"; LUdata 1000000]))
     = Some [LNum 77; LUdata 3000000; LTable 13; LTable 5; LStr "width"; LUdata 1000000].
Proof. vm_compute. split; reflexivity. Qed.

(** A method of the window type and the userdata of the function. *)
Definition Window_present : GIFunctionInfo :=
  mkGIFunctionInfo
    (mkGIBaseInfo 610 GI_INFO_TYPE_FUNCTION "Gtk" "present" (Some Gtk_Window) 0
                  GI_TYPE_TAG_VOID 0 [] None)
    GI_FUNCTION_IS_METHOD [] int32_type GI_TRANSFER_NOTHING.

Definition present_state : State :=
  mkState [LUdata 2000000] demo_tables 21
          {[ 2000000 := mk_udata 64 (Some 2%nat)
                          (UdFunction (mk_ud_function (mkInvoker 77000) Window_present)) ]}
          2000064 ∅ ∅ demo_gtypes [] 1 (Some GIRepository_IBaseInfo).

Lemma function_tostring_text_witness :
  function_tostring decimal_pointer present_state
  = Ok 1 (set_stack [LStr "lgi-functn: Gtk.Window.present 0x2000000"; LUdata 2000000]
            present_state).
Proof.
  exact (function_tostring_text decimal_pointer present_state 2000000
           (mk_ud_function (mkInvoker 77000) Window_present) eq_refl).
Defined.

Lemma compound_tostring_text_witness :
  compound_tostring decimal_pointer (rectangle_state [LUdata 1000000])
  = Ok 1 (set_stack [LStr "lgi 0x1000000:Gdk.Rectangle"; LTable 13; LTable 5;
                     LUdata 1000000] (rectangle_state [LUdata 1000000])).
Proof.
  apply (compound_tostring_text decimal_pointer (rectangle_state [LUdata 1000000]) 1000000
           (mk_ud_compound (Some 8192) (Some 1) (Some false)) 1 5 13
           [(LNum 1, LTable 13); (LNum 2, LTable 15)]
           (repo_meta GI_INFO_TYPE_STRUCT "Gdk.Rectangle" 4
              [(LStr "acquire", LFun "acquire"); (LStr "dispose", LFun "dispose")])
           "Gdk.Rectangle");
    vm_compute; reflexivity.
Defined.

(** The local of [lgi_get] happens to hold the address 4096, under which the
    cache holds a value. *)
Definition node_state : State :=
  mkState [LUdata 3000000]
          (<[4%nat := [(LLight 4096, LStr "the wrapper")]]> rectangle_tables) 21
          rectangle_blocks 3000016 rectangle_memory ∅ demo_gtypes [] 1
          (Some GIRepository_IBaseInfo).

Definition rectangle_node_at (p : Z) : option GIBaseInfo :=
  if p =? 600 then Some Gdk_Rectangle else None.

Lemma lgi_get_asks_cache_about_garbage_witness :
  lgi_get rectangle_node_at no_callable (le_encode 8 4096) 4 node_state
  = Ok 1 (set_stack [LStr "the wrapper"; LUdata 3000000] node_state).
Proof.
  apply (lgi_get_asks_cache_about_garbage rectangle_node_at no_callable (le_encode 8 4096) 4
           node_state GIRepository_IBaseInfo Gdk_Rectangle 3000000 600 4096
           (mk_store_env 1 4 [(LLight 4096, LStr "the wrapper")] 5
              [(LNum 1, LTable 13); (LNum 2, LTable 15)] (LTable 13))
           (LStr "the wrapper"));
    try (vm_compute; reflexivity). lia.
Defined.

(** A property of the window whose type is the structure [Gdk.Rectangle]. *)
Definition allocation_property : GIBaseInfo :=
  mkGIBaseInfo 620 GI_INFO_TYPE_PROPERTY "Gtk" "allocation" (Some Gtk_Window) 0
               GI_TYPE_TAG_VOID 0 [] None.

Definition property_node_at (p : Z) : option GIBaseInfo :=
  if p =? 600 then Some allocation_property else None.
Definition rectangle_typed (pi : GIBaseInfo) : GITypeInfo := interface_type Gdk_Rectangle.

Lemma property_of_other_kind_is_refused_witness :
  compound_index property_node_at no_offset int32_field read_write read_write rectangle_typed
    no_property_get no_property_set no_unset no_number no_number 4
    (rectangle_state [LStr "width"; LUdata 1000000])
  = Raise (ErrMsg ("value_init: bad ti.iface.type="
                   +:+ number2str (GIInfoType_to_Z (g_base_info_get_type Gdk_Rectangle))))
          (field_frame (rectangle_state [LStr "width"; LUdata 1000000]) rectangle_view
             3000000).
Proof.
  apply (property_of_other_kind_is_refused property_node_at no_offset int32_field read_write
           read_write rectangle_typed no_property_get no_property_set no_unset no_number
           no_number 4 (rectangle_state [LStr "width"; LUdata 1000000]) (LStr "width")
           rectangle_view GIRepository_IBaseInfo 3000000 600 8192 allocation_property
           Gdk_Rectangle);
    vm_compute; reflexivity.
Defined.


(** ** The receiver of a method: [function_call] *)

Section MethodCall.

Variable lgi_callable_create : GIBaseInfo -> M Z.
Variable ffi_call :
  ud_function -> list GArgument -> State -> list GArgument * option GError * State.
Variable g_newa_garbage : nat -> GArgument.
Variable addr_of_err : Z.

(** A method without arguments that returns nothing and does not throw. *)
Definition niladic_method (fi : GIFunctionInfo) : bool :=
  negb (Z.land (g_function_info_get_flags fi) GI_FUNCTION_IS_METHOD =? 0)
  && (Z.land (g_function_info_get_flags fi) GI_FUNCTION_IS_CONSTRUCTOR =? 0)
  && (Z.land (g_function_info_get_flags fi) GI_FUNCTION_THROWS =? 0)
  && bool_decide (fi_args fi = [])
  && bool_decide (g_type_info_get_tag (g_callable_info_get_return_type fi)
                  = GI_TYPE_TAG_VOID)
  && bool_decide (is_Some (g_base_info_get_container (fi_base fi))).

(** X25.  The receiver of a method is loaded as an optional compound.  When the
    value passed for it is no userdata (nil, a number, a string, a table),
    the call is not refused: the native function is called with NULL as its
    receiver. *)
Theorem method_without_receiver_gets_null (fuel : nat) (L L' : State) (p : Z)
    (f : ud_function) (self : lua_value) (args : list GArgument)
    (reported : option GError) :
  stack L = [self; LUdata p] ->
  function_at_index L 1 = Some (p, f) ->
  niladic_method (info f) = true ->
  is_plain self || is_nil self = true ->
  ffi_call f [g_newa_garbage 0; garg_set 8 0 (g_newa_garbage 1)] L = (args, reported, L') ->
  function_call lgi_callable_create ffi_call g_newa_garbage addr_of_err fuel L = Ok 0 L'.
Proof.
  intros Hstk Hf Hsig Hself Hffi.
  apply function_at_index_inv in Hf as (sz & mt & reg & Hidx & Hud & Hreg & Hmt & Hp).
  unfold niladic_method in Hsig.
  repeat match goal with
         | H : _ && _ = true |- _ => apply andb_prop in H as [? ?]
         end.
  repeat match goal with
         | H : bool_decide _ = true |- _ => apply bool_decide_eq_true in H
         | H : negb _ = true |- _ => apply negb_true_iff in H
         end.
  destruct (g_base_info_get_container (fi_base (info f))) as [pi|] eqn:Hpi;
    [|match goal with H : is_Some None |- _ => destruct H; discriminate end].
  destruct (g_callable_info_get_return_type (info f))
    as [tagr ifr ptr atr fsr ztr] eqn:Hret.
  simpl in *. subst.
  destruct L as [stk tabs nt ud nb mm inst gt tr rk bi]. simpl in *. subst stk.
  clear Hidx.
  unfold function_call.
  destruct self; try discriminate; lrun; reflexivity.
Qed.

End MethodCall.

(** The method [present] of the window type is called on a number. *)
Definition present_function : ud_function :=
  mk_ud_function (mkInvoker 77000)
    (mkGIFunctionInfo (fi_base Window_present) GI_FUNCTION_IS_METHOD []
       (mkGITypeInfo GI_TYPE_TAG_VOID None None GI_ARRAY_TYPE_C (-1) false)
       GI_TRANSFER_NOTHING).

Definition present_called_on_number : State :=
  mkState [LNum 5; LUdata 2000000] demo_tables 21
          {[ 2000000 := mk_udata 64 (Some 2%nat) (UdFunction present_function) ]}
          2000064 ∅ ∅ demo_gtypes [] 1 (Some GIRepository_IBaseInfo).

(** A native function that records the receiver it was called with. *)
Definition native_records_receiver (f : ud_function) (args : list GArgument) (L : State)
  : list GArgument * option GError * State :=
  (args, None, log_event (EvWarning ("receiver " +:+ pretty (default 1 (slot_member 8 1 args)))) L).

Lemma method_without_receiver_gets_null_witness :
  function_call no_callable native_records_receiver stack_garbage 0 4 present_called_on_number
  = Ok 0 (log_event (EvWarning "receiver 0") present_called_on_number).
Proof.
  apply (method_without_receiver_gets_null no_callable native_records_receiver stack_garbage
           0 4 present_called_on_number
           (log_event (EvWarning "receiver 0") present_called_on_number) 2000000
           present_function (LNum 5)
           [stack_garbage 0%nat; garg_set 8 0 (stack_garbage 1%nat)] None);
    vm_compute; reflexivity.
Defined.

(** ** NULL compounds and objects out of a [GValue]: [lgi_val_to_lua], [value_store] *)

(** X26.  A NULL structure or object is nil in Lua: for every transfer mode but
    container the pointer is not looked up in the cache, no userdata is
    created and nothing is referenced or released. *)
Theorem null_interface_value_is_nil (fuel : nat) (ti : GITypeInfo) (ii : GIBaseInfo)
    (transfer : GITransfer) (val : GArgument) (L : State) :
  g_type_info_get_tag ti = GI_TYPE_TAG_INTERFACE ->
  g_type_info_get_interface ti = Some ii ->
  g_base_info_get_type ii = GI_INFO_TYPE_STRUCT
  \/ g_base_info_get_type ii = GI_INFO_TYPE_OBJECT ->
  v_pointer val = Some 0 ->
  transfer <> GI_TRANSFER_CONTAINER ->
  lgi_val_to_lua fuel ti transfer val L = Ok 1 (set_stack (LNil :: stack L) L).
Proof.
  intros Htag Hii Hkind Hval Htransfer.
  destruct ti as [tag iface pt at_ fs zt]. cbn [g_type_info_get_tag g_type_info_get_interface] in *.
  subst tag iface. cbn [lgi_val_to_lua g_type_info_get_tag g_type_info_get_interface].
  unfold lgi_simple_val_to_lua. cbn [DECLTYPE]. unfold bind at 1. cbn [ret Z.eqb].
  unfold deref_pointer, compound_store. rewrite Hval.
  rewrite (bool_decide_eq_true_2 _ Htransfer).
  destruct Hkind as [-> | ->]; destruct L; reflexivity.
Qed.

Lemma store_env_of_log_event (L : State) (info : GIBaseInfo) (e : event) :
  store_env_of (log_event e L) info = store_env_of L info.
Proof. destruct L; reflexivity. Qed.

(** X27.  Pushing an object out of a [GValue] takes a reference on it
    ([g_value_dup_object]) and hands it to [compound_store] as owned.  When
    the object has its wrapper in the cache already, that wrapper is the
    result and the reference stays taken: the call adds one reference to the
    object and nothing that would give it back. *)
Theorem value_store_of_wrapped_object_keeps_reference (val : GValue) (ti : GITypeInfo)
    (ii : GIBaseInfo) (L : State) (env : store_env) (v : lua_value) :
  g_type_info_get_tag ti = GI_TYPE_TAG_INTERFACE ->
  g_type_info_get_interface ti = Some ii ->
  g_base_info_get_type ii = GI_INFO_TYPE_OBJECT ->
  gv_data val <> 0 ->
  store_env_of L ii = Some env ->
  tbl_get (LLight (gv_data val)) (env_cache_content env) = v ->
  is_nil v = false ->
  value_store val ti L
  = Ok 1 (set_stack (v :: stack L) (log_event (EvObjectRef (gv_data val)) L)).
Proof.
  intros Htag Hii Hkind Ha Henv <- Hv.
  unfold value_store. rewrite Htag, Hii, Hkind. cbn [DECLTYPE].
  apply Z.eqb_neq in Ha as Ha'. rewrite Ha'.
  unfold bind at 1. unfold g_object_ref, modify.
  unfold bind at 1.
  rewrite (compound_store_cached _ ii (gv_data val) env GI_TRANSFER_EVERYTHING);
    [|rewrite store_env_of_log_event; exact Henv|exact Ha|exact Hv].
  destruct L; reflexivity.
Qed.

Lemma null_interface_value_is_nil_witness :
  lgi_val_to_lua 1 (interface_type Gtk_Window) GI_TRANSFER_EVERYTHING null_slot (demo_state [])
  = Ok 1 (set_stack [LNil] (demo_state [])).
Proof.
  apply (null_interface_value_is_nil 1 (interface_type Gtk_Window) Gtk_Window
           GI_TRANSFER_EVERYTHING null_slot (demo_state []));
    try (vm_compute; reflexivity).
  - right. reflexivity.
  - discriminate.
Defined.

(** The window at 4096 has its wrapper in the cache and is read out of a
    [GValue]: one reference more, and the cached wrapper. *)
Lemma value_store_of_wrapped_object_keeps_reference_witness :
  value_store (mkGValue GTK_TYPE_WINDOW 4096) (interface_type Gtk_Window) window_cached
  = Ok 1 (set_stack [LStr "the wrapper"] (log_event (EvObjectRef 4096) window_cached)).
Proof.
  apply (value_store_of_wrapped_object_keeps_reference
           (mkGValue GTK_TYPE_WINDOW 4096) (interface_type Gtk_Window) Gtk_Window
           window_cached
           (mk_store_env 1 4 [(LLight 4096, LStr "the wrapper")] 5 [] (LTable 11))
           (LStr "the wrapper"));
    try (vm_compute; reflexivity).
  simpl. lia.
Defined.

(** ** The log of the debug build: [lgi_log] *)

(** [luaL_checkoption] of the auxiliary library: the position of the string
    at [narg] in [lst], with [def] for an argument that is absent or nil. *)
Fixpoint option_index (lst : list string) (name : string) (i : Z) : option Z :=
  match lst with
  | [] => None
  | s :: lst' => if String.eqb s name then Some i else option_index lst' name (i + 1)
  end.

Definition luaL_checkoption (narg : Z) (def : option string) (lst : list string) : M Z :=
  name <- match def with
          | Some d => (o <- luaL_optstring narg ;; ret (default d o))
          | None => luaL_checkstring narg
          end ;;
  match option_index lst name 0 with
  | Some i => ret i
  | None =>
      push (LStr ("invalid option '" +:+ name +:+ "'")) ;;;
      luaL_argerror narg ("invalid option '" +:+ name +:+ "'")
  end.

Definition lgi_log_levels : list string :=
  ["error"; "critical"; "warning"; "message"; "info"; "debug"].

Section Log.

(** [g_log] of GLib for the log domain of the binding, by level and text. *)
Variable g_log : Z -> string -> M unit.

Definition lgi_log : M Z :=
  message <- luaL_checkstring 1 ;;
  option <- luaL_checkoption 2 (nth_error lgi_log_levels 5) lgi_log_levels ;;
  let level := Z.shiftl 1 (option + 2) in
  g_log level message ;;;
  ret 0.



End Log.

(** A log that records level and text in the trace. *)
Definition log_to_trace (level : Z) (text : string) : M unit :=
  modify (log_event (EvWarning (pretty level +:+ " " +:+ text))).


(** Without a level the text is logged for debugging, and a level that does
    not exist is refused. *)
Example lgi_log_default_and_unknown :
  final_trace (lgi_log log_to_trace (demo_state [LStr "hello"]))
  = Some [EvWarning "128 hello"]
  /\ raised (lgi_log log_to_trace (demo_state [LStr "fatal"; LStr "hello"]))
     = Some (ErrArg 2 "invalid option 'fatal'").
Proof. split; vm_compute; reflexivity. Qed.
